(** * Ribbon charts: stack layout and ribbon interpolation

    A shallow embedding of the three chart builders of the repository
    ([ribbon_engine.create_ribbon_chart],
    [employee_hours_chart.create_ribbon_chart] and
    [ribbon_chart.add_ribbon_scenario]) together with the shared curve
    sampler [get_sigmoid_curve], of the two loops of
    [ribbon_chart.create_interactive_gallery] and of the data preparation
    of [employee_app.main].  Reading files, parsing arguments, the random
    data generators and the figure layout are left out.

    Numbers.  A cell of the value column is a float; it is modelled as an
    exact rational or NaN ([number]), and the stacking arithmetic is
    carried out on rationals.  The program computes in binary floating
    point, where a sum is rounded.  The statements about offsets are
    therefore given in the form of the sums the program makes (an offset
    is the offset before it plus a height plus the gap), as orders that
    rounding preserves (an offset is not below the one before it), or
    under sign conditions that exclude [inf - inf]; what holds in exact
    arithmetic only is marked as such.  The curve sampler needs [exp] and
    lives in the real numbers; layout results enter it through [Q2R].

    Traces.  A figure is the list of traces added to it, in order.  Only
    the geometric and identifying fields of a trace are kept (position,
    extent, name or legend group, colour, legend flag); hover templates,
    opacity, line style and the figure layout are left out. *)

From Stdlib Require Import QArith Reals Lqa Lra Lia Bool.
From Stdlib Require Import String List.
From Stdlib Require Import Sorting.Sorted Sorting.Permutation.
From Stdlib Require Import Structures.OrderedTypeEx.
From stdpp Require Import gmap strings list fin_maps pretty.

Import ListNotations.
Local Open Scope string_scope.
Local Open Scope list_scope.

(** ** Floats of the value column *)

Inductive number : Type :=
| Num (q : Q)
| NaN.

(** [pd.isna(val)] *)
Definition isna (v : number) : bool :=
  match v with NaN => true | Num _ => false end.

(** [val <= 0]; every comparison with NaN is false *)
Definition le0 (v : number) : bool :=
  match v with Num q => Qle_bool q 0 | NaN => false end.

(** [val > 0] *)
Definition gt0 (v : number) : bool :=
  match v with Num q => negb (Qle_bool q 0) | NaN => false end.

(** [a + b] and [a - b] on floats: NaN is absorbing *)
Definition nadd (a b : number) : number :=
  match a, b with Num x, Num y => Num (x + y) | _, _ => NaN end.

Definition nsub (a b : number) : number :=
  match a, b with Num x, Num y => Num (x - y) | _, _ => NaN end.

(** [a == 0] *)
Definition is0 (a : number) : bool :=
  match a with Num x => Qeq_bool x 0 | NaN => false end.

(** ** Rows of a long-form table *)

Record Row (P : Type) : Type := mkRow {
  period : P;
  category : string;
  value : number
}.
Arguments mkRow {P} _ _ _.
Arguments period {P} _.
Arguments category {P} _.
Arguments value {P} _.

(** ** Exceptions *)

Inductive exn : Type :=
| ValueError (msg : string)
| KeyError (key : string)
| ZeroDivisionError.

Inductive result (A : Type) : Type :=
| Ok (a : A)
| Raise (e : exn).
Arguments Ok {A} _.
Arguments Raise {A} _.

Definition bind {A B : Type} (m : result A) (k : A -> result B) : result B :=
  match m with
  | Ok a => k a
  | Raise e => Raise e
  end.

Notation "'do' x <- m ; k" := (bind m (fun x => k))
  (at level 10, x name, m at level 100, k at level 200).
Notation "'do' ' p <- m ; k" := (bind m (fun x => let p := x in k))
  (at level 10, p pattern, m at level 100, k at level 200).

(** A [for] loop whose body may raise. *)
Fixpoint for_each {S A : Type} (body : S -> A -> result S) (l : list A) (s : S)
  : result S :=
  match l with
  | [] => Ok s
  | a :: l' => do s' <- body s a; for_each body l' s'
  end.

(** ** [unique], [sorted], [sort_values] *)

(** [Series.unique()]: the distinct elements in order of first appearance. *)
Fixpoint unique {A : Type} `{EqDecision A} (l : list A) : list A :=
  match l with
  | [] => []
  | x :: l' => x :: List.filter (fun y => negb (bool_decide (y = x))) (unique l')
  end.

(** A stable insertion sort: [x] is put before the first element it is
    below or equal to, so elements that compare equal keep their order. *)
Fixpoint insert_sorted {A : Type} (leb : A -> A -> bool) (x : A) (l : list A)
  : list A :=
  match l with
  | [] => [x]
  | y :: l' => if leb x y then x :: y :: l' else y :: insert_sorted leb x l'
  end.

Fixpoint sorted {A : Type} (leb : A -> A -> bool) (l : list A) : list A :=
  match l with
  | [] => []
  | x :: l' => insert_sorted leb x (sorted leb l')
  end.

(** Order of the value column under [sort_values]: numbers by their order
    (reversed when [ascending] is false), NaN after every number whatever
    the direction ([na_position='last']). *)
Definition value_cmp (ascending : bool) (a b : number) : comparison :=
  match a, b with
  | Num x, Num y => if ascending then (x ?= y)%Q else (y ?= x)%Q
  | Num _, NaN => Lt
  | NaN, Num _ => Gt
  | NaN, NaN => Eq
  end.

(** Key order of [sort_values(by=[value_col, category_col],
    ascending=[ascending, True])]. *)
Definition row_leb {P : Type} (ascending : bool) (r1 r2 : Row P) : bool :=
  match value_cmp ascending (value r1) (value r2) with
  | Lt => true
  | Gt => false
  | Eq => String.leb (category r1) (category r2)
  end.

(** Key order of [sort_values(by=value_col, ascending=True)]. *)
Definition value_leb {P : Type} (r1 r2 : Row P) : bool :=
  match value_cmp true (value r1) (value r2) with
  | Gt => false
  | _ => true
  end.

(** [df[df[x_col] == period]] *)
Definition rows_of {P : Type} `{EqDecision P} (p : P) (rows : list (Row P))
  : list (Row P) :=
  List.filter (fun r => bool_decide (period r = p)) rows.

(** [for i in range(len(periods) - 1): p1, p2 = periods[i], periods[i+1]] *)
Definition adjacent {P : Type} (periods : list P) : list (nat * (P * P)) :=
  combine (seq 0 (length periods - 1)) (combine periods (tl periods)).

(** ** Traces *)

(** [N] is the type of the vertical coordinates, [X] of a bar's position.
    A [Scatter] trace is recorded by the arguments of the
    [get_sigmoid_curve] calls that produce its arrays: the span [x1], [x2]
    and the four ordinates. *)
Inductive trace (X N : Type) : Type :=
| Bar (x : X) (y : N) (base : N) (name : string) (marker_color : string)
    (width : Q) (showlegend : bool)
| Scatter (x1 x2 : Q) (y1_t y2_t y1_b y2_b : N) (fillcolor : string)
    (legendgroup : string).
Arguments Bar {X N} _ _ _ _ _ _ _.
Arguments Scatter {X N} _ _ _ _ _ _ _ _.

(** [enumerate(l)] *)
Definition enumerate {A : Type} (l : list A) : list (nat * A) :=
  combine (seq 0 (length l)) l.

(** [{cat: palette[i % len(palette)] for i, cat in enumerate(categories)}] *)
Definition cycle_palette (palette : list string) (categories : list string)
  : result (gmap string string) :=
  for_each
    (fun (m : gmap string string) '(i, cat) =>
       match length palette with
       | O => Raise ZeroDivisionError
       | S _ => Ok (<[cat := nth (i mod length palette) palette ""]> m)
       end)
    (enumerate categories) ∅.

(** ** The curve sampler (the same function in the three files) *)

(** [np.linspace(0, 1, n)]: n points from 0 to 1, step 1/(n-1). *)
Definition linspace01 (n : nat) : list R :=
  map (fun k => (INR k / INR (n - 1))%R) (seq 0 n).

(** The logistic ramp [1 / (1 + np.exp(-10 * (x - 0.5)))]. *)
Definition sigmoid (x : R) : R := (1 / (1 + exp (-10 * (x - 1 / 2))))%R.

Definition get_sigmoid_curve (x1 y1 x2 y2 : R) (n_points : nat)
  : list R * list R :=
  let x := linspace01 n_points in
  let y := map sigmoid x in
  let curve_x := map (fun t => (x1 + t * (x2 - x1))%R) x in
  let curve_y := map (fun s => (y1 + s * (y2 - y1))%R) y in
  (curve_x, curve_y).

(** Default of [n_points]; no caller passes another value. *)
Definition n_points_default : nat := 30.

(** The arrays of a ribbon's [go.Scatter]:
    [x = np.concatenate([cx, cx[::-1]])] and
    [y = np.concatenate([cy_t, cy_b[::-1]])]. *)
Definition scatter_x (x1 x2 : R) : list R :=
  let cx := (get_sigmoid_curve x1 0 x2 1 n_points_default).1 in
  cx ++ rev cx.

Definition scatter_y (x1 x2 y1_t y2_t y1_b y2_b : R) : list R :=
  let cy_t := (get_sigmoid_curve x1 y1_t x2 y2_t n_points_default).2 in
  let cy_b := (get_sigmoid_curve x1 y1_b x2 y2_b n_points_default).2 in
  cy_t ++ rev cy_b.

(** The sampled boundary curves of a ribbon, as points. *)
Definition top_curve (x1 x2 y1_t y2_t : R) : list (R * R) :=
  combine (get_sigmoid_curve x1 0 x2 1 n_points_default).1
          (get_sigmoid_curve x1 y1_t x2 y2_t n_points_default).2.

Definition bottom_curve (x1 x2 y1_b y2_b : R) : list (R * R) :=
  combine (get_sigmoid_curve x1 0 x2 1 n_points_default).1
          (get_sigmoid_curve x1 y1_b x2 y2_b n_points_default).2.

(** The polygon a ribbon trace of the engine draws. *)
Definition polygon {X : Type} (t : trace X Q) : list (R * R) :=
  match t with
  | Scatter x1 x2 y1_t y2_t y1_b y2_b _ _ =>
      combine (scatter_x (Q2R x1) (Q2R x2))
              (scatter_y (Q2R x1) (Q2R x2) (Q2R y1_t) (Q2R y2_t)
                 (Q2R y1_b) (Q2R y2_b))
  | Bar _ _ _ _ _ _ _ => []
  end.

(** ** What a figure shows *)

(** The rectangles drawn at period [p], in the order they were added:
    category, height and lower edge. *)
Definition bars_at {X N : Type} `{EqDecision X} (p : X) (fig : list (trace X N))
  : list (string * N * N) :=
  flat_map
    (fun t =>
       match t with
       | Bar x y base name _ _ _ =>
           if decide (x = p) then [(name, y, base)] else []
       | Scatter _ _ _ _ _ _ _ _ => []
       end)
    fig.

(** A ribbon of category [cat] that starts at abscissa [x1]. *)
Definition ribbon_at {X N : Type} (x1 : Q) (cat : string) (fig : list (trace X N))
  : Prop :=
  exists x2 y1_t y2_t y1_b y2_b color,
    In (Scatter x1 x2 y1_t y2_t y1_b y2_b color cat) fig.

(** The pure stacking of heights from offset [y]: category, height, lower
    edge. *)
Fixpoint stack (gap : Q) (y : Q) (l : list (string * Q)) : list (string * Q * Q) :=
  match l with
  | [] => []
  | (c, v) :: l' => (c, v, y) :: stack gap (y + (v + gap))%Q l'
  end.

(** The rows that are laid out, with their heights: value neither NaN nor
    [<= 0]. *)
Fixpoint positives {P : Type} (l : list (Row P)) : list (string * Q) :=
  match l with
  | [] => []
  | r :: l' =>
      match value r with
      | Num v => if Qle_bool v 0 then positives l' else (category r, v) :: positives l'
      | NaN => positives l'
      end
  end.

(** ** ribbon_engine.py *)

Module ribbon_engine.

Record DataFrame : Type := mkDataFrame {
  columns : list string;        (* [df.columns] *)
  rows : list (Row string)      (* per row: the cells under x_col, category_col, value_col *)
}.

(** The [colors] argument: a dict, a list, or [None]. *)
Inductive colors_arg : Type :=
| ColorDict (d : gmap string string)
| ColorList (l : list string)
| ColorNone.

(** [plotly.express.colors.qualitative.G10] *)
Definition G10 : list string :=
  ["#3366CC"; "#DC3912"; "#FF9900"; "#109618"; "#990099";
   "#0099C6"; "#DD4477"; "#66AA00"; "#B82E2E"; "#316395"].

Abbreviation coords_map := (gmap string (gmap string (Q * Q))).
Abbreviation figure := (list (trace string Q)).

(** Step 1: every required column must be in [df.columns]; the first one
    that is not raises. *)
Definition validate (df : DataFrame) (required_cols : list string) : result unit :=
  for_each
    (fun (_ : unit) col =>
       if bool_decide (col ∈ columns df) then Ok tt
       else Raise (ValueError ("Missing required column: " +:+ col)))
    required_cols tt.

(** Step 2: colour setup. *)
Definition color_setup (colors : colors_arg) (categories : list string)
  : result (gmap string string) :=
  match colors with
  | ColorDict d => Ok d
  | ColorList l => cycle_palette l categories
  | ColorNone => cycle_palette G10 categories
  end.

Section Build.
Variable gap bar_width : Q.
Variable color_map : gmap string string.
Variable sort_ascending show_legend : bool.

(** State of the inner loop of step 3: [current_y], [coords[period]] and
    the figure. *)
Definition bar_state : Type := Q * gmap string (Q * Q) * figure.

(** Body of [for _, row in period_df.iterrows()]. *)
Definition add_bar (p_idx : nat) (period : string) (st : bar_state)
  (row : Row string) : result bar_state :=
  let '(current_y, here, fig) := st in
  let cat := category row in
  match value row with
  | NaN => Ok st
  | Num val =>
      if Qle_bool val 0 then Ok st
      else
        let y_start := current_y in
        let y_end := (current_y + val)%Q in
        let here := <[cat := (y_start, y_end)]> here in
        match color_map !! cat with
        | None => Raise (KeyError cat)
        | Some color =>
            Ok ((current_y + (val + gap))%Q, here,
                fig ++ [Bar period val y_start cat color bar_width
                          (Nat.eqb p_idx 0 && show_legend)])
        end
  end.

(** Body of [for p_idx, period in enumerate(periods)] in step 3. *)
Definition period_bars (rows : list (Row string)) (st : coords_map * figure)
  (ip : nat * string) : result (coords_map * figure) :=
  let '(coords, fig) := st in
  let '(p_idx, period) := ip in
  let period_df := sorted (row_leb sort_ascending) (rows_of period rows) in
  do st <- for_each (add_bar p_idx period) period_df (0%Q, ∅, fig);
  Ok (<[period := st.1.2]> coords, st.2).

(** Step 3: the bars, period by period. *)
Definition bar_generation (rows : list (Row string)) (periods : list string)
  : result (coords_map * figure) :=
  for_each (period_bars rows) (enumerate periods) (∅, []).

(** [coords[p]] *)
Definition coords_at (coords : coords_map) (p : string)
  : result (gmap string (Q * Q)) :=
  match coords !! p with
  | Some here => Ok here
  | None => Raise (KeyError p)
  end.

(** Body of [for cat in categories] in step 4. *)
Definition add_ribbon (coords : coords_map) (i : nat) (p1 p2 : string)
  (fig : figure) (cat : string) : result figure :=
  do c1 <- coords_at coords p1;
  match c1 !! cat with
  | None => Ok fig
  | Some (y1_b, y1_t) =>
      do c2 <- coords_at coords p2;
      match c2 !! cat with
      | None => Ok fig
      | Some (y2_b, y2_t) =>
          let x1 := (inject_Z (Z.of_nat i) + bar_width / 2)%Q in
          let x2 := (inject_Z (Z.of_nat (i + 1)) - bar_width / 2)%Q in
          match color_map !! cat with
          | None => Raise (KeyError cat)
          | Some color =>
              Ok (fig ++ [Scatter x1 x2 y1_t y2_t y1_b y2_b color cat])
          end
      end
  end.

(** Step 4: the ribbons, between adjacent periods. *)
Definition ribbon_generation (coords : coords_map) (periods categories : list string)
  (fig : figure) : result figure :=
  for_each
    (fun fig '(i, (p1, p2)) => for_each (add_ribbon coords i p1 p2) categories fig)
    (adjacent periods) fig.

End Build.

(** [create_ribbon_chart], returning the local [coords] next to the figure. *)
Definition build (df : DataFrame) (x_col category_col value_col : string)
  (gap bar_width : Q) (colors : colors_arg) (sort_ascending show_legend : bool)
  : result (coords_map * figure) :=
  do _ <- validate df [x_col; category_col; value_col];
  let periods := sorted String.leb (unique (map period (rows df))) in
  let categories := sorted String.leb (unique (map category (rows df))) in
  do color_map <- color_setup colors categories;
  do '(coords, fig) <-
    bar_generation gap bar_width color_map sort_ascending show_legend
      (rows df) periods;
  do fig <- ribbon_generation bar_width color_map coords periods categories fig;
  Ok (coords, fig).

Definition create_ribbon_chart (df : DataFrame)
  (x_col category_col value_col : string)
  (gap bar_width : Q) (colors : colors_arg) (sort_ascending show_legend : bool)
  : result figure :=
  do r <- build df x_col category_col value_col gap bar_width colors
            sort_ascending show_legend;
  Ok r.2.

End ribbon_engine.

(** ** employee_hours_chart.py *)

Module employee_hours_chart.

(** [plotly.express.colors.qualitative.Prism] *)
Definition Prism : list string :=
  ["rgb(95, 70, 144)"; "rgb(29, 105, 150)"; "rgb(56, 166, 165)";
   "rgb(15, 133, 84)"; "rgb(115, 175, 72)"; "rgb(237, 173, 8)";
   "rgb(225, 124, 5)"; "rgb(204, 80, 62)"; "rgb(148, 52, 110)";
   "rgb(111, 64, 112)"; "rgb(102, 102, 102)"].

Abbreviation coords_map := (gmap string (gmap string (number * number))).
Abbreviation figure := (list (trace string number)).

Definition bar_width : Q := 2 # 5.

Section Build.
Variable gap : Q.
Variable colors : gmap string string.

Definition bar_state : Type := number * gmap string (number * number) * figure.

(** Body of [for _, row in period_df.iterrows()]: every row is stacked. *)
Definition add_bar (period_idx : nat) (period : string) (st : bar_state)
  (row : Row string) : result bar_state :=
  let '(current_y, here, fig) := st in
  let cat := category row in
  let val := value row in
  let y_start := current_y in
  let y_end := nadd current_y val in
  let here := <[cat := (y_start, y_end)]> here in
  match colors !! cat with
  | None => Raise (KeyError cat)
  | Some color =>
      Ok (nadd current_y (nadd val (Num gap)), here,
          fig ++ [Bar period val y_start cat color bar_width
                    (Nat.eqb period_idx 0)])
  end.

(** Body of [for period_idx, period in enumerate(periods)].  The rows of a
    period are sorted on the value column alone.  The default sort kind of
    [sort_values] does not promise an order for rows with equal values;
    [sorted] keeps them in the order of the frame, which is one of the
    orders the call can give.  The statements about this builder that
    speak of the order of its traces are given up to the order of rows
    with equal values. *)
Definition period_bars (rows : list (Row string)) (st : coords_map * figure)
  (ip : nat * string) : result (coords_map * figure) :=
  let '(coords, fig) := st in
  let '(period_idx, period) := ip in
  let period_df := sorted value_leb (rows_of period rows) in
  do st <- for_each (add_bar period_idx period) period_df (Num 0, ∅, fig);
  Ok (<[period := st.1.2]> coords, st.2).

Definition bar_generation (rows : list (Row string)) (periods : list string)
  : result (coords_map * figure) :=
  for_each (period_bars rows) (enumerate periods) (∅, []).

Definition coords_at (coords : coords_map) (p : string)
  : result (gmap string (number * number)) :=
  match coords !! p with
  | Some here => Ok here
  | None => Raise (KeyError p)
  end.

Definition add_ribbon (coords : coords_map) (i : nat) (p1 p2 : string)
  (fig : figure) (cat : string) : result figure :=
  do c1 <- coords_at coords p1;
  match c1 !! cat with
  | None => Ok fig
  | Some (y1_b, y1_t) =>
      do c2 <- coords_at coords p2;
      match c2 !! cat with
      | None => Ok fig
      | Some (y2_b, y2_t) =>
          let x1 := (inject_Z (Z.of_nat i) + bar_width / 2)%Q in
          let x2 := (inject_Z (Z.of_nat (i + 1)) - bar_width / 2)%Q in
          match colors !! cat with
          | None => Raise (KeyError cat)
          | Some color =>
              Ok (fig ++ [Scatter x1 x2 y1_t y2_t y1_b y2_b color cat])
          end
      end
  end.

Definition ribbon_generation (coords : coords_map) (periods categories : list string)
  (fig : figure) : result figure :=
  for_each
    (fun fig '(i, (p1, p2)) => for_each (add_ribbon coords i p1 p2) categories fig)
    (adjacent periods) fig.

End Build.

(** [create_ribbon_chart(df, gap=gap)], returning the local [coords] next
    to the figure. *)
Definition build (df : list (Row string)) (gap : Q)
  : result (coords_map * figure) :=
  let periods := unique (map period df) in
  let categories := unique (map category df) in
  do colors <- cycle_palette Prism categories;
  do '(coords, fig) <- bar_generation gap colors df periods;
  do fig <- ribbon_generation colors coords periods categories fig;
  Ok (coords, fig).

Definition create_ribbon_chart (df : list (Row string)) (gap : Q)
  : result figure :=
  do r <- build df gap; Ok r.2.

End employee_hours_chart.

(** ** ribbon_chart.py *)

Module ribbon_chart.

(** [plotly.express.colors.qualitative.D3] *)
Definition D3 : list string :=
  ["#1F77B4"; "#FF7F0E"; "#2CA02C"; "#D62728"; "#9467BD";
   "#8C564B"; "#E377C2"; "#7F7F7F"; "#BCBD22"; "#17BECF"].

Abbreviation coords_map := (gmap Z (gmap string (number * number))).
Abbreviation figure := (list (trace Z number)).

Definition bar_width : Q := 35 # 100.

(** The row of the normalised frame for the pair ([p], [c]): the value the
    frame has for the pair, or [fill_value=0]. *)
Definition reindex_row (df : list (Row Z)) (p : Z) (c : string) : Row Z :=
  match List.find
          (fun r => bool_decide (period r = p) && bool_decide (category r = c)) df with
  | Some r => mkRow p c (value r)
  | None => mkRow p c (Num 0)
  end.

(** [df.set_index([x_col, category_col]).reindex(full_index, fill_value=0)]:
    one row per (period, category) of the product, in product order.
    Reindexing a frame with a repeated (period, category) raises. *)
Definition reindex (df : list (Row Z)) (periods : list Z) (categories : list string)
  : result (list (Row Z)) :=
  if bool_decide (NoDup (map (fun r => (period r, category r)) df)) then
    Ok (flat_map (fun p => map (reindex_row df p) categories) periods)
  else Raise (ValueError "cannot handle a non-unique multi-index!").

Section Build.
Variable gap : Q.
Variable colors : gmap string string.

(** [current_y], [coords[period]], the figure, [seen_categories] and
    [traces_added]. *)
Record bar_state : Type := mkState {
  current_y : number;
  here : gmap string (number * number);
  fig : figure;
  seen_categories : gset string;
  traces_added : nat
}.

(** Body of [for _, row in period_df.iterrows()]: every row gets its
    coordinates, a row with a positive value also a bar and a gap. *)
Definition add_bar (period : Z) (st : bar_state) (row : Row Z) : result bar_state :=
  let cat := category row in
  let val := value row in
  let y_start := current_y st in
  let y_end := nadd (current_y st) val in
  let here' := <[cat := (y_start, y_end)]> (here st) in
  if gt0 val then
    let is_first := negb (bool_decide (cat ∈ seen_categories st)) in
    match colors !! cat with
    | None => Raise (KeyError cat)
    | Some color =>
        Ok (mkState (nadd (current_y st) (nadd val (Num gap))) here'
              (fig st ++ [Bar period val y_start cat color bar_width is_first])
              (if is_first then {[cat]} ∪ seen_categories st
               else seen_categories st)
              (traces_added st + 1))
    end
  else
    Ok (mkState (nadd (current_y st) (Num 0)) here' (fig st)
          (seen_categories st) (traces_added st)).

(** Body of [for period in periods]. *)
Definition period_bars (df_norm : list (Row Z)) (st : coords_map * bar_state)
  (period : Z) : result (coords_map * bar_state) :=
  let '(coords, st) := st in
  let period_df := sorted (row_leb true) (rows_of period df_norm) in
  do st' <- for_each (add_bar period) period_df
              (mkState (Num 0) ∅ (fig st) (seen_categories st) (traces_added st));
  Ok (<[period := here st']> coords, st').

Definition bar_generation (df_norm : list (Row Z)) (periods : list Z)
  (fig0 : figure) : result (coords_map * bar_state) :=
  for_each (period_bars df_norm) periods (∅, mkState (Num 0) ∅ fig0 ∅ 0).

Definition coords_at (coords : coords_map) (p : Z)
  : result (gmap string (number * number)) :=
  match coords !! p with
  | Some here => Ok here
  | None => Raise (KeyError (pretty p))
  end.

(** [coords[p][cat]] *)
Definition coords_at_cat (coords : coords_map) (p : Z) (cat : string)
  : result (number * number) :=
  do c <- coords_at coords p;
  match c !! cat with
  | Some e => Ok e
  | None => Raise (KeyError cat)
  end.

Definition add_ribbon (coords : coords_map) (p1 p2 : Z)
  (st : figure * nat) (cat : string) : result (figure * nat) :=
  do '(y1_b, y1_t) <- coords_at_cat coords p1 cat;
  do '(y2_b, y2_t) <- coords_at_cat coords p2 cat;
  if is0 (nsub y1_t y1_b) && is0 (nsub y2_t y2_b) then Ok st
  else
    let x1 := (inject_Z p1 + bar_width / 2)%Q in
    let x2 := (inject_Z p2 - bar_width / 2)%Q in
    match colors !! cat with
    | None => Raise (KeyError cat)
    | Some color =>
        Ok (st.1 ++ [Scatter x1 x2 y1_t y2_t y1_b y2_b color cat], st.2 + 1)
    end.

Definition ribbon_generation (coords : coords_map) (periods : list Z)
  (categories : list string) (st : figure * nat) : result (figure * nat) :=
  for_each
    (fun st '(_, (p1, p2)) => for_each (add_ribbon coords p1 p2) categories st)
    (adjacent periods) st.

End Build.

(** [add_ribbon_scenario(fig, df, ..., gap=gap)]: the local [coords], the
    figure after the call and the returned [traces_added]. *)
Definition build (fig0 : figure) (df : list (Row Z)) (gap : Q)
  : result (coords_map * figure * nat) :=
  let periods := sorted Z.leb (unique (map period df)) in
  let categories := sorted String.leb (unique (map category df)) in
  do df_norm <- reindex df periods categories;
  do colors <- cycle_palette D3 categories;
  do '(coords, st) <- bar_generation gap colors df_norm periods fig0;
  do r <- ribbon_generation colors coords periods categories
            (fig st, traces_added st);
  Ok (coords, r.1, r.2).

Definition add_ribbon_scenario (fig0 : figure) (df : list (Row Z)) (gap : Q)
  : result (figure * nat) :=
  do r <- build fig0 df gap; Ok (r.1.2, r.2).

End ribbon_chart.

(** The coordinate entries written for a run of stacked rectangles: a
    later rectangle of a category replaces an earlier one. *)
Definition segments_map {N : Type} (add : N -> N -> N) (segs : list (string * N * N))
  (m : gmap string (N * N)) : gmap string (N * N) :=
  fold_left (fun m '(c, v, ys) => <[c := (ys, add ys v)]> m) segs m.

Definition is_bar {X N : Type} (t : trace X N) : Prop :=
  match t with Bar _ _ _ _ _ _ _ => True | Scatter _ _ _ _ _ _ _ _ => False end.

(** The key order of [row_leb] on (category, height) pairs. *)
Definition key_leb (ascending : bool) (a b : string * Q) : bool :=
  match (if ascending then a.2 ?= b.2 else b.2 ?= a.2)%Q with
  | Lt => true
  | Gt => false
  | Eq => String.leb a.1 b.1
  end.

(** The rectangles the engine stacks at period [p]. *)
Definition engine_segments (gap : Q) (ascending : bool) (rows : list (Row string))
  (p : string) : list (string * Q * Q) :=
  stack gap 0 (positives (sorted (row_leb ascending) (rows_of p rows))).

(** The ribbon the engine adds for [cat] between the periods at positions
    [i] and [i + 1], if any. *)
Definition engine_ribbon (bar_width : Q) (color_map : gmap string string)
  (coords : gmap string (gmap string (Q * Q))) (i : nat) (p1 p2 cat : string)
  : list (trace string Q) :=
  match coords !! p1 ≫= (.!! cat), coords !! p2 ≫= (.!! cat), color_map !! cat with
  | Some (y1_b, y1_t), Some (y2_b, y2_t), Some color =>
      [Scatter (inject_Z (Z.of_nat i) + bar_width / 2)%Q
         (inject_Z (Z.of_nat (i + 1)) - bar_width / 2)%Q
         y1_t y2_t y1_b y2_b color cat]
  | _, _, _ => []
  end.

(** Inputs on which the engine draws a chart: the three columns are in
    the frame and the colours cover the categories. *)
Definition engine_ready (df : ribbon_engine.DataFrame)
  (x_col category_col value_col : string) (colors : ribbon_engine.colors_arg) : Prop :=
  In x_col (ribbon_engine.columns df) /\
  In category_col (ribbon_engine.columns df) /\
  In value_col (ribbon_engine.columns df) /\
  match colors with
  | ribbon_engine.ColorDict d =>
      forall r, In r (ribbon_engine.rows df) -> is_Some (d !! category r)
  | ribbon_engine.ColorList l => l <> []
  | ribbon_engine.ColorNone => True
  end.

(** [sorted(df[x_col].unique())] and [sorted(df[category_col].unique())] *)
Definition engine_periods (df : ribbon_engine.DataFrame) : list string :=
  sorted String.leb (unique (map period (ribbon_engine.rows df))).

Definition engine_categories (df : ribbon_engine.DataFrame) : list string :=
  sorted String.leb (unique (map category (ribbon_engine.rows df))).

(** Stacking of all rows, NaN included, in float arithmetic. *)
Fixpoint nstack (gap : Q) (y : number) (l : list (string * number))
  : list (string * number * number) :=
  match l with
  | [] => []
  | (c, v) :: l' => (c, v, y) :: nstack gap (nadd y (nadd v (Num gap))) l'
  end.

Definition row_key {P : Type} (r : Row P) : string * number :=
  (category r, value r).

(** The rectangles [employee_hours_chart] stacks at period [p]. *)
Definition hours_segments (gap : Q) (rows : list (Row string)) (p : string)
  : list (string * number * number) :=
  nstack gap (Num 0) (map row_key (sorted value_leb (rows_of p rows))).

(** [df[x_col].unique()] and [df[category_col].unique()] *)
Definition hours_periods (df : list (Row string)) : list string :=
  unique (map period df).

Definition hours_categories (df : list (Row string)) : list string :=
  unique (map category df).

Definition hours_ribbon (colors : gmap string string)
  (coords : gmap string (gmap string (number * number))) (i : nat)
  (p1 p2 cat : string) : list (trace string number) :=
  match coords !! p1 ≫= (.!! cat), coords !! p2 ≫= (.!! cat), colors !! cat with
  | Some (y1_b, y1_t), Some (y2_b, y2_t), Some color =>
      [Scatter (inject_Z (Z.of_nat i) + employee_hours_chart.bar_width / 2)%Q
         (inject_Z (Z.of_nat (i + 1)) - employee_hours_chart.bar_width / 2)%Q
         y1_t y2_t y1_b y2_b color cat]
  | _, _, _ => []
  end.

(** The coordinate entries [ribbon_chart] writes for the rows of a period:
    category, value and lower edge.  Only a positive value moves the
    running offset. *)
Fixpoint gallery_entries (gap : Q) (y : number) (l : list (Row Z))
  : list (string * number * number) :=
  match l with
  | [] => []
  | r :: l' =>
      (category r, value r, y)
      :: gallery_entries gap
           (nadd y (if gt0 (value r) then nadd (value r) (Num gap) else Num 0)) l'
  end.

Definition gallery_periods (df : list (Row Z)) : list Z :=
  sorted Z.leb (unique (map period df)).

Definition gallery_categories (df : list (Row Z)) : list string :=
  sorted String.leb (unique (map category df)).

(** The entries of period [p] in a normalised frame. *)
Definition gallery_segments (gap : Q) (df_norm : list (Row Z)) (p : Z)
  : list (string * number * number) :=
  gallery_entries gap (Num 0) (sorted (row_leb true) (rows_of p df_norm)).

Definition gallery_ribbon (colors : gmap string string)
  (coords : gmap Z (gmap string (number * number))) (p1 p2 : Z) (cat : string)
  : list (trace Z number) :=
  match coords !! p1 ≫= (.!! cat), coords !! p2 ≫= (.!! cat), colors !! cat with
  | Some (y1_b, y1_t), Some (y2_b, y2_t), Some color =>
      if is0 (nsub y1_t y1_b) && is0 (nsub y2_t y2_b) then []
      else
        [Scatter (inject_Z p1 + ribbon_chart.bar_width / 2)%Q
           (inject_Z p2 - ribbon_chart.bar_width / 2)%Q
           y1_t y2_t y1_b y2_b color cat]
  | _, _, _ => []
  end.

(** A rectangle with rational height and lower edge, as floats. *)
Definition lift (s : string * Q * Q) : string * number * number :=
  (s.1.1, Num s.1.2, Num s.2).

(** Same category and height, equal lower edges. *)
Definition seg_eq (a b : string * Q * Q) : Prop :=
  a.1 = b.1 /\ (a.2 == b.2)%Q.

(** The stacking recurrence of a run of rectangles, in the sums the
    program makes: the first rectangle starts at 0, and each next one
    starts at [y_start + (height + gap)] of the one before it. *)
Definition gap_recurrence (gap : Q) (segs : list (string * Q * Q)) : Prop :=
  (forall a, head segs = Some a -> (a.2 == 0)%Q) /\
  (forall i a b, segs !! i = Some a -> segs !! S i = Some b ->
                 (b.2 == a.2 + (a.1.2 + gap))%Q).

(** The required columns a frame lacks, in the order they are checked. *)
Definition missing_columns (df : ribbon_engine.DataFrame) (required_cols : list string)
  : list string :=
  List.filter (fun col => negb (bool_decide (col ∈ ribbon_engine.columns df)))
    required_cols.

(** The point sampled at index [k] of [n]: the abscissa is linear in
    [t = k/(n-1)], the ordinate follows the logistic ramp. *)
Definition curve_point (x1 y1 x2 y2 : R) (n k : nat) : R * R :=
  ((x1 + INR k / INR (n - 1) * (x2 - x1))%R,
   (y1 + sigmoid (INR k / INR (n - 1)) * (y2 - y1))%R).

(** Reordering the rows of a frame by an index array. *)
Definition take_rows {P : Type} (d : Row P) (l : list (Row P)) (idx : list nat)
  : list (Row P) :=
  map (fun i => nth i l d) idx.

(** Whether the [colors] argument of the engine has a colour for every
    rectangle that is drawn: a dict must hold the category of every row
    with a positive value; a list must not be empty, unless the frame has
    no row at all. *)
Definition engine_colors_serve (colors : ribbon_engine.colors_arg)
  (rows : list (Row string)) : Prop :=
  match colors with
  | ribbon_engine.ColorDict d =>
      forall r, In r rows -> gt0 (value r) = true -> is_Some (d !! category r)
  | ribbon_engine.ColorList l => l <> [] \/ rows = []
  | ribbon_engine.ColorNone => True
  end.

(** ** What a trace shows *)

(** The category of a trace: [name] and [legendgroup] of a bar,
    [legendgroup] of a ribbon. *)
Definition trace_category {X N : Type} (t : trace X N) : string :=
  match t with
  | Bar _ _ _ name _ _ _ => name
  | Scatter _ _ _ _ _ _ _ legendgroup => legendgroup
  end.

(** The colour of a trace: [marker_color] of a bar, [fillcolor] of a
    ribbon. *)
Definition trace_color {X N : Type} (t : trace X N) : string :=
  match t with
  | Bar _ _ _ _ marker_color _ _ => marker_color
  | Scatter _ _ _ _ _ _ fillcolor _ => fillcolor
  end.

(** The entries of the legend, in the order of the figure: the names of
    the bars with [showlegend=True] (every ribbon has
    [showlegend=False]). *)
Definition legend_entries {X N : Type} (fig : list (trace X N)) : list string :=
  flat_map
    (fun t =>
       match t with
       | Bar _ _ _ name _ _ showlegend => if showlegend then [name] else []
       | Scatter _ _ _ _ _ _ _ _ => []
       end)
    fig.

(** Every trace of the figure has the colour the map gives its category. *)
Definition colored_by {X N : Type} (color_map : gmap string string)
  (fig : list (trace X N)) : Prop :=
  forall t, In t fig -> color_map !! trace_category t = Some (trace_color t).

(** The colour the engine gives the category at position [i] of the sorted
    categories when [colors] is a list or [None]. *)
Definition engine_palette (colors : ribbon_engine.colors_arg) : list string :=
  match colors with
  | ribbon_engine.ColorDict _ => []
  | ribbon_engine.ColorList l => l
  | ribbon_engine.ColorNone => ribbon_engine.G10
  end.

(** The legend of the traces [ext] that a scenario has appended so far,
    against the set [seen] of [seen_categories]: no category is listed
    twice, the listed categories are the seen ones, and every bar's
    category is listed. *)
Definition legend_once {X N : Type} (seen : gset string) (ext : list (trace X N))
  : Prop :=
  List.NoDup (legend_entries ext) /\
  (forall c, c ∈ seen <-> In c (legend_entries ext)) /\
  (forall t, In t ext -> is_bar t -> In (trace_category t) (legend_entries ext)).

(** ** [ribbon_chart.create_interactive_gallery] *)

(** The first loop: every scenario is added to the same figure with the
    default gap, and the count that each call returns is appended to
    [trace_counts].  The frames of the scenarios are an argument here. *)
Definition add_scenarios (dfs : list (list (Row Z)))
  : result (ribbon_chart.figure * list nat) :=
  for_each
    (fun (st : ribbon_chart.figure * list nat) df =>
       do r <- ribbon_chart.add_ribbon_scenario st.1 df 2;
       Ok (r.1, st.2 ++ [r.2]))
    dfs ([], []).

(** [for j in range(start_idx, start_idx + count): visibility[j] = True];
    an index past the end of the list is an [IndexError], here [None]. *)
Fixpoint set_visible (visibility : list bool) (js : list nat) : option (list bool) :=
  match js with
  | [] => Some visibility
  | j :: js' =>
      if (j <? length visibility)%nat then set_visible (<[j := true]> visibility) js'
      else None
  end.

(** The second loop: the [visible] list of each button, for a figure of
    [n_traces] traces.  [trace_counts] has one entry per scenario, so the
    loop over the scenarios is a loop over its entries. *)
Fixpoint buttons (n_traces start_idx : nat) (trace_counts : list nat)
  : option (list (list bool)) :=
  match trace_counts with
  | [] => Some []
  | count :: rest =>
      match set_visible (replicate n_traces false) (seq start_idx count) with
      | None => None
      | Some visibility =>
          match buttons n_traces (start_idx + count) rest with
          | None => None
          | Some bs => Some (visibility :: bs)
          end
      end
  end.

(** ** employee_app.py *)

Module employee_app.

(** [Series.head(n)]: the first [n] entries, and for a negative [n] all
    but the last [-n]. *)
Definition head {A : Type} (n : Z) (l : list A) : list A :=
  if (0 <=? n)%Z then take (Z.to_nat n) l
  else take (length l - Z.to_nat (- n)) l.

(** What a cell adds to a sum: a missing value is skipped. *)
Definition hours (v : number) : Q :=
  match v with Num q => q | NaN => 0%Q end.

(** [df.groupby("Employee")["Hours"].sum()]: the total of each employee,
    in the order of the keys. *)
Definition total (rows : list (Row string)) (emp : string) : Q :=
  fold_right (fun r acc => (hours (value r) + acc)%Q) 0%Q
    (List.filter (fun r => bool_decide (category r = emp)) rows).

Definition groupby_sum (rows : list (Row string)) : list (string * Q) :=
  map (fun emp => (emp, total rows emp))
    (sorted String.leb (unique (map category rows))).

Section Main.

(** [Series.sort_values(ascending=False)].  The default sort is not
    stable: the order it leaves equal totals in is not fixed, so the sort
    is a parameter. *)
Variable sort_values : list (string * Q) -> list (string * Q).

(** [...sum().sort_values(ascending=False).head(args.top).index] *)
Definition top_emps (rows : list (Row string)) (top : Z) : list string :=
  map fst (head top (sort_values (groupby_sum rows))).

(** Step 2 of [main]: [if args.top: df = df[df["Employee"].isin(top_emps)]];
    [None] and [0] are false. *)
Definition top_filter (rows : list (Row string)) (top : option Z)
  : list (Row string) :=
  match top with
  | None => rows
  | Some n =>
      if (n =? 0)%Z then rows
      else List.filter (fun r => bool_decide (category r ∈ top_emps rows n)) rows
  end.

(** Step 3: [dropna] removes the rows without a value; on a numeric
    column [to_numeric(...).fillna(0)] then changes nothing. *)
Definition clean (rows : list (Row string)) : list (Row string) :=
  List.filter (fun r => negb (isna (value r))) rows.

(** Steps 2 to 5 of [main], for a frame that [get_employee_data] has
    returned: the figure handed to [write_html], or the exception of the
    chart call. *)
Definition main (df : ribbon_engine.DataFrame) (top : option Z) (gap : Q)
  : result ribbon_engine.figure :=
  ribbon_engine.create_ribbon_chart
    (ribbon_engine.mkDataFrame (ribbon_engine.columns df)
       (clean (top_filter (ribbon_engine.rows df) top)))
    "Week" "Employee" "Hours" gap (2 # 5)
    (ribbon_engine.ColorList employee_hours_chart.Prism) true true.

End Main.

End employee_app.

(** * Properties *)

(** ** Loops *)

Lemma for_each_cons_ok {S A : Type} (body : S -> A -> result S) a l s r :
  for_each body (a :: l) s = Ok r ->
  exists s', body s a = Ok s' /\ for_each body l s' = Ok r.
Proof.
  simpl. destruct (body s a) as [s'|e]; simpl; [eauto | discriminate].
Qed.

Lemma for_each_total {S A : Type} (body : S -> A -> result S) (I : S -> Prop) l :
  (forall s a, I s -> In a l -> exists s', body s a = Ok s' /\ I s') ->
  forall s, I s -> exists s', for_each body l s = Ok s' /\ I s'.
Proof.
  induction l as [|a l IH]; intros Hbody s Hs; simpl.
  - eauto.
  - destruct (Hbody s a Hs) as (s' & -> & Hs'); [now left|]. simpl.
    apply IH; [|assumption]. intros. apply Hbody; [assumption | now right].
Qed.

(** A loop that only appends to the figure appends the traces of each
    iteration in turn. *)
Lemma for_each_emits {S A T : Type} (body : S -> A -> result S)
  (out : S -> list T) (emit : A -> list T) l :
  (forall s a s', In a l -> body s a = Ok s' -> out s' = out s ++ emit a) ->
  forall s s', for_each body l s = Ok s' -> out s' = out s ++ flat_map emit l.
Proof.
  induction l as [|a l IH]; intros Hbody s s' Hrun.
  - simpl in Hrun. injection Hrun as <-. simpl. now rewrite app_nil_r.
  - apply for_each_cons_ok in Hrun as (s1 & H1 & Hrest).
    apply IH in Hrest; [|intros; eapply Hbody; [now right | eassumption]].
    rewrite Hrest, (Hbody s a s1); [|now left | assumption].
    simpl. now rewrite <- app_assoc.
Qed.

(** ** [unique] and [sorted] *)

Lemma in_unique {A : Type} `{EqDecision A} (x : A) l : In x (unique l) <-> In x l.
Proof.
  induction l as [|y l IH]; simpl; [tauto|].
  rewrite filter_In, IH. destruct (decide (x = y)) as [->|Hne].
  - tauto.
  - rewrite bool_decide_eq_false_2 by assumption. simpl.
    intuition congruence.
Qed.

Lemma NoDup_filter_bool {A : Type} (f : A -> bool) l :
  List.NoDup l -> List.NoDup (List.filter f l).
Proof.
  induction 1 as [|x l Hx Hl IH]; simpl; [constructor|].
  destruct (f x); [|assumption].
  constructor; [|assumption]. rewrite filter_In. tauto.
Qed.

Lemma NoDup_unique {A : Type} `{EqDecision A} (l : list A) : List.NoDup (unique l).
Proof.
  induction l as [|y l IH]; simpl; constructor.
  - rewrite filter_In. intros [_ H]. rewrite bool_decide_eq_true_2 in H by reflexivity.
    discriminate.
  - now apply NoDup_filter_bool.
Qed.

Lemma insert_sorted_perm {A : Type} (leb : A -> A -> bool) x l :
  Permutation (insert_sorted leb x l) (x :: l).
Proof.
  induction l as [|y l IH]; simpl; [reflexivity|].
  destruct (leb x y); [reflexivity|].
  rewrite IH. apply perm_swap.
Qed.

Lemma sorted_perm {A : Type} (leb : A -> A -> bool) l :
  Permutation (sorted leb l) l.
Proof.
  induction l as [|x l IH]; simpl; [reflexivity|].
  rewrite insert_sorted_perm. now constructor.
Qed.

Lemma in_sorted {A : Type} (leb : A -> A -> bool) x l :
  In x (sorted leb l) <-> In x l.
Proof.
  split; apply Permutation_in; [|symmetry]; apply sorted_perm.
Qed.

Lemma NoDup_sorted {A : Type} (leb : A -> A -> bool) l :
  List.NoDup l -> List.NoDup (sorted leb l).
Proof.
  intros H. eapply Permutation_NoDup; [symmetry; apply sorted_perm | assumption].
Qed.

Section SortedOrder.
Context {A : Type} (leb : A -> A -> bool).
Hypothesis leb_total : forall a b, leb a b = true \/ leb b a = true.
Hypothesis leb_trans : forall a b c, leb a b = true -> leb b c = true -> leb a c = true.

Let le (a b : A) : Prop := leb a b = true.

Lemma insert_sorted_strongly x l :
  StronglySorted le l -> StronglySorted le (insert_sorted leb x l).
Proof using leb_total leb_trans.
  induction 1 as [|y l Hs IH Hall]; simpl.
  - repeat constructor.
  - destruct (leb x y) eqn:Hxy.
    + constructor; [now constructor|].
      constructor; [assumption|].
      eapply List.Forall_impl; [|exact Hall]. intros z Hz. eapply leb_trans; eassumption.
    + constructor; [assumption|].
      assert (Hyx : le y x) by (destruct (leb_total x y); [congruence | assumption]).
      rewrite List.Forall_forall. intros z Hz.
      apply (Permutation_in _ (insert_sorted_perm leb x l)) in Hz.
      destruct Hz as [<-|Hz]; [assumption|].
      rewrite List.Forall_forall in Hall. now apply Hall.
Qed.

Lemma sorted_strongly l : StronglySorted le (sorted leb l).
Proof using leb_total leb_trans.
  induction l; simpl; [constructor | now apply insert_sorted_strongly].
Qed.
End SortedOrder.

(** ** The key orders *)

Lemma string_leb_total (a b : string) : String.leb a b = true \/ String.leb b a = true.
Proof. apply String.leb_total. Qed.

Lemma string_leb_trans (a b c : string) :
  String.leb a b = true -> String.leb b c = true -> String.leb a c = true.
Proof.
  unfold String.leb. change String.compare with String_as_OT.cmp.
  destruct (String_as_OT.cmp a b) eqn:Hab; try discriminate;
  destruct (String_as_OT.cmp b c) eqn:Hbc; try discriminate; intros _ _.
  - apply String_as_OT.cmp_eq in Hab, Hbc. subst.
    now rewrite (proj2 (String_as_OT.cmp_eq c c)).
  - apply String_as_OT.cmp_eq in Hab. subst. now rewrite Hbc.
  - apply String_as_OT.cmp_eq in Hbc. subst. now rewrite Hab.
  - apply String_as_OT.cmp_lt in Hab, Hbc.
    now rewrite (proj2 (String_as_OT.cmp_lt a c) (String_as_OT.lt_trans _ _ _ Hab Hbc)).
Qed.

Lemma string_leb_antisym (a b : string) :
  String.leb a b = true -> String.leb b a = true -> a = b.
Proof. apply String.leb_antisym. Qed.

(** ** Figures *)

Lemma bars_at_app {X N : Type} `{EqDecision X} (p : X) (f1 f2 : list (trace X N)) :
  bars_at p (f1 ++ f2) = bars_at p f1 ++ bars_at p f2.
Proof. apply flat_map_app. Qed.

Lemma in_bars_at {X N : Type} `{EqDecision X} (p : X) (fig : list (trace X N)) c v y :
  In (c, v, y) (bars_at p fig) <-> exists col w sl, In (Bar p v y c col w sl) fig.
Proof.
  unfold bars_at. rewrite in_flat_map. split.
  - intros ([x v' y' c' col w sl|] & Hin & Ht); [|destruct Ht].
    destruct (decide (x = p)) as [->|]; [|destruct Ht].
    destruct Ht as [[= -> -> ->]|[]]. eauto.
  - intros (col & w & sl & Hin). eexists; split; [exact Hin|]. simpl.
    rewrite decide_True by reflexivity. now left.
Qed.

(** ** Stacking *)

Lemma stack_keys gap y l : map (fun s => (s.1.1, s.1.2)) (stack gap y l) = l.
Proof.
  revert y. induction l as [|[c v] l IH]; intros y; simpl; [reflexivity|].
  now rewrite IH.
Qed.

Lemma stack_length gap y l : length (stack gap y l) = length l.
Proof. rewrite <- (stack_keys gap y l) at 2. now rewrite length_map. Qed.

Lemma stack_head gap y l a : head (stack gap y l) = Some a -> a.2 = y.
Proof. destruct l as [|[c v] l]; simpl; [discriminate | now intros [= <-]]. Qed.

(** ** The key orders, continued *)

Lemma value_cmp_trans asc a b c :
  value_cmp asc a b <> Gt -> value_cmp asc b c <> Gt ->
  value_cmp asc a c <> Gt /\
  (value_cmp asc a c = Eq -> value_cmp asc a b = Eq /\ value_cmp asc b c = Eq).
Proof.
  destruct a as [x|], b as [y|], c as [z|]; simpl; try (intuition congruence).
  destruct asc.
  - destruct (Qcompare_spec x y), (Qcompare_spec y z), (Qcompare_spec x z);
      intros; try (intuition congruence); exfalso; Lqa.lra.
  - destruct (Qcompare_spec y x), (Qcompare_spec z y), (Qcompare_spec z x);
      intros; try (intuition congruence); exfalso; Lqa.lra.
Qed.

Lemma value_cmp_antisym asc a b : value_cmp asc b a = CompOpp (value_cmp asc a b).
Proof.
  destruct a as [x|], b as [y|]; simpl; try reflexivity.
  destruct asc; now rewrite Qcompare_antisym.
Qed.

Lemma row_leb_total {P : Type} asc (r1 r2 : Row P) :
  row_leb asc r1 r2 = true \/ row_leb asc r2 r1 = true.
Proof.
  unfold row_leb. rewrite (value_cmp_antisym asc (value r1) (value r2)).
  destruct (value_cmp asc (value r1) (value r2)); simpl; auto.
  apply string_leb_total.
Qed.

Lemma row_leb_trans {P : Type} asc (r1 r2 r3 : Row P) :
  row_leb asc r1 r2 = true -> row_leb asc r2 r3 = true -> row_leb asc r1 r3 = true.
Proof.
  unfold row_leb. intros H12 H23.
  destruct (value_cmp_trans asc (value r1) (value r2) (value r3)) as [Hne Heq].
  - destruct (value_cmp asc (value r1) (value r2)); congruence.
  - destruct (value_cmp asc (value r2) (value r3)); congruence.
  - destruct (value_cmp asc (value r1) (value r3)) eqn:H13; [|reflexivity|congruence].
    destruct Heq as [E12 E23]; [reflexivity|]. rewrite E12 in H12. rewrite E23 in H23.
    eapply string_leb_trans; eassumption.
Qed.

Lemma value_leb_total {P : Type} (r1 r2 : Row P) :
  value_leb r1 r2 = true \/ value_leb r2 r1 = true.
Proof.
  unfold value_leb. rewrite (value_cmp_antisym true (value r1) (value r2)).
  destruct (value_cmp true (value r1) (value r2)); simpl; auto.
Qed.

Lemma value_leb_trans {P : Type} (r1 r2 r3 : Row P) :
  value_leb r1 r2 = true -> value_leb r2 r3 = true -> value_leb r1 r3 = true.
Proof.
  unfold value_leb. intros H12 H23.
  destruct (value_cmp_trans true (value r1) (value r2) (value r3)) as [Hne _].
  - destruct (value_cmp true (value r1) (value r2)); congruence.
  - destruct (value_cmp true (value r2) (value r3)); congruence.
  - destruct (value_cmp true (value r1) (value r3)); congruence.
Qed.

(** ** The rows that are laid out *)

Lemma in_positives {P : Type} (l : list (Row P)) c v :
  In (c, v) (positives l) <->
  exists r, In r l /\ category r = c /\ value r = Num v /\ gt0 (value r) = true.
Proof.
  induction l as [|r l IH]; simpl.
  - split; [tauto | intros (? & [] & _)].
  - assert (Hhead : (exists r', (r = r' \/ In r' l) /\ category r' = c /\
                        value r' = Num v /\ gt0 (value r') = true) <->
                    (category r = c /\ value r = Num v /\ gt0 (value r) = true) \/
                    In (c, v) (positives l)).
    { rewrite IH. split.
      - intros (r' & [<-|Hin] & H); [now left | right; eauto].
      - intros [H|(r' & Hin & H)]; [exists r | exists r']; auto. }
    rewrite Hhead. clear Hhead IH.
    destruct (value r) as [w|] eqn:Hv; simpl.
    + destruct (Qle_bool w 0) eqn:Hw; simpl.
      * split; [now right | intros [(_ & _ & ?)|?]; [discriminate | assumption]].
      * split.
        -- intros [[= <- <-]|?]; [left | right]; auto.
        -- intros [(<- & [= <-] & _)|?]; [left | right]; auto.
    + split; [now right | intros [(_ & ? & _)|?]; [discriminate | assumption]].
Qed.

Lemma positives_perm {P : Type} (l l' : list (Row P)) :
  Permutation l l' -> Permutation (positives l) (positives l').
Proof.
  induction 1 as [|r l l' _ IH|r1 r2 l|l1 l2 l3 _ IH1 _ IH2]; simpl.
  - reflexivity.
  - destruct (value r) as [w|]; [destruct (Qle_bool w 0)|]; auto.
  - destruct (value r1) as [w1|], (value r2) as [w2|];
      try destruct (Qle_bool w1 0); try destruct (Qle_bool w2 0);
      try reflexivity; apply perm_swap.
  - etransitivity; eassumption.
Qed.

Lemma positives_positive {P : Type} (l : list (Row P)) c v :
  In (c, v) (positives l) -> (0 < v)%Q.
Proof.
  rewrite in_positives. intros (r & _ & _ & Hv & Hpos). rewrite Hv in Hpos.
  simpl in Hpos. apply negb_true_iff in Hpos.
  apply Qnot_le_lt. intros Hle. apply Qle_bool_iff in Hle. congruence.
Qed.

Lemma positives_sorted {P : Type} asc (l : list (Row P)) :
  StronglySorted (fun a b => row_leb asc a b = true) l ->
  StronglySorted (fun a b => key_leb asc a b = true) (positives l).
Proof.
  induction 1 as [|r l Hs IH Hall]; simpl; [constructor|].
  destruct (value r) as [w|] eqn:Hv; [|assumption].
  destruct (Qle_bool w 0); [assumption|].
  constructor; [assumption|].
  rewrite List.Forall_forall in Hall |- *. intros [c v] Hin.
  apply in_positives in Hin as (r' & Hin & <- & Hv' & _).
  specialize (Hall r' Hin). unfold row_leb in Hall. rewrite Hv, Hv' in Hall.
  exact Hall.
Qed.

(** ** Coordinate entries of a run of rectangles *)

Lemma segments_map_lookup {N : Type} (add : N -> N -> N) segs
  (m : gmap string (N * N)) c e :
  segments_map add segs m !! c = Some e ->
  (exists v, In (c, v, e.1) segs /\ e.2 = add e.1 v) \/ m !! c = Some e.
Proof.
  revert m. induction segs as [|[[c' v] y] segs IH]; intros m; simpl; [auto|].
  intros H. apply IH in H as [(w & Hin & He)|H]; [left; eauto|].
  destruct (decide (c' = c)) as [->|Hne].
  - rewrite lookup_insert_eq in H. injection H as <-. left. exists v. simpl. auto.
  - rewrite lookup_insert_ne in H by assumption. now right.
Qed.

Lemma segments_map_is_Some {N : Type} (add : N -> N -> N) segs
  (m : gmap string (N * N)) c :
  is_Some (segments_map add segs m !! c) <->
  (exists v y, In (c, v, y) segs) \/ is_Some (m !! c).
Proof.
  revert m. induction segs as [|[[c' v] y] segs IH]; intros m; simpl.
  - split; [auto | intros [(? & ? & [])|?]; assumption].
  - rewrite IH. destruct (decide (c' = c)) as [->|Hne].
    + rewrite lookup_insert_eq. split; [|intros _; right; eauto].
      intros _. left. exists v, y. now left.
    + rewrite lookup_insert_ne by assumption. split.
      * intros [(w & z & Hin)|H]; [left; exists w, z; now right | now right].
      * intros [(w & z & [[=]|Hin])|H]; [congruence | left; eauto | now right].
Qed.

(** ** ribbon_engine: the bars *)

Section EngineBars.
Variable gap bar_width : Q.
Variable color_map : gmap string string.
Variable sort_ascending show_legend : bool.

Let add_bar := ribbon_engine.add_bar gap bar_width color_map show_legend.

(** The inner loop writes the coordinates and the bars of the stacked
    positive rows, and nothing else. *)
Lemma engine_add_bar_loop p_idx p (l : list (Row string)) y here fig st' :
  for_each (add_bar p_idx p) l (y, here, fig) = Ok st' ->
  st'.1.2 = segments_map Qplus (stack gap y (positives l)) here /\
  (forall q, bars_at q st'.2 =
             bars_at q fig ++ (if decide (p = q) then stack gap y (positives l) else [])) /\
  (forall t, In t st'.2 -> In t fig \/ is_bar t).
Proof.
  revert y here fig. induction l as [|r l IH]; intros y here fig Hrun.
  - simpl in Hrun. injection Hrun as <-. simpl. split; [reflexivity|].
    split; [|auto]. intros q. destruct (decide (p = q)); now rewrite app_nil_r.
  - apply for_each_cons_ok in Hrun as ([[y1 here1] fig1] & Hstep & Hrest).
    unfold add_bar, ribbon_engine.add_bar in Hstep. simpl positives.
    destruct (value r) as [v|].
    + destruct (Qle_bool v 0).
      * injection Hstep as <- <- <-. now apply IH.
      * destruct (color_map !! category r) as [color|]; [|discriminate].
        injection Hstep as <- <- <-.
        apply IH in Hrest as (Hhere & Hbars & Hfig). split; [exact Hhere|]. split.
        -- intros q. rewrite Hbars, bars_at_app, <- app_assoc. f_equal.
           simpl. destruct (decide (p = q)); reflexivity.
        -- intros t Ht. apply Hfig in Ht as [Ht|Ht]; [|now right].
           apply in_app_or in Ht as [Ht|[<-|[]]]; [now left | now right].
    + injection Hstep as <- <- <-. now apply IH.
Qed.

(** The inner loop raises exactly when a stacked row has no colour. *)
Lemma engine_add_bar_loop_ok p_idx p (l : list (Row string)) st :
  (forall c v, In (c, v) (positives l) -> is_Some (color_map !! c)) ->
  exists st', for_each (add_bar p_idx p) l st = Ok st'.
Proof.
  revert st. induction l as [|r l IH]; intros [[y here] fig] Hcol; simpl; [eauto|].
  simpl in Hcol. unfold add_bar at 1, ribbon_engine.add_bar.
  destruct (value r) as [v|].
  - destruct (Qle_bool v 0); simpl.
    + now apply IH.
    + destruct (Hcol (category r) v) as [color ->]; [now left|]. simpl.
      apply IH. intros. eapply Hcol. right. eassumption.
  - simpl. now apply IH.
Qed.

Lemma engine_add_bar_loop_raise p_idx p (l : list (Row string)) st :
  (exists c v, In (c, v) (positives l) /\ color_map !! c = None) ->
  exists c, color_map !! c = None /\
            for_each (add_bar p_idx p) l st = Raise (KeyError c).
Proof.
  revert st. induction l as [|r l IH]; intros [[y here] fig] (c & v & Hin & Hc).
  - destruct Hin.
  - simpl in Hin |- *. unfold add_bar at 1, ribbon_engine.add_bar.
    destruct (value r) as [w|].
    + destruct (Qle_bool w 0); simpl.
      * apply IH. eauto.
      * destruct (color_map !! category r) as [color|] eqn:Hcol; simpl.
        -- apply IH. destruct Hin as [[= <- <-]|Hin]; [congruence | eauto].
        -- eauto.
    + simpl. apply IH. eauto.
Qed.

End EngineBars.

Lemma in_rows_of {P : Type} `{EqDecision P} (p : P) (rows : list (Row P)) r :
  In r (rows_of p rows) <-> In r rows /\ period r = p.
Proof.
  unfold rows_of. rewrite filter_In, bool_decide_eq_true. tauto.
Qed.

(** The positive rows of a period, whatever the order they are sorted in. *)
Lemma in_positives_period {P : Type} `{EqDecision P} leb (p : P) (rows : list (Row P)) c v :
  In (c, v) (positives (sorted leb (rows_of p rows))) <->
  exists r, In r rows /\ period r = p /\ category r = c /\ value r = Num v /\
            gt0 (value r) = true.
Proof.
  rewrite in_positives. split.
  - intros (r & Hin & H). apply in_sorted, in_rows_of in Hin as [Hin Hp].
    exists r. tauto.
  - intros (r & Hin & Hp & H). exists r. split; [|exact H].
    apply in_sorted, in_rows_of. tauto.
Qed.

Lemma colors_cover_dec (color_map : gmap string string) (l : list (string * Q)) :
  (forall c v, In (c, v) l -> is_Some (color_map !! c)) \/
  (exists c v, In (c, v) l /\ color_map !! c = None).
Proof.
  induction l as [|[c v] l [IH|(c' & v' & Hin & Hc)]].
  - left. intros ? ? [].
  - destruct (color_map !! c) eqn:Hc.
    + left. intros c' v' [[= <- <-]|Hin]; [rewrite Hc; eauto | eauto].
    + right. exists c, v. split; [now left | assumption].
  - right. exists c', v'. split; [now right | assumption].
Qed.

Section EngineBarGeneration.
Variable gap bar_width : Q.
Variable color_map : gmap string string.
Variable sort_ascending show_legend : bool.
Variable rows : list (Row string).

Let body :=
  ribbon_engine.period_bars gap bar_width color_map sort_ascending show_legend rows.

Let segs := engine_segments gap sort_ascending rows.

Lemma engine_bar_loop (ips : list (nat * string)) coords fig coords' fig' :
  for_each body ips (coords, fig) = Ok (coords', fig') ->
  List.NoDup (map snd ips) ->
  (forall q, In q (map snd ips) ->
     bars_at q fig' = bars_at q fig ++ segs q /\
     coords' !! q = Some (segments_map Qplus (segs q) ∅)) /\
  (forall q, ~ In q (map snd ips) ->
     bars_at q fig' = bars_at q fig /\ coords' !! q = coords !! q) /\
  (forall t, In t fig' -> In t fig \/ is_bar t).
Proof.
  revert coords fig. induction ips as [|[i p] ips IH]; intros coords fig Hrun Hnd.
  - simpl in Hrun. injection Hrun as <- <-. simpl. split; [tauto|]. split; auto.
  - apply for_each_cons_ok in Hrun as ([coords1 fig1] & Hstep & Hrest).
    simpl in Hnd. apply List.NoDup_cons_iff in Hnd as [Hp Hnd].
    apply IH in Hrest as (Hin & Hout & Hfig); [|assumption]. clear IH.
    unfold body, ribbon_engine.period_bars in Hstep.
    destruct (for_each _ _ _) as [[[y1 here1] f1]|] eqn:Hinner in Hstep; [|discriminate].
    simpl in Hstep. injection Hstep as <- <-.
    apply engine_add_bar_loop in Hinner as (Hhere & Hbars & Hf1). simpl in Hhere, Hbars, Hf1.
    split; [|split].
    + intros q Hq. simpl in Hq. destruct Hq as [<-|Hq].
      * destruct (Hout _ Hp) as [-> ->]. rewrite Hbars, decide_True by reflexivity.
        rewrite lookup_insert_eq, Hhere. auto.
      * destruct (Hin _ Hq) as [-> ->]. rewrite Hbars.
        rewrite decide_False by (intros ->; contradiction).
        now rewrite app_nil_r.
    + intros q Hq. simpl in Hq. destruct (Hout q) as [-> ->]; [tauto|].
      rewrite Hbars, decide_False by tauto. rewrite app_nil_r.
      rewrite lookup_insert_ne by tauto. auto.
    + intros t Ht. apply Hfig in Ht as [Ht|Ht]; [|now right]. now apply Hf1.
Qed.

Lemma engine_bar_loop_ok (ips : list (nat * string)) st :
  (forall r, In r rows -> gt0 (value r) = true -> is_Some (color_map !! category r)) ->
  exists st', for_each body ips st = Ok st'.
Proof.
  intros Hcol. destruct (for_each_total body (fun _ => True) ips) with (s := st)
    as (st' & Hst' & _); [|exact I|eauto].
  intros [coords fig] [i p] _ _. unfold body, ribbon_engine.period_bars.
  edestruct (engine_add_bar_loop_ok gap bar_width color_map show_legend i p) as [st1 ->].
  - intros c v Hin. apply in_positives_period in Hin as (r & Hin & _ & <- & _ & Hpos).
    now apply Hcol.
  - simpl. eauto.
Qed.

Lemma engine_bar_loop_raise (ips : list (nat * string)) st :
  (exists r, In r rows /\ In (period r) (map snd ips) /\ gt0 (value r) = true /\
             color_map !! category r = None) ->
  exists c, color_map !! c = None /\ for_each body ips st = Raise (KeyError c).
Proof.
  revert st. induction ips as [|[i p] ips IH]; intros [coords fig] (r & Hin & Hp & Hpos & Hc).
  - destruct Hp.
  - simpl. unfold body at 1, ribbon_engine.period_bars.
    set (l := sorted (row_leb sort_ascending) (rows_of p rows)).
    destruct (colors_cover_dec color_map (positives l)) as [Hgood|Hbad].
    + edestruct (engine_add_bar_loop_ok gap bar_width color_map show_legend i p l)
        as [st1 ->]; [exact Hgood|].
      simpl. apply IH. exists r. repeat split; try assumption.
      simpl in Hp. destruct Hp as [Heq|Hp]; [|assumption]. exfalso.
      destruct (value r) as [v|] eqn:Hv; [|discriminate].
      destruct (Hgood (category r) v) as [col Hcol]; [|congruence].
      apply in_positives_period. exists r. rewrite Hv. repeat split; auto.
    + eapply engine_add_bar_loop_raise in Hbad as (c & Hcn & ->). simpl. eauto.
Qed.

End EngineBarGeneration.

(** ** Adjacent periods *)

Lemma adjacent_cons {P : Type} k (a b : P) l :
  combine (seq k (length (a :: b :: l) - 1)) (combine (a :: b :: l) (tl (a :: b :: l))) =
  (k, (a, b)) :: combine (seq (S k) (length (b :: l) - 1)) (combine (b :: l) (tl (b :: l))).
Proof. simpl. now rewrite Nat.sub_0_r. Qed.

Lemma in_adjacent_from {P : Type} k (l : list P) i p1 p2 :
  In (i, (p1, p2)) (combine (seq k (length l - 1)) (combine l (tl l))) <->
  exists j, i = (k + j)%nat /\ l !! j = Some p1 /\ l !! S j = Some p2.
Proof.
  revert k. induction l as [|a l IH]; intros k.
  - simpl. split; [tauto | intros (j & _ & H & _); discriminate].
  - destruct l as [|b l].
    + simpl. split; [tauto | intros (j & _ & _ & H); destruct j; discriminate].
    + rewrite adjacent_cons. simpl In. rewrite IH. split.
      * intros [[= <- <- <-]|(j & -> & H1 & H2)].
        -- exists 0%nat. rewrite Nat.add_0_r. auto.
        -- exists (S j). split; [lia | auto].
      * intros ([|j] & -> & H1 & H2).
        -- left. simpl in H1, H2. rewrite Nat.add_0_r. congruence.
        -- right. exists j. split; [lia | auto].
Qed.

Lemma in_adjacent {P : Type} (l : list P) i p1 p2 :
  In (i, (p1, p2)) (adjacent l) <-> l !! i = Some p1 /\ l !! S i = Some p2.
Proof.
  unfold adjacent. rewrite in_adjacent_from. split.
  - intros (j & -> & H). exact H.
  - intros H. exists i. auto.
Qed.

Lemma position_inj (i j : nat) (w : Q) :
  (inject_Z (Z.of_nat i) + w)%Q = (inject_Z (Z.of_nat j) + w)%Q -> i = j.
Proof.
  intros H.
  assert (Heq : (inject_Z (Z.of_nat i) + w == inject_Z (Z.of_nat j) + w)%Q)
    by (rewrite H; reflexivity).
  apply Qplus_inj_r in Heq. unfold Qeq in Heq. simpl in Heq. lia.
Qed.

Lemma map_snd_enumerate {A : Type} (l : list A) : map snd (enumerate l) = l.
Proof.
  unfold enumerate. generalize 0%nat. induction l as [|a l IH]; intros k; simpl.
  - reflexivity.
  - now rewrite IH.
Qed.

(** ** Colour maps *)

Lemma cycle_palette_loop (palette : list string) (ics : list (nat * string))
  (m0 : gmap string string) :
  palette <> [] ->
  exists m,
    for_each
      (fun (m : gmap string string) '(i, cat) =>
         match length palette with
         | O => Raise ZeroDivisionError
         | S _ => Ok (<[cat := nth (i mod length palette) palette ""]> m)
         end) ics m0 = Ok m /\
    forall c, is_Some (m !! c) <-> In c (map snd ics) \/ is_Some (m0 !! c).
Proof.
  intros Hne. revert m0. induction ics as [|[i c] ics IH]; intros m0; simpl.
  - exists m0. split; [reflexivity | tauto].
  - destruct palette as [|col palette]; [congruence|]. simpl length. simpl bind.
    destruct (IH (<[c := nth (i mod S (length palette)) (col :: palette) ""]> m0))
      as (m & Hm & Hdom).
    exists m. split; [exact Hm|]. intros c'. rewrite Hdom.
    destruct (decide (c = c')) as [->|Hcc].
    + rewrite lookup_insert_eq. split; intros _; [left; now left | right; eauto].
    + rewrite lookup_insert_ne by assumption. tauto.
Qed.

Lemma cycle_palette_ok palette categories :
  palette <> [] ->
  exists m, cycle_palette palette categories = Ok m /\
            forall c, is_Some (m !! c) <-> In c categories.
Proof.
  intros Hne. destruct (cycle_palette_loop palette (enumerate categories) ∅ Hne)
    as (m & Hm & Hdom).
  exists m. split; [exact Hm|]. intros c. rewrite Hdom.
  rewrite map_snd_enumerate, lookup_empty. split; [intros [?|[? ?]]; [assumption | discriminate] | auto].
Qed.

(** ** ribbon_engine: the ribbons *)

Section EngineRibbons.
Variable bar_width : Q.
Variable color_map : gmap string string.
Variable coords : gmap string (gmap string (Q * Q)).

Lemma engine_add_ribbon_emits i p1 p2 fig cat fig' :
  ribbon_engine.add_ribbon bar_width color_map coords i p1 p2 fig cat = Ok fig' ->
  fig' = fig ++ engine_ribbon bar_width color_map coords i p1 p2 cat.
Proof.
  unfold ribbon_engine.add_ribbon, ribbon_engine.coords_at, engine_ribbon.
  destruct (coords !! p1) as [c1|]; simpl; [|discriminate].
  destruct (c1 !! cat) as [[y1_b y1_t]|]; simpl.
  - destruct (coords !! p2) as [c2|]; simpl; [|discriminate].
    destruct (c2 !! cat) as [[y2_b y2_t]|]; simpl.
    + destruct (color_map !! cat); [|discriminate]. now intros [= <-].
    + intros [= <-]. now rewrite app_nil_r.
  - intros [= <-]. now rewrite app_nil_r.
Qed.

Lemma engine_ribbon_generation_emits periods categories fig fig' :
  ribbon_engine.ribbon_generation bar_width color_map coords periods categories fig
    = Ok fig' ->
  fig' = fig ++
         flat_map (fun '(i, (p1, p2)) =>
                     flat_map (engine_ribbon bar_width color_map coords i p1 p2)
                       categories)
           (adjacent periods).
Proof.
  unfold ribbon_engine.ribbon_generation. intros Hrun.
  eapply (for_each_emits _ (fun f => f)) in Hrun; [exact Hrun|].
  intros f [i [p1 p2]] f' _ Hinner.
  eapply (for_each_emits _ (fun f => f)) in Hinner; [exact Hinner|].
  intros f1 cat f2 _. apply engine_add_ribbon_emits.
Qed.

Lemma engine_ribbon_generation_ok periods categories fig :
  (forall p, In p periods -> is_Some (coords !! p)) ->
  (forall p here cat, coords !! p = Some here -> is_Some (here !! cat) ->
                      is_Some (color_map !! cat)) ->
  exists fig',
    ribbon_engine.ribbon_generation bar_width color_map coords periods categories fig
      = Ok fig'.
Proof.
  intros Hper Hcol. unfold ribbon_engine.ribbon_generation.
  destruct (for_each_total
              (fun fig '(i, (p1, p2)) =>
                 for_each (ribbon_engine.add_ribbon bar_width color_map coords i p1 p2)
                   categories fig)
              (fun _ => True) (adjacent periods)) with (s := fig)
    as (fig' & Hfig' & _); [|exact I|eauto].
  intros f [i [p1 p2]] _ Hadj. apply in_adjacent in Hadj as [H1 H2].
  apply for_each_total; [|exact I].
  intros f1 cat _ _. unfold ribbon_engine.add_ribbon, ribbon_engine.coords_at.
  destruct (Hper p1) as [c1 Hc1]; [eapply list_elem_of_In, list_elem_of_lookup_2; eassumption|].
  destruct (Hper p2) as [c2 Hc2]; [eapply list_elem_of_In, list_elem_of_lookup_2; eassumption|].
  rewrite Hc1. simpl. destruct (c1 !! cat) as [[y1_b y1_t]|] eqn:E1; [|eauto].
  rewrite Hc2. simpl. destruct (c2 !! cat) as [[y2_b y2_t]|] eqn:E2; [|eauto].
  destruct (Hcol p1 c1 cat Hc1) as [col ->]; [rewrite E1; eauto | eauto].
Qed.

End EngineRibbons.

(** ** ribbon_engine: the whole chart *)

Lemma in_stack gap y l c v :
  In (c, v) l <-> exists ys, In (c, v, ys) (stack gap y l).
Proof.
  rewrite <- (stack_keys gap y l) at 1. rewrite in_map_iff. split.
  - intros ([[c' v'] ys] & [= <- <-] & Hin). eauto.
  - intros (ys & Hin). exists (c, v, ys). auto.
Qed.

Lemma bars_at_no_bar {X N : Type} `{EqDecision X} (p : X) (fig : list (trace X N)) :
  (forall t, In t fig -> ~ is_bar t) -> bars_at p fig = [].
Proof.
  induction fig as [|t fig IH]; intros H; [reflexivity|].
  simpl. rewrite IH by (intros; apply H; now right).
  destruct t; [|reflexivity]. exfalso. apply (H _ (or_introl eq_refl)). exact I.
Qed.

Lemma engine_ribbon_scatter bar_width color_map coords i p1 p2 cat t :
  In t (engine_ribbon bar_width color_map coords i p1 p2 cat) -> ~ is_bar t.
Proof.
  unfold engine_ribbon.
  destruct (coords !! p1 ≫= _) as [[? ?]|]; [|intros []].
  destruct (coords !! p2 ≫= _) as [[? ?]|]; [|intros []].
  destruct (color_map !! cat); [|intros []].
  intros [<-|[]]. auto.
Qed.

Lemma rows_of_absent {P : Type} `{EqDecision P} (p : P) (rows : list (Row P)) :
  ~ In p (map period rows) -> rows_of p rows = [].
Proof.
  intros H. unfold rows_of. induction rows as [|r rows IH]; [reflexivity|].
  simpl in H |- *. rewrite bool_decide_eq_false_2 by tauto. apply IH. tauto.
Qed.

Lemma in_engine_periods df p :
  In p (engine_periods df) <-> In p (map period (ribbon_engine.rows df)).
Proof. unfold engine_periods. now rewrite in_sorted, in_unique. Qed.

Lemma in_engine_categories df c :
  In c (engine_categories df) <-> In c (map category (ribbon_engine.rows df)).
Proof. unfold engine_categories. now rewrite in_sorted, in_unique. Qed.

Lemma NoDup_engine_periods df : List.NoDup (engine_periods df).
Proof. apply NoDup_sorted, NoDup_unique. Qed.

Lemma engine_validate_ok df x_col category_col value_col :
  In x_col (ribbon_engine.columns df) ->
  In category_col (ribbon_engine.columns df) ->
  In value_col (ribbon_engine.columns df) ->
  ribbon_engine.validate df [x_col; category_col; value_col] = Ok tt.
Proof.
  intros H1 H2 H3. unfold ribbon_engine.validate. simpl.
  rewrite !bool_decide_eq_true_2 by (now apply list_elem_of_In). reflexivity.
Qed.

(** What a successful run of the engine returns. *)
Lemma engine_build_spec df x_col category_col value_col gap bar_width colors
  sort_ascending show_legend coords fig :
  ribbon_engine.build df x_col category_col value_col gap bar_width colors
    sort_ascending show_legend = Ok (coords, fig) ->
  exists color_map,
    ribbon_engine.color_setup colors (engine_categories df) = Ok color_map /\
    (forall p, bars_at p fig =
               engine_segments gap sort_ascending (ribbon_engine.rows df) p) /\
    (forall p, In p (engine_periods df) ->
       coords !! p =
       Some (segments_map Qplus
               (engine_segments gap sort_ascending (ribbon_engine.rows df) p) ∅)) /\
    (forall p, ~ In p (engine_periods df) -> coords !! p = None) /\
    (forall t, ~ is_bar t ->
       (In t fig <->
        In t (flat_map
                (fun '(i, (p1, p2)) =>
                   flat_map (engine_ribbon bar_width color_map coords i p1 p2)
                     (engine_categories df))
                (adjacent (engine_periods df))))).
Proof.
  unfold ribbon_engine.build. fold (engine_periods df). fold (engine_categories df).
  destruct (ribbon_engine.validate _ _) as [[]|]; simpl; [|discriminate].
  destruct (ribbon_engine.color_setup _ _) as [color_map|]; simpl; [|discriminate].
  destruct (ribbon_engine.bar_generation _ _ _ _ _ _ _) as [[coords1 fig1]|] eqn:Hbars;
    simpl; [|discriminate].
  destruct (ribbon_engine.ribbon_generation _ _ _ _ _ _) as [fig2|] eqn:Hrib;
    simpl; [|discriminate].
  intros [= <- <-]. exists color_map. split; [reflexivity|].
  apply engine_bar_loop in Hbars as (Hin & Hout & Hfig);
    [|rewrite map_snd_enumerate; apply NoDup_engine_periods].
  rewrite map_snd_enumerate in Hin, Hout.
  apply engine_ribbon_generation_emits in Hrib. subst fig2.
  set (ribbons := flat_map _ (adjacent (engine_periods df))).
  assert (Hrib : forall t, In t ribbons -> ~ is_bar t).
  { intros t Ht. apply in_flat_map in Ht as ([i [p1 p2]] & _ & Ht).
    apply in_flat_map in Ht as (cat & _ & Ht). eapply engine_ribbon_scatter, Ht. }
  split; [|split; [|split]].
  - intros p. rewrite bars_at_app, (bars_at_no_bar p ribbons Hrib), app_nil_r.
    destruct (in_dec string_dec p (engine_periods df)) as [Hp|Hp].
    + now destruct (Hin p Hp) as [-> _].
    + destruct (Hout p Hp) as [-> _]. unfold engine_segments.
      rewrite rows_of_absent; [reflexivity|]. now rewrite <- in_engine_periods.
  - intros p Hp. now destruct (Hin p Hp) as [_ ->].
  - intros p Hp. destruct (Hout p Hp) as [_ ->]. apply lookup_empty.
  - intros t Ht. rewrite in_app_iff. split; [|auto].
    intros [H|H]; [|exact H]. apply Hfig in H as [[]|H]. contradiction.
Qed.

Lemma engine_color_setup_ok df colors x_col category_col value_col :
  engine_ready df x_col category_col value_col colors ->
  exists color_map,
    ribbon_engine.color_setup colors (engine_categories df) = Ok color_map /\
    forall r, In r (ribbon_engine.rows df) -> is_Some (color_map !! category r).
Proof.
  intros (_ & _ & _ & Hcol).
  assert (Hcat : forall r, In r (ribbon_engine.rows df) ->
                           In (category r) (engine_categories df)).
  { intros r Hr. apply in_engine_categories. now apply in_map. }
  destruct colors as [d|l|]; simpl.
  - exists d. auto.
  - destruct (cycle_palette_ok l (engine_categories df) Hcol) as (m & -> & Hdom).
    exists m. split; [reflexivity|]. intros r Hr. apply Hdom. auto.
  - destruct (cycle_palette_ok ribbon_engine.G10 (engine_categories df))
      as (m & -> & Hdom); [discriminate|].
    exists m. split; [reflexivity|]. intros r Hr. apply Hdom. auto.
Qed.

(** On ready inputs the engine returns a chart. *)
Lemma engine_build_ok df x_col category_col value_col gap bar_width colors
  sort_ascending show_legend :
  engine_ready df x_col category_col value_col colors ->
  exists coords fig,
    ribbon_engine.build df x_col category_col value_col gap bar_width colors
      sort_ascending show_legend = Ok (coords, fig).
Proof.
  intros Hready. pose proof Hready as (H1 & H2 & H3 & _).
  destruct (engine_color_setup_ok _ _ _ _ _ Hready) as (color_map & Hcm & Hcover).
  unfold ribbon_engine.build. fold (engine_periods df). fold (engine_categories df).
  rewrite engine_validate_ok by assumption. cbn [bind]. rewrite Hcm. cbn [bind].
  unfold ribbon_engine.bar_generation.
  destruct (engine_bar_loop_ok gap bar_width color_map sort_ascending show_legend
              (ribbon_engine.rows df) (enumerate (engine_periods df)) (∅, []))
    as ([coords fig] & Hbars); [auto|].
  rewrite Hbars. cbn [bind].
  apply engine_bar_loop in Hbars as (Hin & Hout & _);
    [|rewrite map_snd_enumerate; apply NoDup_engine_periods].
  rewrite map_snd_enumerate in Hin, Hout.
  destruct (engine_ribbon_generation_ok bar_width color_map coords
              (engine_periods df) (engine_categories df) fig) as [fig' ->].
  - intros p Hp. destruct (Hin p Hp) as [_ ->]. eauto.
  - intros p here cat Hp Hcat.
    destruct (in_dec string_dec p (engine_periods df)) as [Hper|Hper].
    + destruct (Hin p Hper) as [_ Hc]. rewrite Hc in Hp. injection Hp as <-.
      apply segments_map_is_Some in Hcat as [(v & y & Hseg)|[? Hemp]];
        [|rewrite lookup_empty in Hemp; discriminate].
      unfold engine_segments in Hseg.
      assert (Hcv : In (cat, v) (positives (sorted (row_leb sort_ascending)
                                              (rows_of p (ribbon_engine.rows df)))))
        by (eapply in_stack; eauto).
      apply in_positives_period in Hcv as (r & Hr & _ & <- & _). auto.
    + destruct (Hout p Hper) as [_ Hc]. rewrite Hc, lookup_empty in Hp. discriminate.
  - cbn [bind]. eauto.
Qed.

(** ** employee_hours_chart *)

Lemma nstack_keys gap y l : map (fun s => (s.1.1, s.1.2)) (nstack gap y l) = l.
Proof.
  revert y. induction l as [|[c v] l IH]; intros y; simpl; [reflexivity|].
  now rewrite IH.
Qed.

Lemma in_nstack gap y l c v :
  In (c, v) l <-> exists ys, In (c, v, ys) (nstack gap y l).
Proof.
  rewrite <- (nstack_keys gap y l) at 1. rewrite in_map_iff. split.
  - intros ([[c' v'] ys] & [= <- <-] & Hin). eauto.
  - intros (ys & Hin). exists (c, v, ys). auto.
Qed.

Section HoursBars.
Variable gap : Q.
Variable colors : gmap string string.
Variable rows : list (Row string).

Let add_bar := employee_hours_chart.add_bar gap colors.
Let body := employee_hours_chart.period_bars gap colors rows.
Let segs := hours_segments gap rows.

Lemma hours_add_bar_loop idx p (l : list (Row string)) y here fig st' :
  for_each (add_bar idx p) l (y, here, fig) = Ok st' ->
  st'.1.2 = segments_map nadd (nstack gap y (map row_key l)) here /\
  (forall q, bars_at q st'.2 =
             bars_at q fig ++ (if decide (p = q) then nstack gap y (map row_key l) else [])) /\
  (forall t, In t st'.2 -> In t fig \/ is_bar t).
Proof.
  revert y here fig. induction l as [|r l IH]; intros y here fig Hrun.
  - simpl in Hrun. injection Hrun as <-. simpl. split; [reflexivity|].
    split; [|auto]. intros q. destruct (decide (p = q)); now rewrite app_nil_r.
  - apply for_each_cons_ok in Hrun as ([[y1 here1] fig1] & Hstep & Hrest).
    unfold add_bar, employee_hours_chart.add_bar in Hstep.
    destruct (colors !! category r) as [color|]; [|discriminate].
    injection Hstep as <- <- <-.
    apply IH in Hrest as (Hhere & Hbars & Hfig). split; [exact Hhere|]. split.
    + intros q. rewrite Hbars, bars_at_app, <- app_assoc. f_equal.
      simpl. destruct (decide (p = q)); reflexivity.
    + intros t Ht. apply Hfig in Ht as [Ht|Ht]; [|now right].
      apply in_app_or in Ht as [Ht|[<-|[]]]; [now left | now right].
Qed.

Lemma hours_add_bar_loop_ok idx p (l : list (Row string)) st :
  (forall r, In r l -> is_Some (colors !! category r)) ->
  exists st', for_each (add_bar idx p) l st = Ok st'.
Proof.
  revert st. induction l as [|r l IH]; intros [[y here] fig] Hcol; simpl; [eauto|].
  unfold add_bar at 1, employee_hours_chart.add_bar.
  destruct (Hcol r) as [color ->]; [now left|]. simpl.
  apply IH. intros. apply Hcol. now right.
Qed.

Lemma hours_bar_loop (ips : list (nat * string)) coords fig coords' fig' :
  for_each body ips (coords, fig) = Ok (coords', fig') ->
  List.NoDup (map snd ips) ->
  (forall q, In q (map snd ips) ->
     bars_at q fig' = bars_at q fig ++ segs q /\
     coords' !! q = Some (segments_map nadd (segs q) ∅)) /\
  (forall q, ~ In q (map snd ips) ->
     bars_at q fig' = bars_at q fig /\ coords' !! q = coords !! q) /\
  (forall t, In t fig' -> In t fig \/ is_bar t).
Proof.
  revert coords fig. induction ips as [|[i p] ips IH]; intros coords fig Hrun Hnd.
  - simpl in Hrun. injection Hrun as <- <-. simpl. split; [tauto|]. split; auto.
  - apply for_each_cons_ok in Hrun as ([coords1 fig1] & Hstep & Hrest).
    simpl in Hnd. apply List.NoDup_cons_iff in Hnd as [Hp Hnd].
    apply IH in Hrest as (Hin & Hout & Hfig); [|assumption]. clear IH.
    unfold body, employee_hours_chart.period_bars in Hstep.
    destruct (for_each _ _ _) as [[[y1 here1] f1]|] eqn:Hinner in Hstep; [|discriminate].
    simpl in Hstep. injection Hstep as <- <-.
    apply hours_add_bar_loop in Hinner as (Hhere & Hbars & Hf1). simpl in Hhere, Hbars, Hf1.
    split; [|split].
    + intros q Hq. simpl in Hq. destruct Hq as [<-|Hq].
      * destruct (Hout _ Hp) as [-> ->]. rewrite Hbars, decide_True by reflexivity.
        rewrite lookup_insert_eq, Hhere. auto.
      * destruct (Hin _ Hq) as [-> ->]. rewrite Hbars.
        rewrite decide_False by (intros ->; contradiction).
        now rewrite app_nil_r.
    + intros q Hq. simpl in Hq. destruct (Hout q) as [-> ->]; [tauto|].
      rewrite Hbars, decide_False by tauto. rewrite app_nil_r.
      rewrite lookup_insert_ne by tauto. auto.
    + intros t Ht. apply Hfig in Ht as [Ht|Ht]; [|now right]. now apply Hf1.
Qed.

Lemma hours_bar_loop_ok (ips : list (nat * string)) st :
  (forall r, In r rows -> is_Some (colors !! category r)) ->
  exists st', for_each body ips st = Ok st'.
Proof.
  intros Hcol. destruct (for_each_total body (fun _ => True) ips) with (s := st)
    as (st' & Hst' & _); [|exact I|eauto].
  intros [coords fig] [i p] _ _. unfold body, employee_hours_chart.period_bars.
  edestruct (hours_add_bar_loop_ok i p) as [st1 ->].
  - intros r Hin. apply in_sorted, in_rows_of in Hin as [Hin _]. now apply Hcol.
  - simpl. eauto.
Qed.

End HoursBars.

Section HoursRibbons.
Variable colors : gmap string string.
Variable coords : gmap string (gmap string (number * number)).

Lemma hours_add_ribbon_emits i p1 p2 fig cat fig' :
  employee_hours_chart.add_ribbon colors coords i p1 p2 fig cat = Ok fig' ->
  fig' = fig ++ hours_ribbon colors coords i p1 p2 cat.
Proof.
  unfold employee_hours_chart.add_ribbon, employee_hours_chart.coords_at, hours_ribbon.
  destruct (coords !! p1) as [c1|]; simpl; [|discriminate].
  destruct (c1 !! cat) as [[y1_b y1_t]|]; simpl.
  - destruct (coords !! p2) as [c2|]; simpl; [|discriminate].
    destruct (c2 !! cat) as [[y2_b y2_t]|]; simpl.
    + destruct (colors !! cat); [|discriminate]. now intros [= <-].
    + intros [= <-]. now rewrite app_nil_r.
  - intros [= <-]. now rewrite app_nil_r.
Qed.

Lemma hours_ribbon_generation_emits periods categories fig fig' :
  employee_hours_chart.ribbon_generation colors coords periods categories fig
    = Ok fig' ->
  fig' = fig ++
         flat_map (fun '(i, (p1, p2)) =>
                     flat_map (hours_ribbon colors coords i p1 p2) categories)
           (adjacent periods).
Proof.
  unfold employee_hours_chart.ribbon_generation. intros Hrun.
  eapply (for_each_emits _ (fun f => f)) in Hrun; [exact Hrun|].
  intros f [i [p1 p2]] f' _ Hinner.
  eapply (for_each_emits _ (fun f => f)) in Hinner; [exact Hinner|].
  intros f1 cat f2 _. apply hours_add_ribbon_emits.
Qed.

Lemma hours_ribbon_generation_ok periods categories fig :
  (forall p, In p periods -> is_Some (coords !! p)) ->
  (forall p here cat, coords !! p = Some here -> is_Some (here !! cat) ->
                      is_Some (colors !! cat)) ->
  exists fig',
    employee_hours_chart.ribbon_generation colors coords periods categories fig
      = Ok fig'.
Proof.
  intros Hper Hcol. unfold employee_hours_chart.ribbon_generation.
  destruct (for_each_total
              (fun fig '(i, (p1, p2)) =>
                 for_each (employee_hours_chart.add_ribbon colors coords i p1 p2)
                   categories fig)
              (fun _ => True) (adjacent periods)) with (s := fig)
    as (fig' & Hfig' & _); [|exact I|eauto].
  intros f [i [p1 p2]] _ Hadj. apply in_adjacent in Hadj as [H1 H2].
  apply for_each_total; [|exact I].
  intros f1 cat _ _.
  unfold employee_hours_chart.add_ribbon, employee_hours_chart.coords_at.
  destruct (Hper p1) as [c1 Hc1]; [eapply list_elem_of_In, list_elem_of_lookup_2; eassumption|].
  destruct (Hper p2) as [c2 Hc2]; [eapply list_elem_of_In, list_elem_of_lookup_2; eassumption|].
  rewrite Hc1. simpl. destruct (c1 !! cat) as [[y1_b y1_t]|] eqn:E1; [|eauto].
  rewrite Hc2. simpl. destruct (c2 !! cat) as [[y2_b y2_t]|] eqn:E2; [|eauto].
  destruct (Hcol p1 c1 cat Hc1) as [col ->]; [rewrite E1; eauto | eauto].
Qed.

End HoursRibbons.

Lemma hours_ribbon_scatter colors coords i p1 p2 cat t :
  In t (hours_ribbon colors coords i p1 p2 cat) -> ~ is_bar t.
Proof.
  unfold hours_ribbon.
  destruct (coords !! p1 ≫= _) as [[? ?]|]; [|intros []].
  destruct (coords !! p2 ≫= _) as [[? ?]|]; [|intros []].
  destruct (colors !! cat); [|intros []].
  intros [<-|[]]. auto.
Qed.

Lemma in_hours_periods df p : In p (hours_periods df) <-> In p (map period df).
Proof. apply in_unique. Qed.

Lemma in_hours_categories df c : In c (hours_categories df) <-> In c (map category df).
Proof. apply in_unique. Qed.

(** [employee_hours_chart.create_ribbon_chart] never raises, and this is
    what it returns. *)
Lemma hours_build_spec df gap :
  exists colors coords fig,
    employee_hours_chart.build df gap = Ok (coords, fig) /\
    cycle_palette employee_hours_chart.Prism (hours_categories df) = Ok colors /\
    (forall c, is_Some (colors !! c) <-> In c (hours_categories df)) /\
    (forall p, bars_at p fig = hours_segments gap df p) /\
    (forall p, In p (hours_periods df) ->
       coords !! p = Some (segments_map nadd (hours_segments gap df p) ∅)) /\
    (forall p, ~ In p (hours_periods df) -> coords !! p = None) /\
    (forall t, ~ is_bar t ->
       (In t fig <->
        In t (flat_map
                (fun '(i, (p1, p2)) =>
                   flat_map (hours_ribbon colors coords i p1 p2) (hours_categories df))
                (adjacent (hours_periods df))))).
Proof.
  unfold employee_hours_chart.build.
  fold (hours_periods df). fold (hours_categories df).
  destruct (cycle_palette_ok employee_hours_chart.Prism (hours_categories df))
    as (colors & Hcm & Hdom); [discriminate|].
  assert (Hcover : forall r, In r df -> is_Some (colors !! category r)).
  { intros r Hr. apply Hdom, in_hours_categories. now apply in_map. }
  rewrite Hcm. cbn [bind]. unfold employee_hours_chart.bar_generation.
  destruct (hours_bar_loop_ok gap colors df (enumerate (hours_periods df)) (∅, []))
    as ([coords fig] & Hbars); [exact Hcover|].
  rewrite Hbars. cbn [bind].
  apply hours_bar_loop in Hbars as (Hin & Hout & Hfig);
    [|rewrite map_snd_enumerate; apply NoDup_unique].
  rewrite map_snd_enumerate in Hin, Hout.
  destruct (hours_ribbon_generation_ok colors coords (hours_periods df)
              (hours_categories df) fig) as [fig' Hrib].
  { intros p Hp. destruct (Hin p Hp) as [_ ->]. eauto. }
  { intros p here cat Hp Hcat.
    destruct (in_dec string_dec p (hours_periods df)) as [Hper|Hper].
    - destruct (Hin p Hper) as [_ Hc]. rewrite Hc in Hp. injection Hp as <-.
      apply segments_map_is_Some in Hcat as [(v & y & Hseg)|[? Hemp]];
        [|rewrite lookup_empty in Hemp; discriminate].
      unfold hours_segments in Hseg.
      assert (Hcv : In (cat, v) (map row_key (sorted value_leb (rows_of p df))))
        by (eapply in_nstack; eauto).
      apply in_map_iff in Hcv as (r & [= <- _] & Hr).
      apply in_sorted, in_rows_of in Hr as [Hr _]. auto.
    - destruct (Hout p Hper) as [_ Hc]. rewrite Hc, lookup_empty in Hp. discriminate. }
  rewrite Hrib. cbn [bind]. exists colors, coords, fig'.
  split; [reflexivity|]. split; [reflexivity|]. split; [exact Hdom|].
  apply hours_ribbon_generation_emits in Hrib. subst fig'.
  set (ribbons := flat_map _ (adjacent (hours_periods df))).
  assert (Hrib : forall t, In t ribbons -> ~ is_bar t).
  { intros t Ht. apply in_flat_map in Ht as ([i [p1 p2]] & _ & Ht).
    apply in_flat_map in Ht as (cat & _ & Ht). eapply hours_ribbon_scatter, Ht. }
  split; [|split; [|split]].
  - intros p. rewrite bars_at_app, (bars_at_no_bar p ribbons Hrib), app_nil_r.
    destruct (in_dec string_dec p (hours_periods df)) as [Hp|Hp].
    + now destruct (Hin p Hp) as [-> _].
    + destruct (Hout p Hp) as [-> _]. unfold hours_segments.
      rewrite rows_of_absent; [reflexivity|]. now rewrite <- in_hours_periods.
  - intros p Hp. now destruct (Hin p Hp) as [_ ->].
  - intros p Hp. destruct (Hout p Hp) as [_ ->]. apply lookup_empty.
  - intros t Ht. rewrite in_app_iff. split; [|auto].
    intros [H|H]; [|exact H]. apply Hfig in H as [[]|H]. contradiction.
Qed.

(** ** Stacks up to equal offsets *)

Lemma stack_map_fst gap y l : map fst (stack gap y l) = l.
Proof.
  revert y. induction l as [|[c v] l IH]; intros y; simpl; [reflexivity|].
  now rewrite IH.
Qed.

Lemma seg_eq_total_height s s' :
  Forall2 seg_eq s s' -> map fst s = map fst s'.
Proof.
  induction 1 as [|a b s s' [Hab _] _ IH]; simpl; [reflexivity|]. now rewrite Hab, IH.
Qed.

(** ** ribbon_chart *)

(** The entries with a positive value are the stack of the positive rows,
    up to the zeros added to the running offset. *)
Lemma gallery_entries_stack gap (l : list (Row Z)) y y' :
  (y == y')%Q ->
  exists segs,
    List.filter (fun s => gt0 s.1.2) (gallery_entries gap (Num y) l) = map lift segs /\
    Forall2 seg_eq segs (stack gap y' (positives l)).
Proof.
  revert y y'. induction l as [|r l IH]; intros y y' Hy; simpl.
  - exists []. split; [reflexivity | constructor].
  - destruct (value r) as [v|] eqn:Hv; simpl.
    + destruct (Qle_bool v 0) eqn:Hle; simpl.
      * destruct (IH (y + 0)%Q y') as (segs & Hs & Heq); [rewrite Hy; ring|].
        exists segs. auto.
      * destruct (IH (y + (v + gap))%Q (y' + (v + gap))%Q) as (segs & Hs & Heq);
          [now rewrite Hy|].
        exists ((category r, v, y) :: segs). split.
        -- simpl. unfold lift at 1. simpl. now rewrite Hs.
        -- constructor; [split; [reflexivity | exact Hy] | exact Heq].
    + destruct (IH (y + 0)%Q y') as (segs & Hs & Heq); [rewrite Hy; ring|].
      exists segs. auto.
Qed.

Section GalleryBars.
Variable gap : Q.
Variable colors : gmap string string.
Variable df_norm : list (Row Z).

Let add_bar := ribbon_chart.add_bar gap colors.
Let body := ribbon_chart.period_bars gap colors df_norm.
Let segs := gallery_segments gap df_norm.

Lemma gallery_add_bar_loop p (l : list (Row Z)) st st' :
  for_each (add_bar p) l st = Ok st' ->
  ribbon_chart.here st' =
    segments_map nadd (gallery_entries gap (ribbon_chart.current_y st) l)
      (ribbon_chart.here st) /\
  exists ext,
    ribbon_chart.fig st' = ribbon_chart.fig st ++ ext /\
    (forall t, In t ext -> is_bar t) /\
    (forall q, bars_at q ext =
               if decide (p = q)
               then List.filter (fun s => gt0 s.1.2)
                      (gallery_entries gap (ribbon_chart.current_y st) l)
               else []) /\
    ribbon_chart.traces_added st' = (ribbon_chart.traces_added st + length ext)%nat.
Proof.
  revert st. induction l as [|r l IH]; intros st Hrun.
  - simpl in Hrun. injection Hrun as <-. simpl. split; [reflexivity|].
    exists []. rewrite app_nil_r. split; [reflexivity|]. split; [intros ? []|].
    split; [|simpl; lia]. intros q. now destruct (decide (p = q)).
  - apply for_each_cons_ok in Hrun as (st1 & Hstep & Hrest).
    apply IH in Hrest as (Hhere & ext & Hfig & Hbar & Hbars & Hn). clear IH.
    unfold add_bar, ribbon_chart.add_bar in Hstep.
    simpl gallery_entries. simpl segments_map.
    destruct (gt0 (value r)) eqn:Hpos.
    + destruct (colors !! category r) as [color|]; [|discriminate].
      injection Hstep as <-. simpl in *. split; [exact Hhere|].
      eexists (_ :: ext). split; [rewrite Hfig, <- app_assoc; reflexivity|].
      split; [intros t [<-|Ht]; [exact I | auto]|]. split.
      * intros q. simpl. rewrite Hbars, Hpos.
        destruct (decide (p = q)); reflexivity.
      * simpl. lia.
    + injection Hstep as <-. simpl in *. split; [exact Hhere|].
      exists ext. split; [exact Hfig|]. split; [exact Hbar|]. split; [|exact Hn].
      intros q. rewrite Hbars, Hpos. reflexivity.
Qed.

Lemma gallery_add_bar_loop_ok p (l : list (Row Z)) st :
  (forall r, In r l -> is_Some (colors !! category r)) ->
  exists st', for_each (add_bar p) l st = Ok st'.
Proof.
  revert st. induction l as [|r l IH]; intros st Hcol; simpl; [eauto|].
  unfold add_bar at 1, ribbon_chart.add_bar.
  destruct (gt0 (value r)).
  - destruct (Hcol r) as [color ->]; [now left|]. simpl.
    apply IH. intros. apply Hcol. now right.
  - simpl. apply IH. intros. apply Hcol. now right.
Qed.

Lemma gallery_bar_loop (ps : list Z) coords st coords' st' :
  for_each body ps (coords, st) = Ok (coords', st') ->
  List.NoDup ps ->
  exists ext,
    ribbon_chart.fig st' = ribbon_chart.fig st ++ ext /\
    (forall t, In t ext -> is_bar t) /\
    (forall q, In q ps ->
       bars_at q ext = List.filter (fun s => gt0 s.1.2) (segs q) /\
       coords' !! q = Some (segments_map nadd (segs q) ∅)) /\
    (forall q, ~ In q ps -> bars_at q ext = [] /\ coords' !! q = coords !! q) /\
    ribbon_chart.traces_added st' = (ribbon_chart.traces_added st + length ext)%nat.
Proof.
  revert coords st. induction ps as [|p ps IH]; intros coords st Hrun Hnd.
  - simpl in Hrun. injection Hrun as <- <-. exists []. rewrite app_nil_r.
    split; [reflexivity|]. split; [intros ? []|]. split; [intros ? []|].
    split; [auto | simpl; lia].
  - apply for_each_cons_ok in Hrun as ([coords1 st1] & Hstep & Hrest).
    apply List.NoDup_cons_iff in Hnd as [Hp Hnd].
    apply IH in Hrest as (ext2 & Hfig2 & Hbar2 & Hin & Hout & Hn2); [|assumption].
    clear IH. unfold body, ribbon_chart.period_bars in Hstep.
    destruct (for_each _ _ _) as [st0|] eqn:Hinner in Hstep; [|discriminate].
    simpl in Hstep. injection Hstep as <- <-.
    apply gallery_add_bar_loop in Hinner as (Hhere & ext1 & Hfig1 & Hbar1 & Hbars1 & Hn1).
    simpl in Hhere, Hfig1, Hbars1, Hn1.
    exists (ext1 ++ ext2). split; [rewrite Hfig2, Hfig1, <- app_assoc; reflexivity|].
    split; [intros t Ht; apply in_app_or in Ht as [Ht|Ht]; auto|].
    split; [|split].
    + intros q [<-|Hq].
      * rewrite bars_at_app, Hbars1, decide_True by reflexivity.
        destruct (Hout _ Hp) as [-> ->]. rewrite app_nil_r.
        rewrite lookup_insert_eq, Hhere. auto.
      * rewrite bars_at_app, Hbars1, decide_False by (intros ->; contradiction).
        destruct (Hin _ Hq) as [-> ->]. auto.
    + intros q Hq. simpl in Hq.
      rewrite bars_at_app, Hbars1, decide_False by tauto.
      destruct (Hout q) as [-> ->]; [tauto|].
      rewrite lookup_insert_ne by tauto. auto.
    + rewrite Hn2, Hn1, length_app. lia.
Qed.

Lemma gallery_bar_loop_ok (ps : list Z) st :
  (forall r, In r df_norm -> is_Some (colors !! category r)) ->
  exists st', for_each body ps st = Ok st'.
Proof.
  intros Hcol. destruct (for_each_total body (fun _ => True) ps) with (s := st)
    as (st' & Hst' & _); [|exact I|eauto].
  intros [coords st0] p _ _. unfold body, ribbon_chart.period_bars.
  edestruct (gallery_add_bar_loop_ok p) as [st1 ->].
  - intros r Hin. apply in_sorted, in_rows_of in Hin as [Hin _]. now apply Hcol.
  - simpl. eauto.
Qed.

End GalleryBars.

Section GalleryRibbons.
Variable colors : gmap string string.
Variable coords : gmap Z (gmap string (number * number)).

Lemma gallery_add_ribbon_emits p1 p2 st cat st' :
  ribbon_chart.add_ribbon colors coords p1 p2 st cat = Ok st' ->
  st'.1 = st.1 ++ gallery_ribbon colors coords p1 p2 cat /\
  st'.2 = (st.2 + length (gallery_ribbon colors coords p1 p2 cat))%nat.
Proof.
  unfold ribbon_chart.add_ribbon, ribbon_chart.coords_at_cat, ribbon_chart.coords_at,
    gallery_ribbon.
  destruct (coords !! p1) as [c1|]; simpl; [|discriminate].
  destruct (c1 !! cat) as [[y1_b y1_t]|]; simpl; [|discriminate].
  destruct (coords !! p2) as [c2|]; simpl; [|discriminate].
  destruct (c2 !! cat) as [[y2_b y2_t]|]; simpl; [|discriminate].
  destruct (is0 (nsub y1_t y1_b) && is0 (nsub y2_t y2_b)).
  - intros [= <-]. destruct (colors !! cat); simpl; rewrite app_nil_r; split; auto; lia.
  - destruct (colors !! cat); [|discriminate]. intros [= <-]. simpl. auto.
Qed.

Lemma gallery_ribbon_generation_emits periods categories st st' :
  ribbon_chart.ribbon_generation colors coords periods categories st = Ok st' ->
  st'.1 = st.1 ++
          flat_map (fun '(_, (p1, p2)) =>
                      flat_map (gallery_ribbon colors coords p1 p2) categories)
            (adjacent periods).
Proof.
  unfold ribbon_chart.ribbon_generation. intros Hrun.
  eapply (for_each_emits _ fst) in Hrun; [exact Hrun|].
  intros f [i [p1 p2]] f' _ Hinner.
  eapply (for_each_emits _ fst) in Hinner; [exact Hinner|].
  intros f1 cat f2 _ H. now apply gallery_add_ribbon_emits in H.
Qed.

Lemma gallery_ribbon_generation_count periods categories st st' :
  ribbon_chart.ribbon_generation colors coords periods categories st = Ok st' ->
  exists ext, st'.1 = st.1 ++ ext /\ st'.2 = (st.2 + length ext)%nat.
Proof.
  unfold ribbon_chart.ribbon_generation.
  generalize (adjacent periods). intros l. revert st.
  induction l as [|[i [p1 p2]] l IH]; intros st Hrun.
  - simpl in Hrun. injection Hrun as <-. exists []. rewrite app_nil_r. simpl. auto.
  - apply for_each_cons_ok in Hrun as (st1 & Hstep & Hrest).
    apply IH in Hrest as (ext2 & Hf2 & Hn2). clear IH.
    assert (Hinner : exists ext, st1.1 = st.1 ++ ext /\ st1.2 = (st.2 + length ext)%nat).
    { clear Hf2 Hn2. revert st Hstep. induction categories as [|cat cats IHc]; intros st Hstep.
      - simpl in Hstep. injection Hstep as <-. exists []. rewrite app_nil_r. simpl. auto.
      - apply for_each_cons_ok in Hstep as (st0 & H0 & Hrest).
        apply IHc in Hrest as (e2 & He2 & Hl2).
        apply gallery_add_ribbon_emits in H0 as [He1 Hl1].
        eexists (_ ++ e2). rewrite He2, He1, <- app_assoc. split; [reflexivity|].
        rewrite Hl2, Hl1, length_app. lia. }
    destruct Hinner as (ext1 & Hf1 & Hn1).
    exists (ext1 ++ ext2). rewrite Hf2, Hf1, <- app_assoc. split; [reflexivity|].
    rewrite Hn2, Hn1, length_app. lia.
Qed.

Lemma gallery_ribbon_generation_ok periods categories st :
  (forall p cat, In p periods -> In cat categories ->
     exists here, coords !! p = Some here /\ is_Some (here !! cat)) ->
  (forall cat, In cat categories -> is_Some (colors !! cat)) ->
  exists st', ribbon_chart.ribbon_generation colors coords periods categories st = Ok st'.
Proof.
  intros Hper Hcol. unfold ribbon_chart.ribbon_generation.
  destruct (for_each_total
              (fun st '(_, (p1, p2)) =>
                 for_each (ribbon_chart.add_ribbon colors coords p1 p2) categories st)
              (fun _ => True) (adjacent periods)) with (s := st)
    as (st' & Hst' & _); [|exact I|eauto].
  intros f [i [p1 p2]] _ Hadj. apply in_adjacent in Hadj as [H1 H2].
  apply for_each_total; [|exact I].
  intros f1 cat _ Hcat.
  unfold ribbon_chart.add_ribbon, ribbon_chart.coords_at_cat, ribbon_chart.coords_at.
  destruct (Hper p1 cat) as (c1 & -> & [[y1_b y1_t] E1]);
    [eapply list_elem_of_In, list_elem_of_lookup_2; eassumption | assumption |].
  destruct (Hper p2 cat) as (c2 & -> & [[y2_b y2_t] E2]);
    [eapply list_elem_of_In, list_elem_of_lookup_2; eassumption | assumption |].
  simpl. rewrite E1. simpl. rewrite E2. simpl.
  destruct (Hcol cat Hcat) as [col ->].
  destruct (is0 (nsub y1_t y1_b) && is0 (nsub y2_t y2_b)); eauto.
Qed.

End GalleryRibbons.

Lemma reindex_row_period df p c : period (ribbon_chart.reindex_row df p c) = p.
Proof. unfold ribbon_chart.reindex_row. now destruct (List.find _ _). Qed.

Lemma reindex_row_category df p c : category (ribbon_chart.reindex_row df p c) = c.
Proof. unfold ribbon_chart.reindex_row. now destruct (List.find _ _). Qed.

Lemma in_reindex df periods categories r :
  In r (flat_map (fun p => map (ribbon_chart.reindex_row df p) categories) periods) <->
  exists p c, In p periods /\ In c categories /\ r = ribbon_chart.reindex_row df p c.
Proof.
  rewrite in_flat_map. split.
  - intros (p & Hp & Hr). apply in_map_iff in Hr as (c & <- & Hc). eauto.
  - intros (p & c & Hp & Hc & ->). exists p. split; [assumption|].
    apply in_map_iff. eauto.
Qed.

Lemma in_gallery_periods df p : In p (gallery_periods df) <-> In p (map period df).
Proof. unfold gallery_periods. now rewrite in_sorted, in_unique. Qed.

Lemma in_gallery_categories df c :
  In c (gallery_categories df) <-> In c (map category df).
Proof. unfold gallery_categories. now rewrite in_sorted, in_unique. Qed.

Lemma NoDup_gallery_periods df : List.NoDup (gallery_periods df).
Proof. apply NoDup_sorted, NoDup_unique. Qed.

Lemma gallery_ribbon_scatter colors coords p1 p2 cat t :
  In t (gallery_ribbon colors coords p1 p2 cat) -> ~ is_bar t.
Proof.
  unfold gallery_ribbon.
  destruct (coords !! p1 ≫= _) as [[? ?]|]; [|intros []].
  destruct (coords !! p2 ≫= _) as [[? ?]|]; [|intros []].
  destruct (colors !! cat); [|intros []].
  destruct (_ && _); [intros []|]. intros [<-|[]]. auto.
Qed.

(** On a frame with one row per (period, category) [add_ribbon_scenario]
    returns, and this is what it appends to the figure. *)
Lemma gallery_build_spec fig0 df gap :
  NoDup (map (fun r => (period r, category r)) df) ->
  exists df_norm colors coords new,
    ribbon_chart.reindex df (gallery_periods df) (gallery_categories df) = Ok df_norm /\
    (forall c, is_Some (colors !! c) <-> In c (gallery_categories df)) /\
    ribbon_chart.build fig0 df gap = Ok (coords, fig0 ++ new, length new) /\
    (forall r, In r df_norm <->
       exists p c, In p (gallery_periods df) /\ In c (gallery_categories df) /\
                   r = ribbon_chart.reindex_row df p c) /\
    (forall p, bars_at p new =
               List.filter (fun s => gt0 s.1.2) (gallery_segments gap df_norm p)) /\
    (forall p, In p (gallery_periods df) ->
       coords !! p = Some (segments_map nadd (gallery_segments gap df_norm p) ∅)) /\
    (forall p, ~ In p (gallery_periods df) -> coords !! p = None) /\
    (forall p cat, In p (gallery_periods df) -> In cat (gallery_categories df) ->
       exists here, coords !! p = Some here /\ is_Some (here !! cat)) /\
    (forall t, ~ is_bar t ->
       (In t new <->
        In t (flat_map
                (fun '(_, (p1, p2)) =>
                   flat_map (gallery_ribbon colors coords p1 p2) (gallery_categories df))
                (adjacent (gallery_periods df))))).
Proof.
  intros Hnd. unfold ribbon_chart.build.
  fold (gallery_periods df). fold (gallery_categories df).
  unfold ribbon_chart.reindex. rewrite bool_decide_eq_true_2 by assumption.
  set (df_norm := flat_map _ (gallery_periods df)). cbn [bind].
  assert (Hnorm : forall r, In r df_norm <->
            exists p c, In p (gallery_periods df) /\ In c (gallery_categories df) /\
                        r = ribbon_chart.reindex_row df p c) by apply in_reindex.
  destruct (cycle_palette_ok ribbon_chart.D3 (gallery_categories df))
    as (colors & Hcm & Hdom); [discriminate|].
  rewrite Hcm. cbn [bind]. unfold ribbon_chart.bar_generation.
  destruct (gallery_bar_loop_ok gap colors df_norm (gallery_periods df)
              (∅, ribbon_chart.mkState (Num 0) ∅ fig0 ∅ 0)) as ([coords st] & Hbars).
  { intros r Hr. apply Hnorm in Hr as (p & c & _ & Hc & ->).
    rewrite reindex_row_category. now apply Hdom. }
  rewrite Hbars. cbn [bind].
  apply gallery_bar_loop in Hbars as (ext & Hfig & Hbar & Hin & Hout & Hn);
    [|apply NoDup_gallery_periods].
  simpl in Hfig, Hn.
  assert (Hentries : forall p cat, In p (gallery_periods df) ->
            In cat (gallery_categories df) ->
            exists here, coords !! p = Some here /\ is_Some (here !! cat)).
  { intros p cat Hp Hcat. destruct (Hin p Hp) as [_ Hc]. eexists. split; [exact Hc|].
    apply segments_map_is_Some. left. unfold gallery_segments.
    assert (Hr : In (ribbon_chart.reindex_row df p cat)
                   (sorted (row_leb true) (rows_of p df_norm))).
    { apply in_sorted, in_rows_of. split; [|apply reindex_row_period].
      apply Hnorm. eauto. }
    revert Hr. generalize (sorted (row_leb true) (rows_of p df_norm)) (Num 0).
    intros l. induction l as [|r l IH]; intros y [].
    - subst r. simpl. rewrite reindex_row_category. eauto.
    - destruct (IH (nadd y (if gt0 (value r) then nadd (value r) (Num gap) else Num 0)))
        as (v & z & Hz); [assumption|]. exists v, z. now right. }
  destruct (gallery_ribbon_generation_ok colors coords (gallery_periods df)
              (gallery_categories df) (ribbon_chart.fig st, ribbon_chart.traces_added st))
    as [[fig' n'] Hrib]; [exact Hentries | intros; now apply Hdom |].
  rewrite Hrib. cbn [bind].
  pose proof (gallery_ribbon_generation_count _ _ _ _ _ _ Hrib) as (ext' & Hf' & Hn').
  apply gallery_ribbon_generation_emits in Hrib. simpl in Hrib, Hf', Hn'.
  assert (ext' = flat_map (fun '(_, (p1, p2)) =>
                     flat_map (gallery_ribbon colors coords p1 p2) (gallery_categories df))
                   (adjacent (gallery_periods df))) as Hext
    by (rewrite Hf' in Hrib; now apply app_inv_head in Hrib).
  exists df_norm, colors, coords, (ext ++ ext').
  split; [reflexivity|]. split; [exact Hdom|]. split.
  { simpl. rewrite Hf', Hfig, Hn', Hn, <- app_assoc, length_app. reflexivity. }
  split; [exact Hnorm|].
  assert (Hrib' : forall t, In t ext' -> ~ is_bar t).
  { intros t Ht. rewrite Hext in Ht. apply in_flat_map in Ht as ([i [p1 p2]] & _ & Ht).
    apply in_flat_map in Ht as (cat & _ & Ht). eapply gallery_ribbon_scatter, Ht. }
  split; [|split; [|split; [|split]]].
  - intros p. rewrite bars_at_app, (bars_at_no_bar p ext' Hrib'), app_nil_r.
    destruct (in_dec Z.eq_dec p (gallery_periods df)) as [Hp|Hp].
    + now destruct (Hin p Hp) as [-> _].
    + destruct (Hout p Hp) as [-> _]. unfold gallery_segments.
      rewrite rows_of_absent; [reflexivity|].
      intros Hm. apply in_map_iff in Hm as (r & <- & Hr).
      apply Hnorm in Hr as (p' & c & Hp' & _ & ->).
      now rewrite reindex_row_period in Hp.
  - intros p Hp. now destruct (Hin p Hp) as [_ ->].
  - intros p Hp. destruct (Hout p Hp) as [_ ->]. apply lookup_empty.
  - exact Hentries.
  - intros t Ht. rewrite in_app_iff, <- Hext. split; [|auto].
    intros [H|H]; [|exact H]. apply Hbar in H. contradiction.
Qed.

(** ** Membership of a ribbon in the figure *)

Lemma bind_lookup_Some {K A : Type} `{Countable K} (coords : gmap K (gmap string A))
  (p : K) (cat : string) (e : A) :
  coords !! p ≫= (.!! cat) = Some e <->
  exists here, coords !! p = Some here /\ here !! cat = Some e.
Proof.
  destruct (coords !! p) as [here|]; simpl.
  - split; [eauto | now intros (? & [= <-] & ?)].
  - split; [discriminate | now intros (? & [=] & _)].
Qed.

Lemma in_engine_ribbons bar_width color_map coords periods categories
  x1 x2 y1_t y2_t y1_b y2_b col cat :
  In (Scatter x1 x2 y1_t y2_t y1_b y2_b col cat)
    (flat_map (fun '(i, (p1, p2)) =>
                 flat_map (engine_ribbon bar_width color_map coords i p1 p2) categories)
       (adjacent periods)) <->
  exists i p1 p2 c1 c2,
    periods !! i = Some p1 /\ periods !! S i = Some p2 /\ In cat categories /\
    coords !! p1 = Some c1 /\ c1 !! cat = Some (y1_b, y1_t) /\
    coords !! p2 = Some c2 /\ c2 !! cat = Some (y2_b, y2_t) /\
    color_map !! cat = Some col /\
    x1 = (inject_Z (Z.of_nat i) + bar_width / 2)%Q /\
    x2 = (inject_Z (Z.of_nat (i + 1)) - bar_width / 2)%Q.
Proof.
  rewrite in_flat_map. split.
  - intros ([i [p1 p2]] & Hadj & Hin). apply in_adjacent in Hadj as [H1 H2].
    apply in_flat_map in Hin as (cat' & Hcat & Hin). unfold engine_ribbon in Hin.
    destruct (coords !! p1 ≫= _) as [[a1 b1]|] eqn:E1; [|destruct Hin].
    destruct (coords !! p2 ≫= _) as [[a2 b2]|] eqn:E2; [|destruct Hin].
    destruct (color_map !! cat') as [col'|] eqn:E3; [|destruct Hin].
    destruct Hin as [[= <- <- <- <- <- <- <- <-]|[]].
    apply bind_lookup_Some in E1 as (c1 & Hc1 & Hc1'), E2 as (c2 & Hc2 & Hc2').
    exists i, p1, p2, c1, c2. repeat split; assumption.
  - intros (i & p1 & p2 & c1 & c2 & H1 & H2 & Hcat & Hc1 & Hc1' & Hc2 & Hc2' & Hcol & -> & ->).
    exists (i, (p1, p2)). split; [now apply in_adjacent|].
    apply in_flat_map. exists cat. split; [assumption|]. unfold engine_ribbon.
    rewrite Hc1, Hc2. simpl. rewrite Hc1', Hc2', Hcol. now left.
Qed.

Lemma in_hours_ribbons colors coords periods categories
  x1 x2 y1_t y2_t y1_b y2_b col cat :
  In (Scatter x1 x2 y1_t y2_t y1_b y2_b col cat)
    (flat_map (fun '(i, (p1, p2)) =>
                 flat_map (hours_ribbon colors coords i p1 p2) categories)
       (adjacent periods)) <->
  exists i p1 p2 c1 c2,
    periods !! i = Some p1 /\ periods !! S i = Some p2 /\ In cat categories /\
    coords !! p1 = Some c1 /\ c1 !! cat = Some (y1_b, y1_t) /\
    coords !! p2 = Some c2 /\ c2 !! cat = Some (y2_b, y2_t) /\
    colors !! cat = Some col /\
    x1 = (inject_Z (Z.of_nat i) + employee_hours_chart.bar_width / 2)%Q /\
    x2 = (inject_Z (Z.of_nat (i + 1)) - employee_hours_chart.bar_width / 2)%Q.
Proof.
  rewrite in_flat_map. split.
  - intros ([i [p1 p2]] & Hadj & Hin). apply in_adjacent in Hadj as [H1 H2].
    apply in_flat_map in Hin as (cat' & Hcat & Hin). unfold hours_ribbon in Hin.
    destruct (coords !! p1 ≫= _) as [[a1 b1]|] eqn:E1; [|destruct Hin].
    destruct (coords !! p2 ≫= _) as [[a2 b2]|] eqn:E2; [|destruct Hin].
    destruct (colors !! cat') as [col'|] eqn:E3; [|destruct Hin].
    destruct Hin as [[= <- <- <- <- <- <- <- <-]|[]].
    apply bind_lookup_Some in E1 as (c1 & Hc1 & Hc1'), E2 as (c2 & Hc2 & Hc2').
    exists i, p1, p2, c1, c2. repeat split; assumption.
  - intros (i & p1 & p2 & c1 & c2 & H1 & H2 & Hcat & Hc1 & Hc1' & Hc2 & Hc2' & Hcol & -> & ->).
    exists (i, (p1, p2)). split; [now apply in_adjacent|].
    apply in_flat_map. exists cat. split; [assumption|]. unfold hours_ribbon.
    rewrite Hc1, Hc2. simpl. rewrite Hc1', Hc2', Hcol. now left.
Qed.

Lemma in_gallery_ribbons colors coords periods categories
  x1 x2 y1_t y2_t y1_b y2_b col cat :
  In (Scatter x1 x2 y1_t y2_t y1_b y2_b col cat)
    (flat_map (fun '(_, (p1, p2)) =>
                 flat_map (gallery_ribbon colors coords p1 p2) categories)
       (adjacent periods)) <->
  exists i p1 p2 c1 c2,
    periods !! i = Some p1 /\ periods !! S i = Some p2 /\ In cat categories /\
    coords !! p1 = Some c1 /\ c1 !! cat = Some (y1_b, y1_t) /\
    coords !! p2 = Some c2 /\ c2 !! cat = Some (y2_b, y2_t) /\
    colors !! cat = Some col /\
    is0 (nsub y1_t y1_b) && is0 (nsub y2_t y2_b) = false /\
    x1 = (inject_Z p1 + ribbon_chart.bar_width / 2)%Q /\
    x2 = (inject_Z p2 - ribbon_chart.bar_width / 2)%Q.
Proof.
  rewrite in_flat_map. split.
  - intros ([i [p1 p2]] & Hadj & Hin). apply in_adjacent in Hadj as [H1 H2].
    apply in_flat_map in Hin as (cat' & Hcat & Hin). unfold gallery_ribbon in Hin.
    destruct (coords !! p1 ≫= _) as [[a1 b1]|] eqn:E1; [|destruct Hin].
    destruct (coords !! p2 ≫= _) as [[a2 b2]|] eqn:E2; [|destruct Hin].
    destruct (colors !! cat') as [col'|] eqn:E3; [|destruct Hin].
    destruct (is0 (nsub b1 a1) && is0 (nsub b2 a2)) eqn:E4; [destruct Hin|].
    destruct Hin as [[= <- <- <- <- <- <- <- <-]|[]].
    apply bind_lookup_Some in E1 as (c1 & Hc1 & Hc1'), E2 as (c2 & Hc2 & Hc2').
    exists i, p1, p2, c1, c2. repeat split; assumption.
  - intros (i & p1 & p2 & c1 & c2 & H1 & H2 & Hcat & Hc1 & Hc1' & Hc2 & Hc2' & Hcol
            & Hz & -> & ->).
    exists (i, (p1, p2)). split; [now apply in_adjacent|].
    apply in_flat_map. exists cat. split; [assumption|]. unfold gallery_ribbon.
    rewrite Hc1, Hc2. simpl. rewrite Hc1', Hc2', Hcol, Hz. now left.
Qed.

(** * The claims *)

(** ** C9: a missing column *)

Lemma validate_first_missing df required_cols m rest :
  missing_columns df required_cols = m :: rest ->
  ribbon_engine.validate df required_cols =
    Raise (ValueError ("Missing required column: " +:+ m)).
Proof.
  unfold ribbon_engine.validate, missing_columns.
  induction required_cols as [|col cols IH]; simpl; [discriminate|].
  destruct (bool_decide (col ∈ ribbon_engine.columns df)); simpl.
  - exact IH.
  - now intros [= <- _].
Qed.

(** C9, as amended.  When a required column is absent from the frame,
    [create_ribbon_chart] raises a [ValueError] whose message names the
    first absent one, in the order period column, category column, value
    column.  The check is the first step and raises by itself, so the
    function ends with that exception: no coordinate map and no figure
    come out of the run. *)
Theorem C9_missing_column_raises df x_col category_col value_col gap bar_width
  colors sort_ascending show_legend m rest :
  missing_columns df [x_col; category_col; value_col] = m :: rest ->
  ribbon_engine.validate df [x_col; category_col; value_col] =
    Raise (ValueError ("Missing required column: " +:+ m)) /\
  ribbon_engine.build df x_col category_col value_col gap bar_width colors
    sort_ascending show_legend =
    Raise (ValueError ("Missing required column: " +:+ m)) /\
  ribbon_engine.create_ribbon_chart df x_col category_col value_col gap bar_width
    colors sort_ascending show_legend =
    Raise (ValueError ("Missing required column: " +:+ m)).
Proof.
  intros Hm. apply validate_first_missing in Hm.
  unfold ribbon_engine.create_ribbon_chart, ribbon_engine.build.
  rewrite Hm. auto.
Qed.

Lemma C9_missing_column_raises_witness :
  missing_columns (ribbon_engine.mkDataFrame ["Week"; "Employee"] [])
    ["Week"; "Employee"; "Hours"] = ["Hours"] /\
  ribbon_engine.create_ribbon_chart (ribbon_engine.mkDataFrame ["Week"; "Employee"] [])
    "Week" "Employee" "Hours" 2 (2 # 5) ribbon_engine.ColorNone true true =
    Raise (ValueError "Missing required column: Hours").
Proof.
  split; [reflexivity|].
  apply (C9_missing_column_raises (ribbon_engine.mkDataFrame ["Week"; "Employee"] [])
           "Week" "Employee" "Hours" 2 (2 # 5) ribbon_engine.ColorNone true true
           "Hours" []).
  reflexivity.
Defined.

(** C9 as stated fails: with two columns absent the exception names one of
    them only; the other absent column does not occur in its message. *)
Lemma C9_counterexample :
  missing_columns (ribbon_engine.mkDataFrame ["Week"] [])
    ["Week"; "Employee"; "Hours"] = ["Employee"; "Hours"] /\
  ribbon_engine.create_ribbon_chart (ribbon_engine.mkDataFrame ["Week"] [])
    "Week" "Employee" "Hours" 2 (2 # 5) ribbon_engine.ColorNone true true =
    Raise (ValueError "Missing required column: Employee") /\
  String.index 0 "Hours" "Missing required column: Employee" = None.
Proof. repeat split; reflexivity. Qed.

(** ** C10: an explicit colour dict *)

(** C10.  With [colors] a dict, the dict is the colour map as it is.  If
    some row with a positive value has a category the dict lacks, bar
    generation raises a [KeyError] for a category the dict lacks, and so
    does [create_ribbon_chart]; if the dict has an entry for the category
    of every row, [create_ribbon_chart] returns a figure. *)
Theorem C10_color_dict df x_col category_col value_col gap bar_width
  (d : gmap string string) sort_ascending show_legend :
  In x_col (ribbon_engine.columns df) ->
  In category_col (ribbon_engine.columns df) ->
  In value_col (ribbon_engine.columns df) ->
  ribbon_engine.color_setup (ribbon_engine.ColorDict d) (engine_categories df) = Ok d /\
  ((exists r, In r (ribbon_engine.rows df) /\ gt0 (value r) = true /\
              d !! category r = None) ->
   exists cat,
     d !! cat = None /\
     ribbon_engine.bar_generation gap bar_width d sort_ascending show_legend
       (ribbon_engine.rows df) (engine_periods df) = Raise (KeyError cat) /\
     ribbon_engine.create_ribbon_chart df x_col category_col value_col gap bar_width
       (ribbon_engine.ColorDict d) sort_ascending show_legend = Raise (KeyError cat)) /\
  ((forall r, In r (ribbon_engine.rows df) -> is_Some (d !! category r)) ->
   exists fig,
     ribbon_engine.create_ribbon_chart df x_col category_col value_col gap bar_width
       (ribbon_engine.ColorDict d) sort_ascending show_legend = Ok fig).
Proof.
  intros H1 H2 H3. split; [reflexivity|]. split.
  - intros (r & Hr & Hpos & Hd).
    destruct (engine_bar_loop_raise gap bar_width d sort_ascending show_legend
                (ribbon_engine.rows df) (enumerate (engine_periods df)) (∅, []))
      as (cat & Hcat & Hraise).
    { exists r. repeat split; try assumption.
      rewrite map_snd_enumerate. apply in_engine_periods. now apply in_map. }
    exists cat. split; [assumption|]. split; [exact Hraise|].
    unfold ribbon_engine.create_ribbon_chart, ribbon_engine.build.
    fold (engine_periods df). fold (engine_categories df).
    rewrite engine_validate_ok by assumption. cbn [bind ribbon_engine.color_setup].
    unfold ribbon_engine.bar_generation. rewrite Hraise. reflexivity.
  - intros Hcover.
    destruct (engine_build_ok df x_col category_col value_col gap bar_width
                (ribbon_engine.ColorDict d) sort_ascending show_legend)
      as (coords & fig & Hb); [repeat split; assumption|].
    exists fig. unfold ribbon_engine.create_ribbon_chart. now rewrite Hb.
Qed.

Lemma C10_color_dict_witness :
  (exists cat,
     ribbon_engine.create_ribbon_chart
       (ribbon_engine.mkDataFrame ["Week"; "Employee"; "Hours"]
          [mkRow "W1" "A" (Num 3); mkRow "W1" "B" (Num 5)])
       "Week" "Employee" "Hours" 2 (2 # 5)
       (ribbon_engine.ColorDict {["A" := "red"]}) true true = Raise (KeyError cat)) /\
  (exists fig,
     ribbon_engine.create_ribbon_chart
       (ribbon_engine.mkDataFrame ["Week"; "Employee"; "Hours"]
          [mkRow "W1" "A" (Num 3); mkRow "W1" "B" (Num 5)])
       "Week" "Employee" "Hours" 2 (2 # 5)
       (ribbon_engine.ColorDict (<["B" := "blue"]> {["A" := "red"]})) true true = Ok fig).
Proof.
  split.
  - destruct (C10_color_dict
                (ribbon_engine.mkDataFrame ["Week"; "Employee"; "Hours"]
                   [mkRow "W1" "A" (Num 3); mkRow "W1" "B" (Num 5)])
                "Week" "Employee" "Hours" 2 (2 # 5) {["A" := "red"]} true true)
      as (_ & Hraise & _); [simpl; tauto | simpl; tauto | simpl; tauto |].
    destruct Hraise as (cat & _ & _ & H).
    + exists (mkRow "W1" "B" (Num 5)). split; [simpl; tauto | split; reflexivity].
    + exists cat. exact H.
  - destruct (C10_color_dict
                (ribbon_engine.mkDataFrame ["Week"; "Employee"; "Hours"]
                   [mkRow "W1" "A" (Num 3); mkRow "W1" "B" (Num 5)])
                "Week" "Employee" "Hours" 2 (2 # 5)
                (<["B" := "blue"]> {["A" := "red"]}) true true)
      as (_ & _ & Hok); [simpl; tauto | simpl; tauto | simpl; tauto |].
    apply Hok. simpl. intros r [<-|[<-|[]]]; simpl; eexists; reflexivity.
Defined.

(** ** C1: rows that are not laid out *)

Lemma gt0_false v : gt0 v = false <-> isna v || le0 v = true.
Proof. destruct v as [q|]; simpl; [|tauto]. now rewrite negb_false_iff. Qed.

(** An entry of the engine's coordinate map is the extent of a positive
    row of that period and category. *)
Lemma engine_entry_row gap asc rows p cat e :
  segments_map Qplus (engine_segments gap asc rows p) ∅ !! cat = Some e ->
  exists r v, In r rows /\ period r = p /\ category r = cat /\ value r = Num v /\
              gt0 (value r) = true /\ e.2 = (e.1 + v)%Q.
Proof.
  intros H. apply segments_map_lookup in H as [(v & Hin & He)|H];
    [|rewrite lookup_empty in H; discriminate].
  unfold engine_segments in Hin.
  assert (Hcv : In (cat, v) (positives (sorted (row_leb asc) (rows_of p rows))))
    by (eapply in_stack; eauto).
  apply in_positives_period in Hcv as (r & Hr & Hp & Hc & Hv & Hpos).
  exists r, v. auto 10.
Qed.

Lemma engine_entry_iff gap asc rows p cat :
  is_Some (segments_map Qplus (engine_segments gap asc rows p) ∅ !! cat) <->
  exists r, In r rows /\ period r = p /\ category r = cat /\ gt0 (value r) = true.
Proof.
  split.
  - intros [e He]. apply engine_entry_row in He as (r & v & H). exists r. tauto.
  - intros (r & Hr & Hp & Hc & Hpos). apply segments_map_is_Some. left.
    destruct (value r) as [v|] eqn:Hv; [|discriminate].
    assert (Hcv : In (cat, v) (positives (sorted (row_leb asc) (rows_of p rows)))).
    { apply in_positives_period. exists r. rewrite Hv. auto. }
    apply (in_stack gap 0) in Hcv as (y & Hy). eauto.
Qed.

Lemma hours_entry_iff gap rows p cat :
  is_Some (segments_map nadd (hours_segments gap rows p) ∅ !! cat) <->
  exists r, In r rows /\ period r = p /\ category r = cat.
Proof.
  rewrite segments_map_is_Some, lookup_empty. unfold hours_segments. split.
  - intros [(v & y & Hseg)|[? H]]; [|discriminate].
    assert (Hcv : In (cat, v) (map row_key (sorted value_leb (rows_of p rows))))
      by (eapply in_nstack; eauto).
    apply in_map_iff in Hcv as (r & [= <- _] & Hr).
    apply in_sorted, in_rows_of in Hr as [Hr Hp]. eauto.
  - intros (r & Hr & Hp & Hc). left.
    assert (Hcv : In (cat, value r) (map row_key (sorted value_leb (rows_of p rows)))).
    { apply in_map_iff. exists r. unfold row_key. rewrite Hc. split; [reflexivity|].
      apply in_sorted, in_rows_of. auto. }
    apply (in_nstack gap (Num 0)) in Hcv as (y & Hy). eauto.
Qed.

(** C1, as amended.  In [ribbon_engine.create_ribbon_chart] a row whose
    value is NaN or [<= 0] is not laid out: the coordinate map of a period
    has an entry for a category exactly when the frame has a row of that
    period and category with a positive value, so a (period, category)
    whose rows are all NaN or [<= 0] has no entry; every bar is the bar of
    a positive row; and both endpoints of every ribbon are the extents of
    positive rows of its category in two adjacent periods.  The two other
    builders do not exclude rows: in
    [employee_hours_chart.create_ribbon_chart] the coordinate map of a
    period has an entry for a category exactly when the frame has a row of
    that period and category, whatever its value; in
    [ribbon_chart.add_ribbon_scenario] it has an entry for every category
    of the frame in every period of the frame. *)
Theorem C1_rows_laid_out df x_col category_col value_col gap
  bar_width colors sort_ascending show_legend (dfh : list (Row string)) gaph
  fig0 (dfg : list (Row Z)) gapg :
  engine_ready df x_col category_col value_col colors ->
  NoDup (map (fun r => (period r, category r)) dfg) ->
  (exists coords fig,
    ribbon_engine.build df x_col category_col value_col gap bar_width colors
      sort_ascending show_legend = Ok (coords, fig) /\
    (forall p cat,
       (exists here, coords !! p = Some here /\ is_Some (here !! cat)) <->
       (exists r, In r (ribbon_engine.rows df) /\ period r = p /\ category r = cat /\
                  gt0 (value r) = true)) /\
    (forall p cat,
       (forall r, In r (ribbon_engine.rows df) -> period r = p -> category r = cat ->
                  isna (value r) || le0 (value r) = true) ->
       forall here, coords !! p = Some here -> here !! cat = None) /\
    (forall p y base cat col w leg,
       In (Bar p y base cat col w leg) fig ->
       exists r, In r (ribbon_engine.rows df) /\ period r = p /\ category r = cat /\
                 value r = Num y /\ gt0 (value r) = true) /\
    (forall x1 x2 y1_t y2_t y1_b y2_b col cat,
       In (Scatter x1 x2 y1_t y2_t y1_b y2_b col cat) fig ->
       exists i p1 p2 r1 v1 r2 v2,
         engine_periods df !! i = Some p1 /\ engine_periods df !! S i = Some p2 /\
         In r1 (ribbon_engine.rows df) /\ period r1 = p1 /\ category r1 = cat /\
         value r1 = Num v1 /\ gt0 (value r1) = true /\ y1_t = (y1_b + v1)%Q /\
         In r2 (ribbon_engine.rows df) /\ period r2 = p2 /\ category r2 = cat /\
         value r2 = Num v2 /\ gt0 (value r2) = true /\ y2_t = (y2_b + v2)%Q)) /\
  (exists coords fig,
     employee_hours_chart.build dfh gaph = Ok (coords, fig) /\
     forall p cat,
       (exists here, coords !! p = Some here /\ is_Some (here !! cat)) <->
       (exists r, In r dfh /\ period r = p /\ category r = cat)) /\
  (exists coords new n,
     ribbon_chart.build fig0 dfg gapg = Ok (coords, fig0 ++ new, n) /\
     forall p cat, In p (map period dfg) -> In cat (map category dfg) ->
       exists here, coords !! p = Some here /\ is_Some (here !! cat)).
Proof.
  intros Hready Hnd. split; [|split].
  2:{ destruct (hours_build_spec dfh gaph)
        as (cm & coords & fig & Hb & _ & _ & _ & Hin & Hout & _).
      exists coords, fig. split; [exact Hb|]. intros p cat.
      destruct (in_dec string_dec p (hours_periods dfh)) as [Hp|Hp].
      - rewrite (Hin p Hp), <- (hours_entry_iff gaph). split.
        + now intros (here & [= <-] & H).
        + intros H. eauto.
      - rewrite (Hout p Hp). split; [now intros (? & [=] & _)|].
        intros (r & Hr & <- & _). exfalso. apply Hp, in_hours_periods. now apply in_map. }
  2:{ destruct (gallery_build_spec fig0 dfg gapg Hnd)
        as (df_norm & cm & coords & new & _ & _ & Hb & _ & _ & _ & _ & Hentries & _).
      exists coords, new, (length new). split; [exact Hb|].
      intros p cat Hp Hcat. apply Hentries.
      - now apply in_gallery_periods.
      - now apply in_gallery_categories. }
  destruct (engine_build_ok df x_col category_col value_col gap bar_width colors
              sort_ascending show_legend Hready) as (coords & fig & Hb).
  exists coords, fig. split; [exact Hb|].
  apply engine_build_spec in Hb as (color_map & _ & Hbars & Hin & Hout & Hrib).
  assert (Hentry : forall p cat,
            (exists here, coords !! p = Some here /\ is_Some (here !! cat)) <->
            (exists r, In r (ribbon_engine.rows df) /\ period r = p /\ category r = cat /\
                       gt0 (value r) = true)).
  { intros p cat. destruct (in_dec string_dec p (engine_periods df)) as [Hp|Hp].
    - rewrite (Hin p Hp), <- (engine_entry_iff gap sort_ascending). split.
      + now intros (here & [= <-] & H).
      + intros H. eauto.
    - rewrite (Hout p Hp). split; [now intros (? & [=] & _)|].
      intros (r & Hr & <- & _). exfalso. apply Hp, in_engine_periods. now apply in_map. }
  split; [exact Hentry|]. split; [|split].
  - intros p cat Hall here Hhere. destruct (here !! cat) as [e|] eqn:He; [|reflexivity].
    destruct (proj1 (Hentry p cat)) as (r & Hr & Hp & Hc & Hpos);
      [exists here; rewrite He; eauto|].
    specialize (Hall r Hr Hp Hc). apply gt0_false in Hall. congruence.
  - intros p y base cat col w leg Hbar.
    assert (Hseg : In (cat, y, base) (bars_at p fig)) by (apply in_bars_at; eauto).
    rewrite Hbars in Hseg. unfold engine_segments in Hseg.
    assert (Hcv : In (cat, y) (positives (sorted (row_leb sort_ascending)
                                            (rows_of p (ribbon_engine.rows df)))))
      by (eapply in_stack; eauto).
    apply in_positives_period in Hcv as (r & H). exists r. tauto.
  - intros x1 x2 y1_t y2_t y1_b y2_b col cat Hs.
    apply Hrib in Hs; [|auto].
    apply in_engine_ribbons in Hs
      as (i & p1 & p2 & c1 & c2 & H1 & H2 & _ & Hc1 & He1 & Hc2 & He2 & _).
    assert (Hp1 : In p1 (engine_periods df))
      by (eapply list_elem_of_In, list_elem_of_lookup_2; eassumption).
    assert (Hp2 : In p2 (engine_periods df))
      by (eapply list_elem_of_In, list_elem_of_lookup_2; eassumption).
    rewrite (Hin p1 Hp1) in Hc1. injection Hc1 as <-.
    rewrite (Hin p2 Hp2) in Hc2. injection Hc2 as <-.
    apply engine_entry_row in He1 as (r1 & v1 & Hr1 & Hq1 & Ht1 & Hv1 & Hg1 & Hy1).
    apply engine_entry_row in He2 as (r2 & v2 & Hr2 & Hq2 & Ht2 & Hv2 & Hg2 & Hy2).
    exists i, p1, p2, r1, v1, r2, v2. simpl in Hy1, Hy2. auto 20.
Qed.

Lemma C1_rows_laid_out_witness :
  exists coords fig,
    ribbon_engine.build
      (ribbon_engine.mkDataFrame ["Week"; "Employee"; "Hours"]
         [mkRow "W1" "A" (Num 0); mkRow "W1" "B" NaN; mkRow "W1" "C" (Num 3);
          mkRow "W2" "A" (Num 5); mkRow "W2" "B" (Num 4); mkRow "W2" "C" (Num (-1))])
      "Week" "Employee" "Hours" 2 (2 # 5) ribbon_engine.ColorNone true true
    = Ok (coords, fig).
Proof.
  destruct (C1_rows_laid_out
              (ribbon_engine.mkDataFrame ["Week"; "Employee"; "Hours"]
                 [mkRow "W1" "A" (Num 0); mkRow "W1" "B" NaN; mkRow "W1" "C" (Num 3);
                  mkRow "W2" "A" (Num 5); mkRow "W2" "B" (Num 4);
                  mkRow "W2" "C" (Num (-1))])
              "Week" "Employee" "Hours" 2 (2 # 5) ribbon_engine.ColorNone true true
              [mkRow "W1" "A" (Num 0)] 2
              [] [mkRow 2020%Z "B" (Num 4); mkRow 2021%Z "A" (Num 5)] 2)
    as ((coords & fig & H & _) & _).
  - unfold engine_ready. simpl. tauto.
  - apply (bool_decide_unpack _). vm_compute. exact I.
  - exists coords, fig. exact H.
Defined.

(** C1 as stated fails in the two other builders.
    [employee_hours_chart.create_ribbon_chart] lays out every row: a row
    with value 0 and a row with value NaN get a coordinate entry and a
    ribbon endpoint.  [ribbon_chart.add_ribbon_scenario] fills a missing
    (period, category) with 0 and writes a coordinate entry for it, from
    which a ribbon endpoint is derived. *)
Lemma C1_counterexample :
  (exists coords fig,
     employee_hours_chart.build
       [mkRow "W1" "A" (Num 0); mkRow "W1" "B" NaN;
        mkRow "W2" "A" (Num 5); mkRow "W2" "B" (Num 4)] 2 = Ok (coords, fig) /\
     coords !! "W1" ≫= (.!! "A") = Some (Num 0, Num 0) /\
     coords !! "W1" ≫= (.!! "B") = Some (Num 2, NaN) /\
     In (Scatter (2 # 10) (8 # 10) (Num 0) (Num 11) (Num 0) (Num 6)
           "rgb(95, 70, 144)" "A") fig /\
     In (Scatter (2 # 10) (8 # 10) NaN (Num 4) (Num 2) (Num 0)
           "rgb(29, 105, 150)" "B") fig) /\
  (exists coords fig n,
     ribbon_chart.build []
       [mkRow 2020%Z "B" (Num 4); mkRow 2021%Z "A" (Num 5); mkRow 2021%Z "B" (Num 4)] 2
     = Ok (coords, fig, n) /\
     coords !! 2020%Z ≫= (.!! "A") = Some (Num 0, Num 0) /\
     In (Scatter (404035 # 200) (404165 # 200) (Num 0) (Num 11) (Num 0) (Num 6)
           "#1F77B4" "A") fig).
Proof.
  split.
  - eexists _, _. split; [vm_compute; reflexivity|].
    repeat split; vm_compute; tauto.
  - eexists _, _, _. split; [vm_compute; reflexivity|].
    repeat split; vm_compute; tauto.
Qed.

(** ** C2: the gap *)

Lemma stack_recurrence gap y l i a b :
  stack gap y l !! i = Some a -> stack gap y l !! S i = Some b ->
  b.2 = (a.2 + (a.1.2 + gap))%Q.
Proof.
  revert y i. induction l as [|[c v] l IH]; intros y i; simpl; [discriminate|].
  destruct i as [|i]; simpl.
  - intros [= <-]. destruct l as [|[c' v'] l]; simpl; [discriminate|].
    now intros [= <-].
  - apply IH.
Qed.

Lemma stack_gap_recurrence gap l : gap_recurrence gap (stack gap 0 l).
Proof.
  split.
  - intros a Ha. apply stack_head in Ha. now rewrite Ha.
  - intros i a b Ha Hb. now rewrite (stack_recurrence _ _ _ _ _ _ Ha Hb).
Qed.

Lemma gap_recurrence_seg_eq gap s s' :
  Forall2 seg_eq s s' -> gap_recurrence gap s' -> gap_recurrence gap s.
Proof.
  intros Heq (Hhead & Hcons). split.
  - intros a Ha. destruct Heq as [|a' b s s' [_ Hab] _]; [discriminate|].
    simpl in Ha. injection Ha as <-. rewrite Hab. now apply Hhead.
  - intros i a b Ha Hb.
    destruct (Forall2_lookup_l _ _ _ _ _ Heq Ha) as (a' & Ha' & [Ha1 Ha2]).
    destruct (Forall2_lookup_l _ _ _ _ _ Heq Hb) as (b' & Hb' & [Hb1 Hb2]).
    rewrite Ha1, Ha2, Hb2. eapply Hcons; eassumption.
Qed.

(** C2, as amended.  In [ribbon_engine.create_ribbon_chart] and in
    [ribbon_chart.add_ribbon_scenario], the rectangles stacked at a period
    (the segments of the rows with a positive value), taken in stacking
    order, obey the stacking recurrence: the first one starts at 0 (the
    offset restarts in every period), and each next one starts at
    [y_start + (height + gap)] of the one before it, where the one before
    it ends at [y_start + height]; each of these sums is one addition of
    the program.  In the engine every entry of the coordinate map is
    [(y_start, y_start + height)] of one of these rectangles.  The
    statement has the form of the sums the program makes: it does not say
    that the difference of the next start and the previous end, computed
    afterwards, is the gap, which is so in exact arithmetic and only up to
    rounding in floating point. *)
Theorem C2_gap_between_rectangles df x_col category_col value_col gap bar_width
  colors sort_ascending show_legend fig0 (dfg : list (Row Z)) gapg :
  engine_ready df x_col category_col value_col colors ->
  NoDup (map (fun r => (period r, category r)) dfg) ->
  (exists coords fig,
     ribbon_engine.build df x_col category_col value_col gap bar_width colors
       sort_ascending show_legend = Ok (coords, fig) /\
     forall p,
       gap_recurrence gap (bars_at p fig) /\
       forall here cat e, coords !! p = Some here -> here !! cat = Some e ->
         exists v, In (cat, v, e.1) (bars_at p fig) /\ e.2 = (e.1 + v)%Q) /\
  (exists coords new n,
     ribbon_chart.build fig0 dfg gapg = Ok (coords, fig0 ++ new, n) /\
     forall p, exists segs,
       bars_at p new = map lift segs /\ gap_recurrence gapg segs).
Proof.
  intros Hready Hnd. split.
  - destruct (engine_build_ok df x_col category_col value_col gap bar_width colors
                sort_ascending show_legend Hready) as (coords & fig & Hb).
    exists coords, fig. split; [exact Hb|].
    apply engine_build_spec in Hb as (color_map & _ & Hbars & Hin & Hout & _).
    intros p. rewrite Hbars. split; [apply stack_gap_recurrence|].
    intros here cat e Hhere He.
    destruct (in_dec string_dec p (engine_periods df)) as [Hp|Hp].
    + rewrite (Hin p Hp) in Hhere. injection Hhere as <-.
      apply segments_map_lookup in He as [H|H]; [exact H|].
      rewrite lookup_empty in H. discriminate.
    + rewrite (Hout p Hp) in Hhere. discriminate.
  - destruct (gallery_build_spec fig0 dfg gapg Hnd)
      as (df_norm & cm & coords & new & _ & _ & Hb & _ & Hbars & _).
    exists coords, new, (length new). split; [exact Hb|].
    intros p. rewrite Hbars. unfold gallery_segments.
    destruct (gallery_entries_stack gapg
                (sorted (row_leb true) (rows_of p df_norm)) 0 0) as (segs & Hs & Heq);
      [reflexivity|].
    exists segs. split; [exact Hs|].
    eapply gap_recurrence_seg_eq; [exact Heq | apply stack_gap_recurrence].
Qed.

Lemma C2_gap_between_rectangles_witness :
  (exists coords fig,
     ribbon_engine.build
       (ribbon_engine.mkDataFrame ["Week"; "Employee"; "Hours"]
          [mkRow "P1" "A" (Num 30); mkRow "P1" "B" (Num 10);
           mkRow "P2" "A" (Num 10); mkRow "P2" "B" (Num 30)])
       "Week" "Employee" "Hours" 2 (2 # 5) ribbon_engine.ColorNone true true
     = Ok (coords, fig)) /\
  (exists coords new n,
     ribbon_chart.build []
       [mkRow 2020%Z "B" (Num 4); mkRow 2021%Z "A" (Num 5); mkRow 2021%Z "B" (Num 4)] 2
     = Ok (coords, [] ++ new, n)).
Proof.
  destruct (C2_gap_between_rectangles
              (ribbon_engine.mkDataFrame ["Week"; "Employee"; "Hours"]
                 [mkRow "P1" "A" (Num 30); mkRow "P1" "B" (Num 10);
                  mkRow "P2" "A" (Num 10); mkRow "P2" "B" (Num 30)])
              "Week" "Employee" "Hours" 2 (2 # 5) ribbon_engine.ColorNone true true
              []
              [mkRow 2020%Z "B" (Num 4); mkRow 2021%Z "A" (Num 5);
               mkRow 2021%Z "B" (Num 4)] 2)
    as [(coords & fig & H & _) (coords' & new & n & H' & _)].
  - unfold engine_ready. simpl. tauto.
  - apply (bool_decide_unpack _). vm_compute. exact I.
  - split; [exists coords, fig; exact H | exists coords', new, n; exact H'].
Defined.

(** C2 as stated fails in [ribbon_chart.add_ribbon_scenario]: category A,
    filled with 0 in 2020, gets the segment [0, 0]; the next segment in
    sorted order, B, starts at 0, at distance 0 from the end of A and not
    at the gap 2. *)
Lemma C2_counterexample :
  exists df_norm coords fig n,
    ribbon_chart.reindex
      [mkRow 2020%Z "B" (Num 4); mkRow 2021%Z "A" (Num 5); mkRow 2021%Z "B" (Num 4)]
      [2020%Z; 2021%Z] ["A"; "B"] = Ok df_norm /\
    sorted (row_leb true) (rows_of 2020%Z df_norm) =
      [mkRow 2020%Z "A" (Num 0); mkRow 2020%Z "B" (Num 4)] /\
    ribbon_chart.build []
      [mkRow 2020%Z "B" (Num 4); mkRow 2021%Z "A" (Num 5); mkRow 2021%Z "B" (Num 4)] 2
    = Ok (coords, fig, n) /\
    coords !! 2020%Z ≫= (.!! "A") = Some (Num 0, Num 0) /\
    coords !! 2020%Z ≫= (.!! "B") = Some (Num 0, Num 4) /\
    ~ (0 - 0 == 2)%Q.
Proof.
  eexists _, _, _, _. split; [vm_compute; reflexivity|].
  split; [vm_compute; reflexivity|]. split; [vm_compute; reflexivity|].
  split; [vm_compute; reflexivity|]. split; [vm_compute; reflexivity|].
  intros H. discriminate H.
Qed.

(** ** The ribbons of each builder *)

(** In the engine, a ribbon with given span and ordinates is in the figure
    exactly when two adjacent periods hold these ordinates for its
    category. *)
Lemma engine_scatter_iff df x_col category_col value_col gap bar_width colors
  sort_ascending show_legend coords fig :
  engine_ready df x_col category_col value_col colors ->
  ribbon_engine.build df x_col category_col value_col gap bar_width colors
    sort_ascending show_legend = Ok (coords, fig) ->
  forall x1 x2 y1_t y2_t y1_b y2_b cat,
    (exists col, In (Scatter x1 x2 y1_t y2_t y1_b y2_b col cat) fig) <->
    exists i p1 p2 c1 c2,
      engine_periods df !! i = Some p1 /\ engine_periods df !! S i = Some p2 /\
      coords !! p1 = Some c1 /\ c1 !! cat = Some (y1_b, y1_t) /\
      coords !! p2 = Some c2 /\ c2 !! cat = Some (y2_b, y2_t) /\
      x1 = (inject_Z (Z.of_nat i) + bar_width / 2)%Q /\
      x2 = (inject_Z (Z.of_nat (i + 1)) - bar_width / 2)%Q.
Proof.
  intros Hready Hb x1 x2 y1_t y2_t y1_b y2_b cat.
  destruct (engine_color_setup_ok _ _ _ _ _ Hready) as (cm & Hcm & Hcover).
  apply engine_build_spec in Hb as (color_map & Hcm' & _ & Hin & Hout & Hrib).
  rewrite Hcm in Hcm'. injection Hcm' as <-. split.
  - intros (col & Hs). apply Hrib in Hs; [|auto].
    apply in_engine_ribbons in Hs
      as (i & p1 & p2 & c1 & c2 & H1 & H2 & _ & Hc1 & He1 & Hc2 & He2 & _ & Hx1 & Hx2).
    exists i, p1, p2, c1, c2. auto 10.
  - intros (i & p1 & p2 & c1 & c2 & H1 & H2 & Hc1 & He1 & Hc2 & He2 & Hx1 & Hx2).
    assert (Hp1 : In p1 (engine_periods df))
      by (eapply list_elem_of_In, list_elem_of_lookup_2; eassumption).
    pose proof Hc1 as Hc1'. rewrite (Hin p1 Hp1) in Hc1'. injection Hc1' as <-.
    pose proof He1 as He1'.
    apply engine_entry_row in He1' as (r & v & Hr & _ & Hcat & _).
    destruct (Hcover r Hr) as [col Hcol]. rewrite Hcat in Hcol.
    exists col. apply Hrib; [auto|]. apply in_engine_ribbons.
    eexists i, p1, p2, _, c2. repeat split; try eassumption.
    apply in_engine_categories. rewrite <- Hcat. now apply in_map.
Qed.

Lemma hours_scatter_iff df gap coords fig :
  employee_hours_chart.build df gap = Ok (coords, fig) ->
  forall x1 x2 y1_t y2_t y1_b y2_b cat,
    (exists col, In (Scatter x1 x2 y1_t y2_t y1_b y2_b col cat) fig) <->
    exists i p1 p2 c1 c2,
      hours_periods df !! i = Some p1 /\ hours_periods df !! S i = Some p2 /\
      coords !! p1 = Some c1 /\ c1 !! cat = Some (y1_b, y1_t) /\
      coords !! p2 = Some c2 /\ c2 !! cat = Some (y2_b, y2_t) /\
      x1 = (inject_Z (Z.of_nat i) + employee_hours_chart.bar_width / 2)%Q /\
      x2 = (inject_Z (Z.of_nat (i + 1)) - employee_hours_chart.bar_width / 2)%Q.
Proof.
  intros Hb x1 x2 y1_t y2_t y1_b y2_b cat.
  destruct (hours_build_spec df gap)
    as (cm & coords' & fig' & Hb' & _ & Hdom & _ & Hin & Hout & Hrib).
  rewrite Hb in Hb'. injection Hb' as <- <-. split.
  - intros (col & Hs). apply Hrib in Hs; [|auto].
    apply in_hours_ribbons in Hs
      as (i & p1 & p2 & c1 & c2 & H1 & H2 & _ & Hc1 & He1 & Hc2 & He2 & _ & Hx1 & Hx2).
    exists i, p1, p2, c1, c2. auto 10.
  - intros (i & p1 & p2 & c1 & c2 & H1 & H2 & Hc1 & He1 & Hc2 & He2 & Hx1 & Hx2).
    assert (Hp1 : In p1 (hours_periods df))
      by (eapply list_elem_of_In, list_elem_of_lookup_2; eassumption).
    pose proof Hc1 as Hc1'. rewrite (Hin p1 Hp1) in Hc1'. injection Hc1' as <-.
    assert (Hcat : In cat (hours_categories df)).
    { assert (Hsome : is_Some (segments_map nadd (hours_segments gap df p1) ∅ !! cat))
        by (rewrite He1; eauto).
      apply segments_map_is_Some in Hsome as [(v & y & Hseg)|[? Hemp]];
        [|rewrite lookup_empty in Hemp; discriminate].
      unfold hours_segments in Hseg.
      assert (Hcv : In (cat, v) (map row_key (sorted value_leb (rows_of p1 df))))
        by (eapply in_nstack; eauto).
      apply in_map_iff in Hcv as (r & [= <- _] & Hr).
      apply in_sorted, in_rows_of in Hr as [Hr _].
      apply in_hours_categories. now apply in_map. }
    destruct (proj2 (Hdom cat) Hcat) as [col Hcol].
    exists col. apply Hrib; [auto|]. apply in_hours_ribbons.
    eexists i, p1, p2, _, c2. repeat split; eassumption.
Qed.

Lemma gallery_scatter_iff fig0 df gap :
  NoDup (map (fun r => (period r, category r)) df) ->
  exists coords new,
    ribbon_chart.build fig0 df gap = Ok (coords, fig0 ++ new, length new) /\
    (forall p cat, In p (gallery_periods df) -> In cat (gallery_categories df) ->
       exists here, coords !! p = Some here /\ is_Some (here !! cat)) /\
    forall x1 x2 y1_t y2_t y1_b y2_b cat,
      (exists col, In (Scatter x1 x2 y1_t y2_t y1_b y2_b col cat) new) <->
      exists i p1 p2 c1 c2,
        gallery_periods df !! i = Some p1 /\ gallery_periods df !! S i = Some p2 /\
        In cat (gallery_categories df) /\
        coords !! p1 = Some c1 /\ c1 !! cat = Some (y1_b, y1_t) /\
        coords !! p2 = Some c2 /\ c2 !! cat = Some (y2_b, y2_t) /\
        is0 (nsub y1_t y1_b) && is0 (nsub y2_t y2_b) = false /\
        x1 = (inject_Z p1 + ribbon_chart.bar_width / 2)%Q /\
        x2 = (inject_Z p2 - ribbon_chart.bar_width / 2)%Q.
Proof.
  intros Hnd.
  destruct (gallery_build_spec fig0 df gap Hnd)
    as (df_norm & cm & coords & new & _ & Hdom & Hb & _ & _ & _ & _ & Hentries & Hrib).
  exists coords, new. split; [exact Hb|]. split; [exact Hentries|].
  intros x1 x2 y1_t y2_t y1_b y2_b cat. split.
  - intros (col & Hs). apply Hrib in Hs; [|auto].
    apply in_gallery_ribbons in Hs
      as (i & p1 & p2 & c1 & c2 & H1 & H2 & Hcat & Hc1 & He1 & Hc2 & He2 & _ & Hz
          & Hx1 & Hx2).
    exists i, p1, p2, c1, c2. auto 12.
  - intros (i & p1 & p2 & c1 & c2 & H1 & H2 & Hcat & Hc1 & He1 & Hc2 & He2 & Hz
            & Hx1 & Hx2).
    destruct (proj2 (Hdom cat) Hcat) as [col Hcol].
    exists col. apply Hrib; [auto|]. apply in_gallery_ribbons.
    exists i, p1, p2, c1, c2. repeat split; assumption.
Qed.

Lemma year_position_inj (p q : Z) (w : Q) :
  (inject_Z p + w)%Q = (inject_Z q + w)%Q -> p = q.
Proof.
  intros H.
  assert (Heq : (inject_Z p + w == inject_Z q + w)%Q) by (rewrite H; reflexivity).
  apply Qplus_inj_r in Heq. unfold Qeq in Heq. simpl in Heq. lia.
Qed.

(** ** C3: when a ribbon exists *)

(** C3, as amended.  In [ribbon_engine.create_ribbon_chart] and in
    [employee_hours_chart.create_ribbon_chart], for two adjacent periods
    and a category, a ribbon is in the figure exactly when the coordinate
    map has an entry for the category in both periods.  In
    [ribbon_chart.add_ribbon_scenario] the coordinate map has an entry for
    every category in every period (a missing observation counts as 0),
    and a ribbon is added exactly when the two entries do not both have
    height zero. *)
Theorem C3_ribbon_existence df x_col category_col value_col gap bar_width colors
  sort_ascending show_legend (dfh : list (Row string)) gaph
  fig0 (dfg : list (Row Z)) gapg :
  engine_ready df x_col category_col value_col colors ->
  NoDup (map (fun r => (period r, category r)) dfg) ->
  (exists coords fig,
     ribbon_engine.build df x_col category_col value_col gap bar_width colors
       sort_ascending show_legend = Ok (coords, fig) /\
     forall i p1 p2 cat,
       engine_periods df !! i = Some p1 -> engine_periods df !! S i = Some p2 ->
       (ribbon_at (inject_Z (Z.of_nat i) + bar_width / 2)%Q cat fig <->
        exists c1 c2, coords !! p1 = Some c1 /\ coords !! p2 = Some c2 /\
                      is_Some (c1 !! cat) /\ is_Some (c2 !! cat))) /\
  (exists coords fig,
     employee_hours_chart.build dfh gaph = Ok (coords, fig) /\
     forall i p1 p2 cat,
       hours_periods dfh !! i = Some p1 -> hours_periods dfh !! S i = Some p2 ->
       (ribbon_at (inject_Z (Z.of_nat i) + employee_hours_chart.bar_width / 2)%Q cat fig <->
        exists c1 c2, coords !! p1 = Some c1 /\ coords !! p2 = Some c2 /\
                      is_Some (c1 !! cat) /\ is_Some (c2 !! cat))) /\
  (exists coords new n,
     ribbon_chart.build fig0 dfg gapg = Ok (coords, fig0 ++ new, n) /\
     forall i p1 p2 cat,
       gallery_periods dfg !! i = Some p1 -> gallery_periods dfg !! S i = Some p2 ->
       In cat (gallery_categories dfg) ->
       exists c1 c2 y1_b y1_t y2_b y2_t,
         coords !! p1 = Some c1 /\ c1 !! cat = Some (y1_b, y1_t) /\
         coords !! p2 = Some c2 /\ c2 !! cat = Some (y2_b, y2_t) /\
         (ribbon_at (inject_Z p1 + ribbon_chart.bar_width / 2)%Q cat new <->
          is0 (nsub y1_t y1_b) && is0 (nsub y2_t y2_b) = false)).
Proof.
  intros Hready Hnd. split; [|split].
  - destruct (engine_build_ok df x_col category_col value_col gap bar_width colors
                sort_ascending show_legend Hready) as (coords & fig & Hb).
    exists coords, fig. split; [exact Hb|].
    pose proof (engine_scatter_iff _ _ _ _ _ _ _ _ _ _ _ Hready Hb) as Hiff.
    intros i p1 p2 cat H1 H2. unfold ribbon_at. split.
    + intros (x2 & y1_t & y2_t & y1_b & y2_b & col & Hs).
      destruct (proj1 (Hiff _ _ _ _ _ _ _) (ex_intro _ col Hs))
        as (j & q1 & q2 & c1 & c2 & Hj1 & Hj2 & Hc1 & He1 & Hc2 & He2 & Hx1 & _).
      apply position_inj in Hx1 as ->.
      rewrite H1 in Hj1. rewrite H2 in Hj2. injection Hj1 as <-. injection Hj2 as <-.
      exists c1, c2. rewrite He1, He2. eauto.
    + intros (c1 & c2 & Hc1 & Hc2 & [[y1_b y1_t] He1] & [[y2_b y2_t] He2]).
      destruct (proj2 (Hiff (inject_Z (Z.of_nat i) + bar_width / 2)%Q
                         (inject_Z (Z.of_nat (i + 1)) - bar_width / 2)%Q
                         y1_t y2_t y1_b y2_b cat)) as (col & Hs); [|eauto 10].
      exists i, p1, p2, c1, c2. auto 10.
  - destruct (hours_build_spec dfh gaph) as (cm & coords & fig & Hb & _).
    exists coords, fig. split; [exact Hb|].
    pose proof (hours_scatter_iff _ _ _ _ Hb) as Hiff.
    intros i p1 p2 cat H1 H2. unfold ribbon_at. split.
    + intros (x2 & y1_t & y2_t & y1_b & y2_b & col & Hs).
      destruct (proj1 (Hiff _ _ _ _ _ _ _) (ex_intro _ col Hs))
        as (j & q1 & q2 & c1 & c2 & Hj1 & Hj2 & Hc1 & He1 & Hc2 & He2 & Hx1 & _).
      apply position_inj in Hx1 as ->.
      rewrite H1 in Hj1. rewrite H2 in Hj2. injection Hj1 as <-. injection Hj2 as <-.
      exists c1, c2. rewrite He1, He2. eauto.
    + intros (c1 & c2 & Hc1 & Hc2 & [[y1_b y1_t] He1] & [[y2_b y2_t] He2]).
      destruct (proj2 (Hiff (inject_Z (Z.of_nat i) + employee_hours_chart.bar_width / 2)%Q
                         (inject_Z (Z.of_nat (i + 1)) - employee_hours_chart.bar_width / 2)%Q
                         y1_t y2_t y1_b y2_b cat)) as (col & Hs); [|eauto 10].
      exists i, p1, p2, c1, c2. auto 10.
  - destruct (gallery_scatter_iff fig0 dfg gapg Hnd) as (coords & new & Hb & Hentries & Hiff).
    exists coords, new, (length new). split; [exact Hb|].
    intros i p1 p2 cat H1 H2 Hcat.
    assert (Hp1 : In p1 (gallery_periods dfg))
      by (eapply list_elem_of_In, list_elem_of_lookup_2; eassumption).
    assert (Hp2 : In p2 (gallery_periods dfg))
      by (eapply list_elem_of_In, list_elem_of_lookup_2; eassumption).
    destruct (Hentries p1 cat Hp1 Hcat) as (c1 & Hc1 & [[y1_b y1_t] He1]).
    destruct (Hentries p2 cat Hp2 Hcat) as (c2 & Hc2 & [[y2_b y2_t] He2]).
    exists c1, c2, y1_b, y1_t, y2_b, y2_t. unfold ribbon_at.
    repeat split; try assumption.
    + intros (x2 & a & b & c & d & col & Hs).
      destruct (proj1 (Hiff _ _ _ _ _ _ _) (ex_intro _ col Hs))
        as (j & q1 & q2 & d1 & d2 & Hj1 & Hj2 & _ & Hd1 & Hf1 & Hd2 & Hf2 & Hz & Hx1 & _).
      apply year_position_inj in Hx1 as <-.
      assert (j = i) as ->.
      { eapply NoDup_lookup; [|exact Hj1|exact H1].
        apply NoDup_ListNoDup, NoDup_gallery_periods. }
      rewrite H2 in Hj2. injection Hj2 as <-.
      rewrite Hc1 in Hd1. injection Hd1 as <-. rewrite Hc2 in Hd2. injection Hd2 as <-.
      rewrite He1 in Hf1. injection Hf1 as <- <-.
      rewrite He2 in Hf2. injection Hf2 as <- <-. exact Hz.
    + intros Hz.
      destruct (proj2 (Hiff (inject_Z p1 + ribbon_chart.bar_width / 2)%Q
                         (inject_Z p2 - ribbon_chart.bar_width / 2)%Q
                         y1_t y2_t y1_b y2_b cat)) as (col & Hs); [|eauto 10].
      exists i, p1, p2, c1, c2. auto 12.
Qed.

Lemma C3_ribbon_existence_witness :
  (exists coords fig,
     ribbon_engine.build
       (ribbon_engine.mkDataFrame ["Week"; "Employee"; "Hours"]
          [mkRow "P1" "A" (Num 30); mkRow "P1" "B" (Num 10);
           mkRow "P2" "A" (Num 10); mkRow "P2" "B" (Num 0)])
       "Week" "Employee" "Hours" 2 (2 # 5) ribbon_engine.ColorNone true true
     = Ok (coords, fig)) /\
  (exists coords new n,
     ribbon_chart.build []
       [mkRow 2020%Z "B" (Num 4); mkRow 2021%Z "A" (Num 5); mkRow 2021%Z "B" (Num 4)] 2
     = Ok (coords, [] ++ new, n)).
Proof.
  destruct (C3_ribbon_existence
              (ribbon_engine.mkDataFrame ["Week"; "Employee"; "Hours"]
                 [mkRow "P1" "A" (Num 30); mkRow "P1" "B" (Num 10);
                  mkRow "P2" "A" (Num 10); mkRow "P2" "B" (Num 0)])
              "Week" "Employee" "Hours" 2 (2 # 5) ribbon_engine.ColorNone true true
              [mkRow "W1" "A" (Num 1)] 2
              []
              [mkRow 2020%Z "B" (Num 4); mkRow 2021%Z "A" (Num 5);
               mkRow 2021%Z "B" (Num 4)] 2)
    as ((coords & fig & H & _) & _ & (coords' & new & n & H' & _)).
  - unfold engine_ready. simpl. tauto.
  - apply (bool_decide_unpack _). vm_compute. exact I.
  - split; [exists coords, fig; exact H | exists coords', new, n; exact H'].
Defined.

(** C3 as stated fails in [ribbon_chart.add_ribbon_scenario].  Category A
    has no observation in 2020 and still a ribbon for A joins 2020 and
    2021, growing out of the zero-height entry written for 2020.  Category
    C has an entry in the coordinate map in 2020 and in 2021 and no ribbon
    joins them. *)
Lemma C3_counterexample :
  exists coords fig n,
    ribbon_chart.build []
      [mkRow 2020%Z "B" (Num 4); mkRow 2021%Z "A" (Num 5); mkRow 2021%Z "B" (Num 4);
       mkRow 2022%Z "C" (Num 1)] 2 = Ok (coords, fig, n) /\
    In (Scatter (404035 # 200) (404165 # 200) (Num 0) (Num 11) (Num 0) (Num 6)
          "#1F77B4" "A") fig /\
    coords !! 2020%Z ≫= (.!! "C") = Some (Num 0, Num 0) /\
    coords !! 2021%Z ≫= (.!! "C") = Some (Num 0, Num 0) /\
    ~ ribbon_at (inject_Z 2020 + ribbon_chart.bar_width / 2)%Q "C" fig.
Proof.
  eexists _, _, _. split; [vm_compute; reflexivity|].
  split; [vm_compute; tauto|].
  split; [vm_compute; reflexivity|]. split; [vm_compute; reflexivity|].
  intros (x2 & y1_t & y2_t & y1_b & y2_b & col & H). vm_compute in H.
  repeat (destruct H as [H|H]; [discriminate H|]). exact H.
Qed.

(** ** C6: the horizontal span *)

(** C6, as amended.  In [ribbon_engine.create_ribbon_chart] and in
    [employee_hours_chart.create_ribbon_chart], every ribbon joins the
    entries of its category in two adjacent periods, at positions [i] and
    [i + 1] of the period sequence, and spans from [i + bar_width/2] to
    [(i + 1) - bar_width/2], whatever the period labels are.  In
    [ribbon_chart.add_ribbon_scenario] the periods are numbers and are
    themselves the abscissas: the ribbon between adjacent periods [p1] and
    [p2] spans from [p1 + bar_width/2] to [p2 - bar_width/2]. *)
Theorem C6_ribbon_span df x_col category_col value_col gap bar_width colors
  sort_ascending show_legend (dfh : list (Row string)) gaph
  fig0 (dfg : list (Row Z)) gapg :
  engine_ready df x_col category_col value_col colors ->
  NoDup (map (fun r => (period r, category r)) dfg) ->
  (exists coords fig,
     ribbon_engine.build df x_col category_col value_col gap bar_width colors
       sort_ascending show_legend = Ok (coords, fig) /\
     forall x1 x2 y1_t y2_t y1_b y2_b col cat,
       In (Scatter x1 x2 y1_t y2_t y1_b y2_b col cat) fig ->
       exists i p1 p2,
         engine_periods df !! i = Some p1 /\ engine_periods df !! S i = Some p2 /\
         coords !! p1 ≫= (.!! cat) = Some (y1_b, y1_t) /\
         coords !! p2 ≫= (.!! cat) = Some (y2_b, y2_t) /\
         x1 = (inject_Z (Z.of_nat i) + bar_width / 2)%Q /\
         x2 = (inject_Z (Z.of_nat (i + 1)) - bar_width / 2)%Q) /\
  (exists coords fig,
     employee_hours_chart.build dfh gaph = Ok (coords, fig) /\
     forall x1 x2 y1_t y2_t y1_b y2_b col cat,
       In (Scatter x1 x2 y1_t y2_t y1_b y2_b col cat) fig ->
       exists i p1 p2,
         hours_periods dfh !! i = Some p1 /\ hours_periods dfh !! S i = Some p2 /\
         coords !! p1 ≫= (.!! cat) = Some (y1_b, y1_t) /\
         coords !! p2 ≫= (.!! cat) = Some (y2_b, y2_t) /\
         x1 = (inject_Z (Z.of_nat i) + employee_hours_chart.bar_width / 2)%Q /\
         x2 = (inject_Z (Z.of_nat (i + 1)) - employee_hours_chart.bar_width / 2)%Q) /\
  (exists coords new n,
     ribbon_chart.build fig0 dfg gapg = Ok (coords, fig0 ++ new, n) /\
     forall x1 x2 y1_t y2_t y1_b y2_b col cat,
       In (Scatter x1 x2 y1_t y2_t y1_b y2_b col cat) new ->
       exists i p1 p2,
         gallery_periods dfg !! i = Some p1 /\ gallery_periods dfg !! S i = Some p2 /\
         coords !! p1 ≫= (.!! cat) = Some (y1_b, y1_t) /\
         coords !! p2 ≫= (.!! cat) = Some (y2_b, y2_t) /\
         x1 = (inject_Z p1 + ribbon_chart.bar_width / 2)%Q /\
         x2 = (inject_Z p2 - ribbon_chart.bar_width / 2)%Q).
Proof.
  intros Hready Hnd. split; [|split].
  - destruct (engine_build_ok df x_col category_col value_col gap bar_width colors
                sort_ascending show_legend Hready) as (coords & fig & Hb).
    exists coords, fig. split; [exact Hb|].
    intros x1 x2 y1_t y2_t y1_b y2_b col cat Hs.
    destruct (proj1 (engine_scatter_iff _ _ _ _ _ _ _ _ _ _ _ Hready Hb
                       x1 x2 y1_t y2_t y1_b y2_b cat) (ex_intro _ col Hs))
      as (i & p1 & p2 & c1 & c2 & H1 & H2 & Hc1 & He1 & Hc2 & He2 & Hx1 & Hx2).
    exists i, p1, p2. rewrite !bind_lookup_Some. eauto 12.
  - destruct (hours_build_spec dfh gaph) as (cm & coords & fig & Hb & _).
    exists coords, fig. split; [exact Hb|].
    intros x1 x2 y1_t y2_t y1_b y2_b col cat Hs.
    destruct (proj1 (hours_scatter_iff _ _ _ _ Hb
                       x1 x2 y1_t y2_t y1_b y2_b cat) (ex_intro _ col Hs))
      as (i & p1 & p2 & c1 & c2 & H1 & H2 & Hc1 & He1 & Hc2 & He2 & Hx1 & Hx2).
    exists i, p1, p2. rewrite !bind_lookup_Some. eauto 12.
  - destruct (gallery_scatter_iff fig0 dfg gapg Hnd) as (coords & new & Hb & _ & Hiff).
    exists coords, new, (length new). split; [exact Hb|].
    intros x1 x2 y1_t y2_t y1_b y2_b col cat Hs.
    destruct (proj1 (Hiff x1 x2 y1_t y2_t y1_b y2_b cat) (ex_intro _ col Hs))
      as (i & p1 & p2 & c1 & c2 & H1 & H2 & _ & Hc1 & He1 & Hc2 & He2 & _ & Hx1 & Hx2).
    exists i, p1, p2. rewrite !bind_lookup_Some. eauto 12.
Qed.

Lemma C6_ribbon_span_witness :
  (exists coords fig,
     ribbon_engine.build
       (ribbon_engine.mkDataFrame ["Week"; "Employee"; "Hours"]
          [mkRow "P1" "A" (Num 30); mkRow "P2" "A" (Num 10)])
       "Week" "Employee" "Hours" 2 (2 # 5) ribbon_engine.ColorNone true true
     = Ok (coords, fig)) /\
  (exists coords new n,
     ribbon_chart.build [] [mkRow 2020%Z "A" (Num 3); mkRow 2021%Z "A" (Num 5)] 2
     = Ok (coords, [] ++ new, n)).
Proof.
  destruct (C6_ribbon_span
              (ribbon_engine.mkDataFrame ["Week"; "Employee"; "Hours"]
                 [mkRow "P1" "A" (Num 30); mkRow "P2" "A" (Num 10)])
              "Week" "Employee" "Hours" 2 (2 # 5) ribbon_engine.ColorNone true true
              [mkRow "W1" "A" (Num 1)] 2
              [] [mkRow 2020%Z "A" (Num 3); mkRow 2021%Z "A" (Num 5)] 2)
    as ((coords & fig & H & _) & _ & (coords' & new & n & H' & _)).
  - unfold engine_ready. simpl. tauto.
  - apply (bool_decide_unpack _). vm_compute. exact I.
  - split; [exists coords, fig; exact H | exists coords', new, n; exact H'].
Defined.

(** C6 as stated fails in [ribbon_chart.add_ribbon_scenario]: between the
    periods 2020 and 2021, at positions 0 and 1, the ribbon spans from
    2020.175 to 2020.825, not from [0 + bar_width/2] to [1 - bar_width/2]. *)
Lemma C6_counterexample :
  gallery_periods [mkRow 2020%Z "A" (Num 3); mkRow 2021%Z "A" (Num 5)]
    = [2020%Z; 2021%Z] /\
  ribbon_chart.add_ribbon_scenario []
    [mkRow 2020%Z "A" (Num 3); mkRow 2021%Z "A" (Num 5)] 2 =
    Ok ([Bar 2020%Z (Num 3) (Num 0) "A" "#1F77B4" (35 # 100) true;
         Bar 2021%Z (Num 5) (Num 0) "A" "#1F77B4" (35 # 100) false;
         Scatter (404035 # 200) (404165 # 200) (Num 3) (Num 5) (Num 0) (Num 0)
           "#1F77B4" "A"], 3%nat) /\
  ~ (404035 # 200 == inject_Z 0 + ribbon_chart.bar_width / 2)%Q /\
  ~ (404165 # 200 == inject_Z 1 - ribbon_chart.bar_width / 2)%Q.
Proof.
  split; [vm_compute; reflexivity|]. split; [vm_compute; reflexivity|].
  split; intros H; discriminate H.
Qed.

(** ** C8: ribbons of zero area *)

(** C8, as amended.  In [ribbon_chart.add_ribbon_scenario], when the
    entries of a category in two adjacent periods both have height zero,
    no ribbon is added for them.  [ribbon_engine.create_ribbon_chart] has
    no such test: it adds a ribbon for every category that has an entry
    in both of two adjacent periods, whatever the heights, and it writes
    an entry only for a row with a positive value [v], as
    [(y_start, y_start + v)]. *)
Theorem C8_zero_height df x_col category_col value_col gap bar_width colors
  sort_ascending show_legend fig0 (dfg : list (Row Z)) gapg :
  engine_ready df x_col category_col value_col colors ->
  NoDup (map (fun r => (period r, category r)) dfg) ->
  (exists coords new n,
     ribbon_chart.build fig0 dfg gapg = Ok (coords, fig0 ++ new, n) /\
     forall i p1 p2 cat y1_b y1_t y2_b y2_t,
       gallery_periods dfg !! i = Some p1 -> gallery_periods dfg !! S i = Some p2 ->
       coords !! p1 ≫= (.!! cat) = Some (y1_b, y1_t) ->
       coords !! p2 ≫= (.!! cat) = Some (y2_b, y2_t) ->
       is0 (nsub y1_t y1_b) = true -> is0 (nsub y2_t y2_b) = true ->
       ~ ribbon_at (inject_Z p1 + ribbon_chart.bar_width / 2)%Q cat new) /\
  (exists coords fig,
     ribbon_engine.build df x_col category_col value_col gap bar_width colors
       sort_ascending show_legend = Ok (coords, fig) /\
     (forall p cat y_start y_end,
        coords !! p ≫= (.!! cat) = Some (y_start, y_end) ->
        exists v, (0 < v)%Q /\ y_end = (y_start + v)%Q) /\
     (forall i p1 p2 cat e1 e2,
        engine_periods df !! i = Some p1 -> engine_periods df !! S i = Some p2 ->
        coords !! p1 ≫= (.!! cat) = Some e1 ->
        coords !! p2 ≫= (.!! cat) = Some e2 ->
        ribbon_at (inject_Z (Z.of_nat i) + bar_width / 2)%Q cat fig)).
Proof.
  intros Hready Hnd. split.
  - destruct (gallery_scatter_iff fig0 dfg gapg Hnd) as (coords & new & Hb & _ & Hiff).
    exists coords, new, (length new). split; [exact Hb|].
    intros i p1 p2 cat y1_b y1_t y2_b y2_t H1 H2 He1 He2 Hz1 Hz2.
    intros (x2 & a & b & c & d & col & Hs).
    destruct (proj1 (Hiff _ _ _ _ _ _ _) (ex_intro _ col Hs))
      as (j & q1 & q2 & d1 & d2 & Hj1 & Hj2 & _ & Hd1 & Hf1 & Hd2 & Hf2 & Hz & Hx1 & _).
    apply year_position_inj in Hx1 as <-.
    assert (j = i) as ->.
    { eapply NoDup_lookup; [|exact Hj1|exact H1].
      apply NoDup_ListNoDup, NoDup_gallery_periods. }
    rewrite H2 in Hj2. injection Hj2 as <-.
    rewrite Hd1 in He1. simpl in He1. rewrite Hf1 in He1. injection He1 as <- <-.
    rewrite Hd2 in He2. simpl in He2. rewrite Hf2 in He2. injection He2 as <- <-.
    rewrite Hz1, Hz2 in Hz. discriminate.
  - destruct (engine_build_ok df x_col category_col value_col gap bar_width colors
                sort_ascending show_legend Hready) as (coords & fig & Hb).
    exists coords, fig. split; [exact Hb|].
    pose proof (engine_scatter_iff _ _ _ _ _ _ _ _ _ _ _ Hready Hb) as Hiff.
    apply engine_build_spec in Hb as (color_map & _ & _ & Hin & Hout & _).
    split.
    + intros p cat y_start y_end He.
      apply bind_lookup_Some in He as (here & Hhere & He).
      destruct (in_dec string_dec p (engine_periods df)) as [Hp|Hp].
      * rewrite (Hin p Hp) in Hhere. injection Hhere as <-.
        apply engine_entry_row in He as (r & v & _ & _ & _ & Hv & Hpos & Hy).
        simpl in Hy. exists v. split; [|exact Hy].
        rewrite Hv in Hpos. simpl in Hpos. apply negb_true_iff in Hpos.
        apply Qnot_le_lt. intros Hle. apply Qle_bool_iff in Hle. congruence.
      * rewrite (Hout p Hp) in Hhere. discriminate.
    + intros i p1 p2 cat [y1_b y1_t] [y2_b y2_t] H1 H2 He1 He2.
      apply bind_lookup_Some in He1 as (c1 & Hc1 & He1), He2 as (c2 & Hc2 & He2).
      destruct (proj2 (Hiff (inject_Z (Z.of_nat i) + bar_width / 2)%Q
                         (inject_Z (Z.of_nat (i + 1)) - bar_width / 2)%Q
                         y1_t y2_t y1_b y2_b cat)) as (col & Hs).
      { exists i, p1, p2, c1, c2. auto 10. }
      unfold ribbon_at. eauto 10.
Qed.

Lemma C8_zero_height_witness :
  exists coords new n,
    ribbon_chart.build []
      [mkRow 2020%Z "A" (Num 3); mkRow 2021%Z "A" (Num 5);
       mkRow 2020%Z "C" (Num 0); mkRow 2021%Z "C" (Num 0)] 2
    = Ok (coords, [] ++ new, n) /\
    coords !! 2020%Z ≫= (.!! "C") = Some (Num 0, Num 0) /\
    coords !! 2021%Z ≫= (.!! "C") = Some (Num 0, Num 0) /\
    is0 (nsub (Num 0) (Num 0)) = true /\
    ~ ribbon_at (inject_Z 2020 + ribbon_chart.bar_width / 2)%Q "C" new.
Proof.
  destruct (C8_zero_height
              (ribbon_engine.mkDataFrame ["Week"; "Employee"; "Hours"]
                 [mkRow "P1" "A" (Num 30); mkRow "P2" "A" (Num 10)])
              "Week" "Employee" "Hours" 2 (2 # 5) ribbon_engine.ColorNone true true
              []
              [mkRow 2020%Z "A" (Num 3); mkRow 2021%Z "A" (Num 5);
               mkRow 2020%Z "C" (Num 0); mkRow 2021%Z "C" (Num 0)] 2)
    as ((coords & new & n & Hb & Hzero) & _).
  - unfold engine_ready. simpl. tauto.
  - apply (bool_decide_unpack _). vm_compute. exact I.
  - assert (Hc : coords !! 2020%Z ≫= (.!! "C") = Some (Num 0, Num 0) /\
                 coords !! 2021%Z ≫= (.!! "C") = Some (Num 0, Num 0)).
    { pose proof Hb as Hb'. vm_compute in Hb'. injection Hb' as Hcoords _ _.
      rewrite <- Hcoords. split; vm_compute; reflexivity. }
    destruct Hc as [Hc1 Hc2].
    exists coords, new, n. split; [exact Hb|]. split; [exact Hc1|].
    split; [exact Hc2|]. split; [reflexivity|].
    apply (Hzero 0%nat 2020%Z 2021%Z "C" (Num 0) (Num 0) (Num 0) (Num 0));
      [reflexivity | reflexivity | exact Hc1 | exact Hc2 | reflexivity | reflexivity].
Defined.

(** C8 as stated fails in [employee_hours_chart.create_ribbon_chart]:
    category A has value 0 in both weeks, both its segments have height
    zero, and the figure still gets a ribbon for it, collapsed onto the
    line y = 0. *)
Lemma C8_counterexample :
  employee_hours_chart.create_ribbon_chart
    [mkRow "W1" "A" (Num 0); mkRow "W2" "A" (Num 0)] 2 =
  Ok [Bar "W1" (Num 0) (Num 0) "A" "rgb(95, 70, 144)" (2 # 5) true;
      Bar "W2" (Num 0) (Num 0) "A" "rgb(95, 70, 144)" (2 # 5) false;
      Scatter (2 # 10) (8 # 10) (Num 0) (Num 0) (Num 0) (Num 0)
        "rgb(95, 70, 144)" "A"].
Proof. vm_compute. reflexivity. Qed.

(** ** C4: the stacking order *)

(** In exact arithmetic the lower edges of a stack of positive heights
    with a non-negative gap increase strictly. *)
Lemma stack_starts_sorted gap y l :
  (0 <= gap)%Q -> (forall c v, In (c, v) l -> (0 < v)%Q) ->
  StronglySorted (fun a b => (a.2 < b.2)%Q) (stack gap y l) /\
  Forall (fun a => (y <= a.2)%Q) (stack gap y l).
Proof.
  intros Hgap. revert y. induction l as [|[c v] l IH]; intros y Hpos; simpl.
  - split; constructor.
  - assert (Hv : (0 < v)%Q) by (apply (Hpos c); now left).
    destruct (IH (y + (v + gap))%Q) as [Hs Hall]; [intros; eapply Hpos; right; eauto|].
    split.
    + constructor; [exact Hs|].
      eapply List.Forall_impl; [|exact Hall]. simpl. intros a Ha. Lqa.lra.
    + constructor; [simpl; Lqa.lra|].
      eapply List.Forall_impl; [|exact Hall]. simpl. intros a Ha. Lqa.lra.
Qed.

Lemma StronglySorted_seg_eq s s' :
  Forall2 seg_eq s s' ->
  StronglySorted (fun a b => (a.2 < b.2)%Q) s' ->
  StronglySorted (fun a b => (a.2 < b.2)%Q) s.
Proof.
  induction 1 as [|a a' s s' [_ Ha] Hss IH]; intros Hs; [constructor|].
  apply StronglySorted_inv in Hs as [Hs Hall]. constructor; [now apply IH|].
  clear IH Hs. induction Hss as [|b b' s s' [_ Hb] _ IH]; [constructor|].
  apply List.Forall_cons_iff in Hall as [Hab Hall].
  constructor; [rewrite Ha, Hb; exact Hab | now apply IH].
Qed.

Lemma StronglySorted_map {A B : Type} (f : A -> B) (R : B -> B -> Prop) l :
  StronglySorted (fun a b => R (f a) (f b)) l -> StronglySorted R (map f l).
Proof.
  induction 1 as [|a l _ IH Hall]; simpl; constructor; [assumption|].
  rewrite List.Forall_forall in Hall |- *. intros b Hb.
  apply in_map_iff in Hb as (x & <- & Hx). auto.
Qed.

Lemma StronglySorted_weaken {A : Type} (R R' : A -> A -> Prop) l :
  (forall a b, R a b -> R' a b) -> StronglySorted R l -> StronglySorted R' l.
Proof.
  intros HR. induction 1 as [|a l _ IH Hall]; constructor; [assumption|].
  eapply List.Forall_impl; [|exact Hall]. auto.
Qed.

Lemma NoDup_key_inj {P : Type} (l : list (Row P)) (a b : Row P) :
  List.NoDup (map (fun r => (period r, category r)) l) ->
  In a l -> In b l -> period a = period b -> category a = category b -> a = b.
Proof.
  induction l as [|r l IH]; intros Hnd Ha Hb Hp Hc; [destruct Ha|].
  simpl in Hnd. apply List.NoDup_cons_iff in Hnd as [Hr Hnd].
  destruct Ha as [<-|Ha], Hb as [<-|Hb]; [reflexivity | | | now apply IH].
  - exfalso. apply Hr. rewrite Hp, Hc. now apply (in_map (fun r => (period r, category r))).
  - exfalso. apply Hr. rewrite <- Hp, <- Hc.
    now apply (in_map (fun r => (period r, category r))).
Qed.

Lemma NoDup_positives {P : Type} `{EqDecision P} (p : P) (l : list (Row P)) :
  List.NoDup (map (fun r => (period r, category r)) l) ->
  List.NoDup (positives (rows_of p l)).
Proof.
  induction l as [|r l IH]; intros Hnd; [constructor|].
  simpl in Hnd. apply List.NoDup_cons_iff in Hnd as [Hr Hnd].
  unfold rows_of. simpl. destruct (bool_decide (period r = p)) eqn:Hp; [|now apply IH].
  apply bool_decide_eq_true in Hp. simpl.
  destruct (value r) as [v|]; [|now apply IH].
  destruct (Qle_bool v 0); [now apply IH|].
  constructor; [|now apply IH].
  intros Hin. apply in_positives in Hin as (r' & Hr' & Hc & _).
  apply in_rows_of in Hr' as [Hr' Hp']. apply Hr.
  rewrite Hp, <- Hp', <- Hc. now apply (in_map (fun r => (period r, category r))).
Qed.

Lemma NoDup_reindex_keys df periods categories :
  List.NoDup periods -> List.NoDup categories ->
  List.NoDup (map (fun r => (period r, category r))
                (flat_map (fun p => map (ribbon_chart.reindex_row df p) categories)
                   periods)).
Proof.
  intros Hp Hc. induction Hp as [|p ps Hp _ IH]; simpl; [constructor|].
  rewrite map_app. apply NoDup_ListNoDup, NoDup_app. split; [|split].
  - apply NoDup_ListNoDup. rewrite map_map.
    clear -Hc. induction Hc as [|c cs Hc _ IH]; simpl; constructor; [|exact IH].
    rewrite reindex_row_period, reindex_row_category. intros Hin.
    apply in_map_iff in Hin as (c' & Heq & Hc').
    rewrite reindex_row_category in Heq. injection Heq as _ ->. contradiction.
  - intros [q c] Hin1 Hin2. apply list_elem_of_In in Hin1, Hin2.
    apply in_map_iff in Hin1 as (r1 & Heq1 & Hr1).
    apply in_map_iff in Hr1 as (c1 & <- & _).
    rewrite reindex_row_period in Heq1. injection Heq1 as <- _.
    apply in_map_iff in Hin2 as (r2 & Heq2 & Hr2).
    apply in_reindex in Hr2 as (p2 & c2 & Hp2 & _ & ->).
    rewrite reindex_row_period in Heq2. injection Heq2 as -> _. contradiction.
  - apply NoDup_ListNoDup, IH.
Qed.

(** The positive rows of a period are the same in the frame and in the
    normalised frame. *)
Lemma reindex_positives df p :
  NoDup (map (fun r => (period r, category r)) df) ->
  Permutation
    (positives (rows_of p
       (flat_map (fun p => map (ribbon_chart.reindex_row df p) (gallery_categories df))
          (gallery_periods df))))
    (positives (rows_of p df)).
Proof.
  intros Hnd. apply NoDup_ListNoDup in Hnd.
  apply Permutation.NoDup_Permutation.
  - apply NoDup_positives, NoDup_reindex_keys.
    + apply NoDup_gallery_periods.
    + apply NoDup_sorted, NoDup_unique.
  - now apply NoDup_positives.
  - intros [c v]. rewrite !in_positives. split.
    + intros (r & Hr & <- & Hv & Hpos). apply in_rows_of in Hr as [Hr <-].
      apply in_reindex in Hr as (q & c' & _ & _ & ->).
      unfold ribbon_chart.reindex_row in *.
      destruct (List.find _ df) as [r0|] eqn:Hfind; simpl in *; [|discriminate].
      apply find_some in Hfind as [Hr0 Hkey].
      apply andb_true_iff in Hkey as [Hq Hc]. apply bool_decide_eq_true in Hq, Hc.
      exists r0. split; [apply in_rows_of; auto|]. auto.
    + intros (r0 & Hr0 & <- & Hv & Hpos). apply in_rows_of in Hr0 as [Hr0 <-].
      exists (ribbon_chart.reindex_row df (period r0) (category r0)).
      split; [apply in_rows_of; split; [|apply reindex_row_period]|].
      * apply in_reindex. exists (period r0), (category r0).
        split; [apply in_gallery_periods; now apply in_map|].
        split; [apply in_gallery_categories; now apply in_map | reflexivity].
      * rewrite reindex_row_category. split; [reflexivity|].
        unfold ribbon_chart.reindex_row.
        destruct (List.find _ df) as [r1|] eqn:Hfind; simpl.
        -- apply find_some in Hfind as [Hr1 Hkey].
           apply andb_true_iff in Hkey as [Hq Hc]. apply bool_decide_eq_true in Hq, Hc.
           rewrite (NoDup_key_inj df r1 r0 Hnd Hr1 Hr0 Hq Hc). auto.
        -- exfalso. apply (find_none _ _ Hfind) in Hr0.
           rewrite !bool_decide_eq_true_2 in Hr0 by reflexivity. discriminate.
Qed.

(** C4, as amended.  In [ribbon_engine.create_ribbon_chart] and in
    [ribbon_chart.add_ribbon_scenario] the rectangles of a period, in
    stacking order, are the rows of the period with a positive value,
    sorted on (value, category): on the value in the direction of
    [sort_ascending] (always ascending in [ribbon_chart]), on the category
    ascending where values tie; with a non-negative gap their lower edges
    never decrease along that order (each is the one before it plus a
    positive height plus the gap: in exact arithmetic they increase
    strictly, in floating point a height can be absorbed by a much larger
    offset).
    [employee_hours_chart.create_ribbon_chart] stacks all the rows of the
    period sorted on the value, ascending; the category has no part in its
    order. *)
Theorem C4_stacking_order df x_col category_col value_col gap bar_width colors
  sort_ascending show_legend (dfh : list (Row string)) gaph
  fig0 (dfg : list (Row Z)) gapg :
  engine_ready df x_col category_col value_col colors ->
  NoDup (map (fun r => (period r, category r)) dfg) ->
  (exists coords fig,
     ribbon_engine.build df x_col category_col value_col gap bar_width colors
       sort_ascending show_legend = Ok (coords, fig) /\
     forall p,
       Permutation (map fst (bars_at p fig))
         (positives (rows_of p (ribbon_engine.rows df))) /\
       StronglySorted (fun a b => key_leb sort_ascending a b = true)
         (map fst (bars_at p fig)) /\
       ((0 <= gap)%Q -> StronglySorted (fun a b => (a.2 <= b.2)%Q) (bars_at p fig))) /\
  (exists coords new n,
     ribbon_chart.build fig0 dfg gapg = Ok (coords, fig0 ++ new, n) /\
     forall p, exists segs,
       bars_at p new = map lift segs /\
       Permutation (map fst segs) (positives (rows_of p dfg)) /\
       StronglySorted (fun a b => key_leb true a b = true) (map fst segs) /\
       ((0 <= gapg)%Q -> StronglySorted (fun a b => (a.2 <= b.2)%Q) segs)) /\
  (exists coords fig,
     employee_hours_chart.build dfh gaph = Ok (coords, fig) /\
     forall p,
       Permutation (map fst (bars_at p fig)) (map row_key (rows_of p dfh)) /\
       StronglySorted (fun a b => value_cmp true a.2 b.2 <> Gt)
         (map fst (bars_at p fig))).
Proof.
  intros Hready Hnd. split; [|split].
  - destruct (engine_build_ok df x_col category_col value_col gap bar_width colors
                sort_ascending show_legend Hready) as (coords & fig & Hb).
    exists coords, fig. split; [exact Hb|].
    apply engine_build_spec in Hb as (color_map & _ & Hbars & _).
    intros p. rewrite Hbars. unfold engine_segments. rewrite stack_map_fst.
    split; [|split].
    + apply positives_perm, sorted_perm.
    + apply positives_sorted, sorted_strongly.
      * apply row_leb_total.
      * apply row_leb_trans.
    + intros Hgap.
      eapply StronglySorted_weaken; [intros a b; apply Qlt_le_weak|].
      apply stack_starts_sorted; [exact Hgap|].
      intros c v. apply positives_positive.
  - destruct (gallery_build_spec fig0 dfg gapg Hnd)
      as (df_norm & cm & coords & new & Hre & _ & Hb & _ & Hbars & _).
    exists coords, new, (length new). split; [exact Hb|].
    unfold ribbon_chart.reindex in Hre.
    rewrite bool_decide_eq_true_2 in Hre by assumption. injection Hre as Hre.
    intros p. rewrite Hbars. unfold gallery_segments.
    set (l := sorted (row_leb true) (rows_of p df_norm)).
    destruct (gallery_entries_stack gapg l 0 0) as (segs & Hs & Heq); [reflexivity|].
    exists segs. split; [exact Hs|].
    rewrite (seg_eq_total_height _ _ Heq), stack_map_fst.
    split; [|split].
    + etransitivity; [apply positives_perm, sorted_perm|].
      rewrite <- Hre. now apply reindex_positives.
    + apply positives_sorted, sorted_strongly.
      * apply row_leb_total.
      * apply row_leb_trans.
    + intros Hgap.
      eapply StronglySorted_weaken; [intros a b; apply Qlt_le_weak|].
      eapply StronglySorted_seg_eq; [exact Heq|].
      apply stack_starts_sorted; [exact Hgap|].
      intros c v. apply positives_positive.
  - destruct (hours_build_spec dfh gaph) as (cm & coords & fig & Hb & _ & _ & Hbars & _).
    exists coords, fig. split; [exact Hb|].
    intros p. rewrite Hbars. unfold hours_segments.
    assert (Hfst : forall y l, map fst (nstack gaph y l) = l).
    { intros y l. revert y. induction l as [|[c v] l IH]; intros y; simpl;
        [reflexivity | now rewrite IH]. }
    rewrite Hfst. split.
    + apply Permutation_map, sorted_perm.
    + apply StronglySorted_map.
      eapply StronglySorted_weaken;
        [|apply (sorted_strongly value_leb value_leb_total value_leb_trans)].
      intros a b. unfold value_leb, row_key. simpl.
      destruct (value_cmp true (value a) (value b)); congruence.
Qed.

Lemma C4_stacking_order_witness :
  (exists coords fig,
     ribbon_engine.build
       (ribbon_engine.mkDataFrame ["Week"; "Employee"; "Hours"]
          [mkRow "W1" "B" (Num 5); mkRow "W1" "A" (Num 5)])
       "Week" "Employee" "Hours" 2 (2 # 5) ribbon_engine.ColorNone true true
     = Ok (coords, fig)) /\
  (exists coords new n,
     ribbon_chart.build [] [mkRow 2020%Z "B" (Num 5); mkRow 2020%Z "A" (Num 5)] 2
     = Ok (coords, [] ++ new, n)).
Proof.
  destruct (C4_stacking_order
              (ribbon_engine.mkDataFrame ["Week"; "Employee"; "Hours"]
                 [mkRow "W1" "B" (Num 5); mkRow "W1" "A" (Num 5)])
              "Week" "Employee" "Hours" 2 (2 # 5) ribbon_engine.ColorNone true true
              [mkRow "W1" "B" (Num 5); mkRow "W1" "A" (Num 5)] 2
              [] [mkRow 2020%Z "B" (Num 5); mkRow 2020%Z "A" (Num 5)] 2)
    as ((coords & fig & H & _) & (coords' & new & n & H' & _) & _).
  - unfold engine_ready. simpl. tauto.
  - apply (bool_decide_unpack _). vm_compute. exact I.
  - split; [exists coords, fig; exact H | exists coords', new, n; exact H'].
Defined.

(** C4 as stated fails in [employee_hours_chart.create_ribbon_chart]: B
    and A tie on the value 5; sorting on (value, category) puts A first,
    and the chart stacks B first, at 0, and A above it, at 7. *)
Lemma C4_counterexample :
  sorted (row_leb true) [mkRow "W1" "B" (Num 5); mkRow "W1" "A" (Num 5)] =
    [mkRow "W1" "A" (Num 5); mkRow "W1" "B" (Num 5)] /\
  employee_hours_chart.create_ribbon_chart
    [mkRow "W1" "B" (Num 5); mkRow "W1" "A" (Num 5)] 2 =
  Ok [Bar "W1" (Num 5) (Num 0) "B" "rgb(95, 70, 144)" (2 # 5) true;
      Bar "W1" (Num 5) (Num 7) "A" "rgb(29, 105, 150)" (2 # 5) true].
Proof. split; vm_compute; reflexivity. Qed.

(** ** The curve sampler *)

Lemma combine_map_same {A B C : Type} (f : A -> B) (g : A -> C) l :
  combine (map f l) (map g l) = map (fun a => (f a, g a)) l.
Proof. induction l as [|a l IH]; simpl; [reflexivity | now rewrite IH]. Qed.

Lemma curve_points x1 y1 y1' x2 y2 y2' n :
  combine (get_sigmoid_curve x1 y1' x2 y2' n).1 (get_sigmoid_curve x1 y1 x2 y2 n).2 =
  map (curve_point x1 y1 x2 y2 n) (seq 0 n).
Proof.
  unfold get_sigmoid_curve, linspace01. simpl fst. simpl snd.
  rewrite !map_map. rewrite combine_map_same. reflexivity.
Qed.

Lemma top_curve_points x1 x2 y1 y2 :
  top_curve x1 x2 y1 y2 =
  map (curve_point x1 y1 x2 y2 n_points_default) (seq 0 n_points_default).
Proof. apply curve_points. Qed.

Lemma bottom_curve_points x1 x2 y1 y2 :
  bottom_curve x1 x2 y1 y2 =
  map (curve_point x1 y1 x2 y2 n_points_default) (seq 0 n_points_default).
Proof. apply curve_points. Qed.

Lemma combine_app_same {A B : Type} (l1 l2 : list A) (k1 k2 : list B) :
  length l1 = length k1 ->
  combine (l1 ++ l2) (k1 ++ k2) = combine l1 k1 ++ combine l2 k2.
Proof.
  revert k1. induction l1 as [|a l1 IH]; intros [|b k1] H; simpl in *;
    try discriminate; [reflexivity|]. rewrite IH by lia. reflexivity.
Qed.

Lemma combine_rev_same {A B : Type} (l : list A) (k : list B) :
  length l = length k -> combine (rev l) (rev k) = rev (combine l k).
Proof.
  revert k. induction l as [|a l IH]; intros [|b k] H; simpl in *;
    try discriminate; [reflexivity|].
  rewrite combine_app_same by (rewrite !length_rev; lia).
  rewrite IH by lia. reflexivity.
Qed.

Lemma curve_lengths x1 y1 x2 y2 n :
  length (get_sigmoid_curve x1 y1 x2 y2 n).1 = n /\
  length (get_sigmoid_curve x1 y1 x2 y2 n).2 = n.
Proof.
  unfold get_sigmoid_curve, linspace01. simpl. rewrite !length_map, length_seq. auto.
Qed.

Lemma polygon_points {X : Type} x1 x2 y1_t y2_t y1_b y2_b col cat :
  polygon (X := X) (Scatter x1 x2 y1_t y2_t y1_b y2_b col cat) =
  top_curve (Q2R x1) (Q2R x2) (Q2R y1_t) (Q2R y2_t) ++
  rev (bottom_curve (Q2R x1) (Q2R x2) (Q2R y1_b) (Q2R y2_b)).
Proof.
  unfold polygon, scatter_x, scatter_y, top_curve, bottom_curve.
  rewrite combine_app_same.
  - rewrite combine_rev_same; [reflexivity|].
    rewrite (proj1 (curve_lengths _ _ _ _ _)), (proj2 (curve_lengths _ _ _ _ _)).
    reflexivity.
  - rewrite (proj1 (curve_lengths _ _ _ _ _)), (proj2 (curve_lengths _ _ _ _ _)).
    reflexivity.
Qed.

Lemma exp_mult_nat (n : nat) (x : R) : exp (INR n * x) = (exp x ^ n)%R.
Proof.
  induction n as [|n IH].
  - simpl. rewrite Rmult_0_l. apply exp_0.
  - rewrite S_INR, Rmult_plus_distr_r, Rmult_1_l, exp_plus, IH. simpl. ring.
Qed.

Lemma exp_5_bounds : (100 < exp 5 <= 243)%R.
Proof.
  split.
  - replace 5%R with (INR 40 * (1 / 8))%R by (simpl; lra).
    rewrite exp_mult_nat.
    apply Rlt_le_trans with ((9 / 8) ^ 40)%R; [simpl; lra|].
    apply pow_incr. split; [lra|].
    left. replace (9 / 8)%R with (1 + 1 / 8)%R by lra. apply exp_ineq1. lra.
  - replace 5%R with (INR 5 * 1)%R by (simpl; lra).
    rewrite exp_mult_nat.
    apply Rle_trans with (3 ^ 5)%R; [|simpl; lra].
    apply pow_incr. split; [left; apply exp_pos | apply exp_le_3].
Qed.

Lemma sigmoid_0 : sigmoid 0 = (1 / (1 + exp 5))%R.
Proof. unfold sigmoid. do 3 f_equal. lra. Qed.

Lemma sigmoid_1 : sigmoid 1 = (1 - 1 / (1 + exp 5))%R.
Proof.
  unfold sigmoid. replace (-10 * (1 - 1 / 2))%R with (Ropp 5) by lra.
  rewrite exp_Ropp. pose proof (exp_pos 5). field. split; lra.
Qed.

Lemma curve_point_first x1 y1 x2 y2 n :
  curve_point x1 y1 x2 y2 (S n) 0 = (x1, (y1 + (y2 - y1) / (1 + exp 5))%R).
Proof.
  unfold curve_point. replace (INR 0 / INR (S n - 1))%R with 0%R
    by (simpl; unfold Rdiv; now rewrite Rmult_0_l).
  rewrite sigmoid_0. pose proof (exp_pos 5). f_equal; [lra | field; lra].
Qed.

Lemma curve_point_last x1 y1 x2 y2 n :
  curve_point x1 y1 x2 y2 (S (S n)) (S n) = (x2, (y2 - (y2 - y1) / (1 + exp 5))%R).
Proof.
  unfold curve_point. replace (INR (S n) / INR (S (S n) - 1))%R with 1%R.
  - rewrite sigmoid_1. pose proof (exp_pos 5). f_equal; [lra | field; lra].
  - replace (S (S n) - 1)%nat with (S n) by lia. symmetry. apply Rdiv_diag.
    apply not_0_INR. discriminate.
Qed.

Lemma head_map_seq {A : Type} (f : nat -> A) n :
  head (map f (seq 0 (S n))) = Some (f 0%nat).
Proof. reflexivity. Qed.

Lemma last_map_seq {A : Type} (f : nat -> A) n :
  last (map f (seq 0 (S n))) = Some (f n).
Proof. rewrite seq_S, map_app. simpl. apply last_snoc. Qed.

(** ** C5: the ends of the boundary curves *)

(** C5, as amended.  The first sampled point of a ribbon's top curve has
    abscissa [x_start] and the last has abscissa [x_end], exactly.  Their
    ordinates are not the segment edges: since the logistic ramp takes the
    value [1/(1 + e^5)] at 0 and [1 - 1/(1 + e^5)] at 1, the first
    ordinate is [y1_top + (y2_top - y1_top)/(1 + e^5)] and the last is
    [y2_top - (y2_top - y1_top)/(1 + e^5)]; the fraction [1/(1 + e^5)]
    lies between 1/244 and 1/101, so each end is off by between 0.4% and
    1% of the change of the edge, and meets the edge only when
    [y1_top = y2_top].  The same holds for the bottom curve. *)
Theorem C5_curve_ends (x1 x2 y1_t y2_t y1_b y2_b : R) :
  head (top_curve x1 x2 y1_t y2_t) =
    Some (x1, (y1_t + (y2_t - y1_t) / (1 + exp 5))%R) /\
  last (top_curve x1 x2 y1_t y2_t) =
    Some (x2, (y2_t - (y2_t - y1_t) / (1 + exp 5))%R) /\
  head (bottom_curve x1 x2 y1_b y2_b) =
    Some (x1, (y1_b + (y2_b - y1_b) / (1 + exp 5))%R) /\
  last (bottom_curve x1 x2 y1_b y2_b) =
    Some (x2, (y2_b - (y2_b - y1_b) / (1 + exp 5))%R) /\
  (1 / 244 <= 1 / (1 + exp 5) < 1 / 101)%R.
Proof.
  rewrite top_curve_points, bottom_curve_points. unfold n_points_default.
  rewrite !head_map_seq, !last_map_seq, !curve_point_first, !curve_point_last.
  repeat split; try reflexivity.
  - pose proof exp_5_bounds as [Hlo Hhi].
    apply Rmult_le_reg_r with (1 + exp 5)%R; [lra|]. field_simplify; lra.
  - pose proof exp_5_bounds as [Hlo Hhi].
    apply Rmult_lt_reg_r with (1 + exp 5)%R; [lra|]. field_simplify; lra.
Qed.

(** C5 as stated fails.  In the chart of P1 = (A: 30, B: 10),
    P2 = (A: 10, B: 30) with gap 2, the top edge of B goes from 10 to 42;
    the first point of the ribbon's polygon, which is the first sampled
    point of the top curve, lies more than 0.1 above the edge value 10. *)
Lemma C5_counterexample :
  ribbon_engine.create_ribbon_chart
    (ribbon_engine.mkDataFrame ["Week"; "Employee"; "Hours"]
       [mkRow "P1" "A" (Num 30); mkRow "P1" "B" (Num 10);
        mkRow "P2" "A" (Num 10); mkRow "P2" "B" (Num 30)])
    "Week" "Employee" "Hours" 2 (2 # 5) ribbon_engine.ColorNone true true =
  Ok [Bar "P1" 10%Q 0%Q "B" "#DC3912" (2 # 5) true;
      Bar "P1" 30%Q 12%Q "A" "#3366CC" (2 # 5) true;
      Bar "P2" 10%Q 0%Q "A" "#3366CC" (2 # 5) false;
      Bar "P2" 30%Q 12%Q "B" "#DC3912" (2 # 5) false;
      Scatter (2 # 10) (8 # 10) 42%Q 10%Q 12%Q 0%Q "#3366CC" "A";
      Scatter (2 # 10) (8 # 10) 10%Q 42%Q 0%Q 12%Q "#DC3912" "B"] /\
  exists x y,
    head (polygon (Scatter (X := string) (2 # 10) (8 # 10) 10%Q 42%Q 0%Q 12%Q
                     "#DC3912" "B"))
      = Some (x, y) /\
    head (top_curve (Q2R (2 # 10)) (Q2R (8 # 10)) (Q2R 10) (Q2R 42)) = Some (x, y) /\
    (y - Q2R 10 > 1 / 10)%R.
Proof.
  split; [vm_compute; reflexivity|].
  assert (Hhead : head (top_curve (Q2R (2 # 10)) (Q2R (8 # 10)) (Q2R 10) (Q2R 42)) =
                  Some (Q2R (2 # 10),
                        (Q2R 10 + (Q2R 42 - Q2R 10) / (1 + exp 5))%R)).
  { rewrite top_curve_points. unfold n_points_default.
    now rewrite head_map_seq, curve_point_first. }
  eexists _, _. split; [|split; [exact Hhead|]].
  - rewrite polygon_points. rewrite top_curve_points in Hhead |- *.
    unfold n_points_default in *. simpl seq. simpl map at 1. simpl app. simpl head.
    rewrite head_map_seq in Hhead. exact Hhead.
  - pose proof exp_5_bounds as [Hlo Hhi].
    assert (H : (1 / 244 <= 1 / (1 + exp 5))%R).
    { apply Rmult_le_reg_r with (1 + exp 5)%R; [lra|]. field_simplify; lra. }
    unfold Q2R. simpl. lra.
Qed.

(** ** C7: how a curve is sampled *)

(** C7.  [get_sigmoid_curve] returns [n_points] abscissas and as many
    ordinates (30 by default, and no caller asks for another number); the
    sample of index [k] has abscissa [x1 + t (x2 - x1)] and ordinate
    [y1 + f(t) (y2 - y1)] with [t = k/(n_points - 1)] and
    [f(t) = 1/(1 + exp(-10 (t - 1/2)))]; the parameters start at 0, end at
    1 and are [1/(n_points - 1)] apart.  The polygon of a ribbon is the
    top curve from left to right followed by the bottom curve reversed. *)
Theorem C7_curve_sampling (x1 y1 x2 y2 : R) (n k : nat) :
  (k < n)%nat ->
  length (get_sigmoid_curve x1 y1 x2 y2 n).1 = n /\
  length (get_sigmoid_curve x1 y1 x2 y2 n).2 = n /\
  nth k (get_sigmoid_curve x1 y1 x2 y2 n).1 0%R =
    (x1 + INR k / INR (n - 1) * (x2 - x1))%R /\
  nth k (get_sigmoid_curve x1 y1 x2 y2 n).2 0%R =
    (y1 + 1 / (1 + exp (-10 * (INR k / INR (n - 1) - 1 / 2))) * (y2 - y1))%R /\
  (INR 0 / INR (n - 1) = 0)%R /\
  ((2 <= n)%nat -> (INR (n - 1) / INR (n - 1) = 1)%R) /\
  ((S k < n)%nat ->
   (INR (S k) / INR (n - 1) - INR k / INR (n - 1) = 1 / INR (n - 1))%R) /\
  n_points_default = 30%nat /\
  (forall a b c d,
     top_curve a b c d =
       combine (get_sigmoid_curve a 0 b 1 n_points_default).1
               (get_sigmoid_curve a c b d n_points_default).2 /\
     bottom_curve a b c d =
       combine (get_sigmoid_curve a 0 b 1 n_points_default).1
               (get_sigmoid_curve a c b d n_points_default).2 /\
     (get_sigmoid_curve a 0 b 1 n_points_default).1 =
       (get_sigmoid_curve a c b d n_points_default).1) /\
  (forall qx1 qx2 y1_t y2_t y1_b y2_b col cat,
     polygon (X := string) (Scatter qx1 qx2 y1_t y2_t y1_b y2_b col cat) =
     top_curve (Q2R qx1) (Q2R qx2) (Q2R y1_t) (Q2R y2_t) ++
     rev (bottom_curve (Q2R qx1) (Q2R qx2) (Q2R y1_b) (Q2R y2_b))).
Proof.
  intros Hk. split; [apply curve_lengths|]. split; [apply curve_lengths|].
  unfold get_sigmoid_curve, linspace01. simpl fst. simpl snd.
  rewrite !map_map.
  split.
  { rewrite (nth_indep _ 0%R ((fun x => (x1 + INR x / INR (n - 1) * (x2 - x1))%R) 0%nat))
      by (now rewrite length_map, length_seq).
    rewrite (map_nth (fun x => (x1 + INR x / INR (n - 1) * (x2 - x1))%R)).
    now rewrite seq_nth. }
  split.
  { rewrite (nth_indep _ 0%R
               ((fun x => (y1 + sigmoid (INR x / INR (n - 1)) * (y2 - y1))%R) 0%nat))
      by (now rewrite length_map, length_seq).
    rewrite (map_nth (fun x => (y1 + sigmoid (INR x / INR (n - 1)) * (y2 - y1))%R)).
    now rewrite seq_nth. }
  split; [simpl; unfold Rdiv; apply Rmult_0_l|].
  split.
  { intros Hn. apply Rdiv_diag. apply not_0_INR. lia. }
  split.
  { intros HSk. rewrite S_INR.
    assert (INR (n - 1) <> 0)%R by (apply not_0_INR; lia). field. assumption. }
  split; [reflexivity|]. split.
  - intros a b c d. repeat split; reflexivity.
  - intros. apply polygon_points.
Qed.

Lemma C7_curve_sampling_witness :
  (29 < 30)%nat /\
  length (get_sigmoid_curve 0 0 1 1 30).1 = 30%nat /\
  nth 29 (get_sigmoid_curve 0 0 1 1 30).1 0%R = (0 + INR 29 / INR (30 - 1) * (1 - 0))%R.
Proof.
  assert (H : (29 < 30)%nat) by lia.
  split; [exact H|].
  destruct (C7_curve_sampling 0 0 1 1 30 29 H) as (Hlen & _ & Hx & _).
  split; [exact Hlen | exact Hx].
Defined.

(** ** A sort that reads the value column only *)

(** Whatever index array a sort computes from the values alone, it is the
    same for two frames with the same values: of the frames (B: 5, A: 5)
    and (A: 5, B: 5), at most one comes out in category order. *)
Lemma value_only_sort_leaves_ties (argsort : list number -> list nat) :
  let d := mkRow "" "" NaN in
  let ba := [mkRow "W1" "B" (Num 5); mkRow "W1" "A" (Num 5)] in
  let ab := [mkRow "W1" "A" (Num 5); mkRow "W1" "B" (Num 5)] in
  ~ (map category (take_rows d ba (argsort (map value ba))) = ["A"; "B"] /\
     map category (take_rows d ab (argsort (map value ab))) = ["A"; "B"]).
Proof.
  simpl. destruct (argsort [Num 5; Num 5]) as [|i [|j [|]]]; simpl;
    try (intros [H _]; discriminate H).
  destruct i as [|[|[|i]]]; simpl; intros [H1 H2];
    solve [discriminate H1 | discriminate H2].
Qed.

(** * Further properties *)

(** ** Outcomes of [ribbon_engine.create_ribbon_chart] *)

Lemma positive_rows_cover_dec (d : gmap string string) (rows : list (Row string)) :
  (forall r, In r rows -> gt0 (value r) = true -> is_Some (d !! category r)) \/
  (exists r, In r rows /\ gt0 (value r) = true /\ d !! category r = None).
Proof.
  induction rows as [|r rows [IH|(r' & Hin & Hpos & Hd)]].
  - left. intros ? [].
  - destruct (gt0 (value r)) eqn:Hpos.
    + destruct (d !! category r) eqn:Hd.
      * left. intros r' [<-|Hin] Hp; [rewrite Hd; eauto | auto].
      * right. exists r. split; [now left | auto].
    + left. intros r' [<-|Hin] Hp; [congruence | auto].
  - right. exists r'. split; [now right | auto].
Qed.

(** The engine returns a chart as soon as the colour map has a colour for
    the category of every row with a positive value. *)
Lemma engine_build_covered df x_col category_col value_col gap bar_width colors
  sort_ascending show_legend color_map :
  In x_col (ribbon_engine.columns df) ->
  In category_col (ribbon_engine.columns df) ->
  In value_col (ribbon_engine.columns df) ->
  ribbon_engine.color_setup colors (engine_categories df) = Ok color_map ->
  (forall r, In r (ribbon_engine.rows df) -> gt0 (value r) = true ->
             is_Some (color_map !! category r)) ->
  exists coords fig,
    ribbon_engine.build df x_col category_col value_col gap bar_width colors
      sort_ascending show_legend = Ok (coords, fig).
Proof.
  intros H1 H2 H3 Hcm Hcover.
  unfold ribbon_engine.build. fold (engine_periods df). fold (engine_categories df).
  rewrite engine_validate_ok by assumption. cbn [bind]. rewrite Hcm. cbn [bind].
  unfold ribbon_engine.bar_generation.
  destruct (engine_bar_loop_ok gap bar_width color_map sort_ascending show_legend
              (ribbon_engine.rows df) (enumerate (engine_periods df)) (∅, []))
    as ([coords fig] & Hbars); [exact Hcover|].
  rewrite Hbars. cbn [bind].
  apply engine_bar_loop in Hbars as (Hin & Hout & _);
    [|rewrite map_snd_enumerate; apply NoDup_engine_periods].
  rewrite map_snd_enumerate in Hin, Hout.
  destruct (engine_ribbon_generation_ok bar_width color_map coords
              (engine_periods df) (engine_categories df) fig) as [fig' ->].
  - intros p Hp. destruct (Hin p Hp) as [_ ->]. eauto.
  - intros p here cat Hp [e He].
    destruct (in_dec string_dec p (engine_periods df)) as [Hper|Hper].
    + destruct (Hin p Hper) as [_ Hc]. rewrite Hc in Hp. injection Hp as <-.
      apply engine_entry_row in He as (r & v & Hr & _ & <- & _ & Hpos & _). auto.
    + destruct (Hout p Hper) as [_ Hc]. rewrite Hc, lookup_empty in Hp. discriminate.
  - cbn [bind]. eauto.
Qed.

Lemma engine_categories_nonempty df :
  ribbon_engine.rows df <> [] -> engine_categories df <> [].
Proof.
  intros Hne Hnil. destruct (ribbon_engine.rows df) as [|r rows] eqn:Hrows; [congruence|].
  assert (Hin : In (category r) (engine_categories df)).
  { apply in_engine_categories. rewrite Hrows. now left. }
  rewrite Hnil in Hin. destruct Hin.
Qed.

(** The outcome as far as the frame and the colour lookups decide it: with
    the three columns in the frame, the lookups succeed exactly when the
    [colors] argument serves the rows that are drawn, and the errors they
    raise are [ZeroDivisionError] and [KeyError].  The checks the plotting
    library makes on the arguments of a trace (a colour it can read, a
    width that is not negative) are not part of [add_bar]. *)
Lemma engine_lookup_outcome df x_col category_col value_col gap bar_width colors
  sort_ascending show_legend :
  In x_col (ribbon_engine.columns df) ->
  In category_col (ribbon_engine.columns df) ->
  In value_col (ribbon_engine.columns df) ->
  ((exists fig,
      ribbon_engine.create_ribbon_chart df x_col category_col value_col gap bar_width
        colors sort_ascending show_legend = Ok fig) <->
   engine_colors_serve colors (ribbon_engine.rows df)) /\
  (forall e,
     ribbon_engine.create_ribbon_chart df x_col category_col value_col gap bar_width
       colors sort_ascending show_legend = Raise e ->
     match colors with
     | ribbon_engine.ColorDict d => exists cat, e = KeyError cat /\ d !! cat = None
     | ribbon_engine.ColorList l => e = ZeroDivisionError /\ l = []
     | ribbon_engine.ColorNone => False
     end).
Proof.
  intros H1 H2 H3.
  assert (Hok : forall color_map,
            ribbon_engine.color_setup colors (engine_categories df) = Ok color_map ->
            (forall r, In r (ribbon_engine.rows df) -> gt0 (value r) = true ->
                       is_Some (color_map !! category r)) ->
            exists fig,
              ribbon_engine.create_ribbon_chart df x_col category_col value_col gap
                bar_width colors sort_ascending show_legend = Ok fig).
  { intros cm Hcm Hcover.
    destruct (engine_build_covered df x_col category_col value_col gap bar_width colors
                sort_ascending show_legend cm H1 H2 H3 Hcm Hcover) as (coords & fig & Hb).
    exists fig. unfold ribbon_engine.create_ribbon_chart. now rewrite Hb. }
  assert (Hpal : forall palette, palette <> [] ->
            ribbon_engine.color_setup colors (engine_categories df)
              = cycle_palette palette (engine_categories df) ->
            exists fig,
              ribbon_engine.create_ribbon_chart df x_col category_col value_col gap
                bar_width colors sort_ascending show_legend = Ok fig).
  { intros palette Hne Hset.
    destruct (cycle_palette_ok palette (engine_categories df) Hne) as (m & Hm & Hdom).
    apply (Hok m); [congruence|]. intros r Hr _. apply Hdom, in_engine_categories.
    now apply in_map. }
  destruct colors as [d|l|].
  - destruct (positive_rows_cover_dec d (ribbon_engine.rows df))
      as [Hcover|(r & Hr & Hpos & Hd)].
    + destruct (Hok d eq_refl Hcover) as [fig Hfig]. split.
      * split; [intros _; exact Hcover | eauto].
      * intros e He. congruence.
    + destruct (engine_bar_loop_raise gap bar_width d sort_ascending show_legend
                  (ribbon_engine.rows df) (enumerate (engine_periods df)) (∅, []))
        as (cat & Hcat & Hraise).
      { exists r. repeat split; try assumption.
        rewrite map_snd_enumerate. apply in_engine_periods. now apply in_map. }
      assert (Hrun : ribbon_engine.create_ribbon_chart df x_col category_col value_col
                       gap bar_width (ribbon_engine.ColorDict d) sort_ascending
                       show_legend = Raise (KeyError cat)).
      { unfold ribbon_engine.create_ribbon_chart, ribbon_engine.build.
        fold (engine_periods df). fold (engine_categories df).
        rewrite engine_validate_ok by assumption. cbn [bind ribbon_engine.color_setup].
        unfold ribbon_engine.bar_generation. rewrite Hraise. reflexivity. }
      rewrite Hrun. split.
      * split; [intros [fig Hfig]; discriminate|].
        intros Hserve. destruct (Hserve r Hr Hpos) as [col Hcol]. congruence.
      * intros e [= <-]. eauto.
  - destruct l as [|col l].
    + destruct (ribbon_engine.rows df) as [|r rows] eqn:Hrows.
      * assert (Hrun : ribbon_engine.create_ribbon_chart df x_col category_col value_col
                         gap bar_width (ribbon_engine.ColorList []) sort_ascending
                         show_legend = Ok []).
        { unfold ribbon_engine.create_ribbon_chart, ribbon_engine.build.
          rewrite engine_validate_ok by assumption. rewrite Hrows. reflexivity. }
        rewrite Hrun. split; [|discriminate].
        split; [intros _; now right | eauto].
      * assert (Hcats : engine_categories df <> [])
          by (apply engine_categories_nonempty; rewrite Hrows; discriminate).
        assert (Hrun : ribbon_engine.create_ribbon_chart df x_col category_col value_col
                         gap bar_width (ribbon_engine.ColorList []) sort_ascending
                         show_legend = Raise ZeroDivisionError).
        { unfold ribbon_engine.create_ribbon_chart, ribbon_engine.build.
          fold (engine_periods df). fold (engine_categories df).
          rewrite engine_validate_ok by assumption.
          cbn [bind ribbon_engine.color_setup]. unfold cycle_palette, enumerate.
          destruct (engine_categories df) as [|c cs]; [congruence|]. reflexivity. }
        rewrite Hrun. split.
        -- split; [intros [fig Hfig]; discriminate|].
           intros [Hl|Hl]; [now contradiction Hl | discriminate].
        -- intros e [= <-]. auto.
    + destruct (Hpal (col :: l)) as [fig Hfig]; [discriminate | reflexivity |].
      rewrite Hfig. split; [|discriminate].
      split; [intros _; left; discriminate | eauto].
  - destruct (Hpal ribbon_engine.G10) as [fig Hfig]; [discriminate | reflexivity |].
    rewrite Hfig. split; [|discriminate]. split; [intros _; exact I | eauto].
Qed.

(** X1.  When the three columns are in the frame: if
    [ribbon_engine.create_ribbon_chart] returns a figure, the [colors]
    argument has served the rows that are drawn (a dict holds the category
    of every row with a positive value; a list is not empty, unless the
    frame has no row at all); with the empty list and a frame that has a
    row the call raises [ZeroDivisionError], at the colour setup, before
    any trace is built; with the default palette, a bar width that is not
    negative and the title, height and hover template left at their
    defaults, the call returns a figure, whatever the rows are. *)
Theorem engine_outcome df x_col category_col value_col gap bar_width colors
  sort_ascending show_legend :
  In x_col (ribbon_engine.columns df) ->
  In category_col (ribbon_engine.columns df) ->
  In value_col (ribbon_engine.columns df) ->
  (forall fig,
     ribbon_engine.create_ribbon_chart df x_col category_col value_col gap bar_width
       colors sort_ascending show_legend = Ok fig ->
     engine_colors_serve colors (ribbon_engine.rows df)) /\
  (colors = ribbon_engine.ColorList [] -> ribbon_engine.rows df <> [] ->
   ribbon_engine.create_ribbon_chart df x_col category_col value_col gap bar_width
     colors sort_ascending show_legend = Raise ZeroDivisionError) /\
  (colors = ribbon_engine.ColorNone -> (0 <= bar_width)%Q ->
   exists fig,
     ribbon_engine.create_ribbon_chart df x_col category_col value_col gap bar_width
       colors sort_ascending show_legend = Ok fig).
Proof.
  intros H1 H2 H3.
  destruct (engine_lookup_outcome df x_col category_col value_col gap bar_width colors
              sort_ascending show_legend H1 H2 H3) as [Hiff Hraise].
  split; [|split].
  - intros fig Hfig. apply Hiff. eauto.
  - intros -> Hrows.
    destruct (ribbon_engine.create_ribbon_chart _ _ _ _ _ _ _ _ _) as [fig|e] eqn:Hrun.
    + exfalso. destruct (proj1 Hiff (ex_intro _ fig eq_refl)) as [Hl|Hl];
        [now apply Hl | contradiction].
    + destruct (Hraise e eq_refl) as [-> _]. reflexivity.
  - intros -> _. apply Hiff. exact I.
Qed.

Lemma engine_outcome_witness :
  ribbon_engine.create_ribbon_chart
    (ribbon_engine.mkDataFrame ["Week"; "Employee"; "Hours"] [mkRow "W1" "A" (Num 3)])
    "Week" "Employee" "Hours" 2 (2 # 5) (ribbon_engine.ColorList []) true true
    = Raise ZeroDivisionError /\
  exists fig,
    ribbon_engine.create_ribbon_chart
      (ribbon_engine.mkDataFrame ["Week"; "Employee"; "Hours"] [mkRow "W1" "A" (Num 3)])
      "Week" "Employee" "Hours" 2 (2 # 5) ribbon_engine.ColorNone true true = Ok fig.
Proof.
  split.
  - apply (engine_outcome
             (ribbon_engine.mkDataFrame ["Week"; "Employee"; "Hours"]
                [mkRow "W1" "A" (Num 3)])
             "Week" "Employee" "Hours" 2 (2 # 5) (ribbon_engine.ColorList []) true true);
      [simpl; tauto | simpl; tauto | simpl; tauto | reflexivity | discriminate].
  - apply (engine_outcome
             (ribbon_engine.mkDataFrame ["Week"; "Employee"; "Hours"]
                [mkRow "W1" "A" (Num 3)])
             "Week" "Employee" "Hours" 2 (2 # 5) ribbon_engine.ColorNone true true);
      [simpl; tauto | simpl; tauto | simpl; tauto | reflexivity | discriminate].
Defined.

(** ** Outcomes of [ribbon_chart.add_ribbon_scenario] *)

Lemma add_ribbon_scenario_appends fig0 df gap fig n :
  ribbon_chart.add_ribbon_scenario fig0 df gap = Ok (fig, n) ->
  NoDup (map (fun r => (period r, category r)) df) /\
  exists new, fig = fig0 ++ new /\ n = length new.
Proof.
  unfold ribbon_chart.add_ribbon_scenario.
  destruct (decide (NoDup (map (fun r => (period r, category r)) df))) as [Hnd|Hnd].
  - destruct (gallery_build_spec fig0 df gap Hnd)
      as (df_norm & colors & coords & new & _ & _ & -> & _).
    simpl. intros [= <- <-]. eauto.
  - unfold ribbon_chart.build, ribbon_chart.reindex.
    rewrite bool_decide_eq_false_2 by assumption. discriminate.
Qed.

(** X2.  [ribbon_chart.add_ribbon_scenario] returns exactly on the frames
    with at most one row per (period, category).  It then leaves the
    traces that the figure already has in place, appends its own after
    them, and returns the number of traces it appended.  On a frame with a
    repeated (period, category) the reindexing raises a [ValueError] and
    nothing is added. *)
Theorem gallery_outcome fig0 df gap :
  match ribbon_chart.add_ribbon_scenario fig0 df gap with
  | Ok (fig, n) =>
      NoDup (map (fun r => (period r, category r)) df) /\
      exists new, fig = fig0 ++ new /\ n = length new
  | Raise e =>
      ~ NoDup (map (fun r => (period r, category r)) df) /\
      e = ValueError "cannot handle a non-unique multi-index!"
  end.
Proof.
  destruct (ribbon_chart.add_ribbon_scenario fig0 df gap) as [[fig n]|e] eqn:Hrun.
  - now apply add_ribbon_scenario_appends in Hrun.
  - destruct (decide (NoDup (map (fun r => (period r, category r)) df))) as [Hnd|Hnd].
    + destruct (gallery_build_spec fig0 df gap Hnd)
        as (df_norm & colors & coords & new & _ & _ & Hb & _).
      unfold ribbon_chart.add_ribbon_scenario in Hrun. rewrite Hb in Hrun. discriminate.
    + split; [assumption|].
      unfold ribbon_chart.add_ribbon_scenario, ribbon_chart.build, ribbon_chart.reindex
        in Hrun.
      rewrite bool_decide_eq_false_2 in Hrun by assumption. simpl in Hrun. congruence.
Qed.

(** ** The buttons of the gallery *)

Lemma add_scenarios_loop (dfs : list (list (Row Z))) fig0 counts0 fig counts :
  for_each
    (fun (st : ribbon_chart.figure * list nat) df =>
       do r <- ribbon_chart.add_ribbon_scenario st.1 df 2;
       Ok (r.1, st.2 ++ [r.2]))
    dfs (fig0, counts0) = Ok (fig, counts) ->
  exists news,
    fig = fig0 ++ concat news /\ counts = counts0 ++ map length news /\
    length news = length dfs /\
    forall i df, dfs !! i = Some df ->
      exists new,
        news !! i = Some new /\
        ribbon_chart.add_ribbon_scenario (fig0 ++ concat (take i news)) df 2 =
          Ok ((fig0 ++ concat (take i news)) ++ new, length new).
Proof.
  revert fig0 counts0. induction dfs as [|df dfs IH]; intros fig0 counts0 Hrun.
  - simpl in Hrun. injection Hrun as <- <-. exists []. simpl.
    rewrite !app_nil_r. split; [reflexivity|]. split; [reflexivity|].
    split; [reflexivity|]. intros i df H. destruct i; discriminate.
  - apply for_each_cons_ok in Hrun as ([fig1 counts1] & Hstep & Hrest).
    simpl in Hstep.
    destruct (ribbon_chart.add_ribbon_scenario fig0 df 2) as [[fig' n]|] eqn:Hadd;
      [|discriminate].
    simpl in Hstep. injection Hstep as <- <-.
    pose proof Hadd as Hadd'.
    apply add_ribbon_scenario_appends in Hadd' as (_ & new & -> & ->).
    apply IH in Hrest as (news & -> & -> & Hlen & Hcalls).
    exists (new :: news). simpl. rewrite <- !app_assoc. simpl.
    split; [reflexivity|]. split; [reflexivity|]. split; [now rewrite Hlen|].
    intros [|i] df' Hdf; simpl in Hdf.
    + injection Hdf as <-. exists new. simpl. rewrite app_nil_r. auto.
    + destruct (Hcalls i df' Hdf) as (new' & Hnew' & Hcall).
      exists new'. split; [exact Hnew'|]. simpl. rewrite app_assoc. exact Hcall.
Qed.

Lemma set_visible_range (count : nat) :
  forall start (v : list bool),
    (start + count <= length v)%nat ->
    exists v',
      set_visible v (seq start count) = Some v' /\ length v' = length v /\
      forall j, v' !! j = Some true <->
                v !! j = Some true \/ (start <= j < start + count)%nat.
Proof.
  induction count as [|count IH]; intros start v Hlen; simpl.
  - exists v. repeat split; [tauto | intros [?|?]; [assumption | lia]].
  - assert (Hlt : (start <? length v)%nat = true) by (apply Nat.ltb_lt; lia).
    rewrite Hlt.
    destruct (IH (S start) (<[start := true]> v)) as (v' & Hv' & Hl & Hj);
      [rewrite length_insert; lia|].
    exists v'. split; [exact Hv'|]. split; [now rewrite Hl, length_insert|].
    intros j. rewrite Hj, list_lookup_insert_Some. split.
    + intros [[(<- & _ & _)|(_ & H)]|H]; [right; lia | now left | right; lia].
    + intros [H|H].
      * destruct (decide (start = j)) as [<-|Hne].
        -- left. left. repeat split. apply lookup_lt_Some in H. exact H.
        -- left. right. auto.
      * destruct (decide (start = j)) as [<-|Hne]; [left; left; repeat split; lia|].
        right. lia.
Qed.

Lemma buttons_ranges (n : nat) (counts : list nat) :
  forall start,
    (start + list_sum counts <= n)%nat ->
    exists masks,
      buttons n start counts = Some masks /\ length masks = length counts /\
      forall i mask, masks !! i = Some mask ->
        length mask = n /\
        forall j, mask !! j = Some true <->
                  (start + list_sum (take i counts) <= j
                   < start + list_sum (take (S i) counts))%nat.
Proof.
  induction counts as [|count rest IH]; intros start Hsum; simpl.
  - exists []. split; [reflexivity|]. split; [reflexivity|].
    intros i mask H. destruct i; discriminate.
  - simpl in Hsum.
    destruct (set_visible_range count start (replicate n false)) as (v & -> & Hl & Hv);
      [rewrite length_replicate; lia|].
    destruct (IH (start + count)%nat) as (bs & -> & Hlen & Hbs); [lia|].
    exists (v :: bs). split; [reflexivity|]. split; [simpl; now rewrite Hlen|].
    intros [|i] mask Hmask; simpl in Hmask.
    + injection Hmask as <-. split; [now rewrite Hl, length_replicate|].
      intros j. rewrite Hv, lookup_replicate. simpl. split.
      * intros [[[=] _]|H]. lia.
      * intros H. right. lia.
    + destruct (Hbs i mask Hmask) as [Hm Hj]. split; [exact Hm|].
      intros j. rewrite Hj. simpl. lia.
Qed.

(** X3.  In [create_interactive_gallery], when every scenario could be
    added, the figure is the concatenation of the traces the calls
    appended, one run of traces per scenario, in order.  Setting the
    visibility flags never runs past the end of the figure, there is one
    button per scenario, every [visible] list has one flag per trace, and
    the list of button [i] is true exactly at the positions of the traces
    that the call for scenario [i] appended: every trace is shown by the
    button of its own scenario and by no other. *)
Theorem gallery_buttons dfs fig counts :
  add_scenarios dfs = Ok (fig, counts) ->
  exists news masks,
    fig = concat news /\ counts = map length news /\
    (forall i df, dfs !! i = Some df ->
       exists new,
         news !! i = Some new /\
         ribbon_chart.add_ribbon_scenario (concat (take i news)) df 2 =
           Ok (concat (take i news) ++ new, length new)) /\
    buttons (length fig) 0 counts = Some masks /\
    length masks = length dfs /\
    forall i mask, masks !! i = Some mask ->
      length mask = length fig /\
      forall j, mask !! j = Some true <->
                (length (concat (take i news)) <= j
                 < length (concat (take (S i) news)))%nat.
Proof.
  unfold add_scenarios. intros Hrun.
  apply add_scenarios_loop in Hrun as (news & Hfig & Hcounts & Hlen & Hcalls).
  simpl in Hfig, Hcounts, Hcalls. subst fig counts.
  destruct (buttons_ranges (length (concat news)) (map length news) 0)
    as (masks & Hb & Hl & Hm); [rewrite length_concat; lia|].
  exists news, masks. split; [reflexivity|]. split; [reflexivity|].
  split; [exact Hcalls|]. split; [exact Hb|].
  split; [now rewrite Hl, length_map|].
  intros i mask Hmask. destruct (Hm i mask Hmask) as [Hlm Hj].
  split; [exact Hlm|]. intros j. rewrite Hj.
  rewrite !firstn_map, <- !length_concat. simpl. tauto.
Qed.

Lemma gallery_buttons_witness :
  add_scenarios
    [[mkRow 2020%Z "A" (Num 3); mkRow 2021%Z "A" (Num 5)];
     [mkRow 2020%Z "A" (Num 1); mkRow 2020%Z "B" (Num 2)]] =
    Ok ([Bar 2020%Z (Num 3) (Num 0) "A" "#1F77B4" (35 # 100) true;
         Bar 2021%Z (Num 5) (Num 0) "A" "#1F77B4" (35 # 100) false;
         Scatter (404035 # 200) (404165 # 200) (Num 3) (Num 5) (Num 0) (Num 0)
           "#1F77B4" "A";
         Bar 2020%Z (Num 1) (Num 0) "A" "#1F77B4" (35 # 100) true;
         Bar 2020%Z (Num 2) (Num 3) "B" "#FF7F0E" (35 # 100) true],
        [3%nat; 2%nat]) /\
  exists masks,
    buttons 5 0 [3%nat; 2%nat] = Some masks /\ length masks = 2%nat.
Proof.
  split; [vm_compute; reflexivity|].
  destruct (gallery_buttons
              [[mkRow 2020%Z "A" (Num 3); mkRow 2021%Z "A" (Num 5)];
               [mkRow 2020%Z "A" (Num 1); mkRow 2020%Z "B" (Num 2)]]
              [Bar 2020%Z (Num 3) (Num 0) "A" "#1F77B4" (35 # 100) true;
               Bar 2021%Z (Num 5) (Num 0) "A" "#1F77B4" (35 # 100) false;
               Scatter (404035 # 200) (404165 # 200) (Num 3) (Num 5) (Num 0) (Num 0)
                 "#1F77B4" "A";
               Bar 2020%Z (Num 1) (Num 0) "A" "#1F77B4" (35 # 100) true;
               Bar 2020%Z (Num 2) (Num 3) "B" "#FF7F0E" (35 # 100) true]
              [3%nat; 2%nat])
    as (news & masks & _ & _ & _ & Hb & Hl & _); [vm_compute; reflexivity|].
  exists masks. split; [exact Hb | exact Hl].
Defined.

(** ** Loop invariants *)

Lemma for_each_inv {S A : Type} (body : S -> A -> result S) (I : S -> Prop) l :
  (forall s a s', In a l -> I s -> body s a = Ok s' -> I s') ->
  forall s s', I s -> for_each body l s = Ok s' -> I s'.
Proof.
  induction l as [|a l IH]; intros Hbody s s' Hs Hrun.
  - simpl in Hrun. now injection Hrun as <-.
  - apply for_each_cons_ok in Hrun as (s1 & Hstep & Hrest).
    eapply IH; [| |exact Hrest].
    + intros. eapply Hbody; eauto. now right.
    + eapply Hbody; eauto. now left.
Qed.

Lemma in_enumerate_from {A : Type} (l : list A) k i a :
  In (i, a) (combine (seq k (length l)) l) <->
  exists j, i = (k + j)%nat /\ l !! j = Some a.
Proof.
  revert k. induction l as [|b l IH]; intros k; simpl.
  - split; [tauto | intros (j & _ & H); discriminate].
  - rewrite IH. split.
    + intros [[= <- <-]|(j & -> & H)].
      * exists 0%nat. rewrite Nat.add_0_r. auto.
      * exists (S j). split; [lia | exact H].
    + intros ([|j] & -> & H); simpl in H.
      * left. rewrite Nat.add_0_r. congruence.
      * right. exists j. split; [lia | exact H].
Qed.

Lemma in_enumerate {A : Type} (l : list A) i a :
  In (i, a) (enumerate l) <-> l !! i = Some a.
Proof.
  unfold enumerate. rewrite in_enumerate_from. split.
  - intros (j & -> & H). exact H.
  - intros H. exists i. auto.
Qed.

(** ** The colour of a category *)

Lemma colored_by_nil {X N : Type} (cm : gmap string string) :
  colored_by cm (@nil (trace X N)).
Proof. intros t []. Qed.

Lemma colored_by_snoc {X N : Type} (cm : gmap string string) (fig : list (trace X N)) t :
  colored_by cm fig -> cm !! trace_category t = Some (trace_color t) ->
  colored_by cm (fig ++ [t]).
Proof.
  intros Hfig Ht t' Hin. apply in_app_or in Hin as [Hin|[<-|[]]]; auto.
Qed.

Lemma cycle_palette_keeps (palette : list string) (ics : list (nat * string))
  (m0 m : gmap string string) c :
  for_each
    (fun (m : gmap string string) '(i, cat) =>
       match length palette with
       | O => Raise ZeroDivisionError
       | S _ => Ok (<[cat := nth (i mod length palette) palette ""]> m)
       end) ics m0 = Ok m ->
  ~ In c (map snd ics) -> m !! c = m0 !! c.
Proof.
  revert m0. induction ics as [|[i c0] ics IH]; intros m0 Hrun Hc.
  - simpl in Hrun. now injection Hrun as <-.
  - apply for_each_cons_ok in Hrun as (m1 & Hstep & Hrest).
    simpl in Hc. rewrite (IH _ Hrest) by tauto.
    destruct (length palette); [discriminate|]. injection Hstep as <-.
    apply lookup_insert_ne. tauto.
Qed.

Lemma cycle_palette_at_loop (palette : list string) (ics : list (nat * string))
  (m0 m : gmap string string) i c :
  for_each
    (fun (m : gmap string string) '(i, cat) =>
       match length palette with
       | O => Raise ZeroDivisionError
       | S _ => Ok (<[cat := nth (i mod length palette) palette ""]> m)
       end) ics m0 = Ok m ->
  List.NoDup (map snd ics) -> In (i, c) ics ->
  m !! c = Some (nth (i mod length palette) palette "").
Proof.
  revert m0. induction ics as [|[i0 c0] ics IH]; intros m0 Hrun Hnd Hin; [destruct Hin|].
  apply for_each_cons_ok in Hrun as (m1 & Hstep & Hrest).
  simpl in Hnd. apply List.NoDup_cons_iff in Hnd as [Hc0 Hnd].
  destruct Hin as [[= -> ->]|Hin].
  - rewrite (cycle_palette_keeps _ _ _ _ _ Hrest Hc0).
    destruct (length palette) eqn:Hlen; [discriminate|]. injection Hstep as <-.
    apply lookup_insert_eq.
  - eapply IH; eassumption.
Qed.

(** With distinct categories, the category at position [i] gets the colour
    at position [i mod len(palette)] of the palette. *)
Lemma cycle_palette_at palette categories m i c :
  cycle_palette palette categories = Ok m ->
  List.NoDup categories -> categories !! i = Some c ->
  m !! c = Some (nth (i mod length palette) palette "").
Proof.
  intros Hm Hnd Hi. eapply cycle_palette_at_loop; [exact Hm | |].
  - now rewrite map_snd_enumerate.
  - now apply in_enumerate.
Qed.

Lemma cycle_palette_dom palette categories m c :
  cycle_palette palette categories = Ok m ->
  is_Some (m !! c) -> In c categories.
Proof.
  intros Hm Hc. destruct (in_dec string_dec c categories) as [Hin|Hin]; [assumption|].
  unfold cycle_palette in Hm.
  rewrite (cycle_palette_keeps _ _ _ _ c Hm), lookup_empty in Hc;
    [destruct Hc; discriminate | now rewrite map_snd_enumerate].
Qed.

Lemma In_lookup {A : Type} (l : list A) a : In a l -> exists i, l !! i = Some a.
Proof.
  intros H. apply list_elem_of_In, list_elem_of_lookup_1 in H. exact H.
Qed.

Section EngineColors.
Variable gap bar_width : Q.
Variable color_map : gmap string string.
Variable sort_ascending show_legend : bool.

Lemma engine_bars_colored rows periods coords fig :
  ribbon_engine.bar_generation gap bar_width color_map sort_ascending show_legend
    rows periods = Ok (coords, fig) ->
  colored_by color_map fig.
Proof.
  unfold ribbon_engine.bar_generation. intros Hrun.
  apply (for_each_inv _ (fun st => colored_by color_map st.2)) in Hrun;
    [exact Hrun | | apply colored_by_nil].
  intros [coords0 fig0] [i p] [coords1 fig1] _ Hfig0 Hstep. simpl in Hfig0 |- *.
  unfold ribbon_engine.period_bars in Hstep.
  destruct (for_each _ _ _) as [[[y1 here1] f1]|] eqn:Hinner in Hstep; [|discriminate].
  simpl in Hstep. injection Hstep as <- <-.
  apply (for_each_inv _ (fun st => colored_by color_map st.2)) in Hinner;
    [exact Hinner | | exact Hfig0].
  intros [[y here] f] r s' _ Hf Hadd. simpl in Hf. unfold ribbon_engine.add_bar in Hadd.
  destruct (value r) as [v|]; [|now injection Hadd as <-].
  destruct (Qle_bool v 0); [now injection Hadd as <-|].
  destruct (color_map !! category r) as [color|] eqn:Hcol; [|discriminate].
  injection Hadd as <-. simpl. now apply colored_by_snoc.
Qed.

Lemma engine_ribbons_colored coords periods categories fig fig' :
  ribbon_engine.ribbon_generation bar_width color_map coords periods categories fig
    = Ok fig' ->
  colored_by color_map fig -> colored_by color_map fig'.
Proof.
  unfold ribbon_engine.ribbon_generation. intros Hrun Hfig.
  apply (for_each_inv _ (colored_by color_map)) in Hrun; [exact Hrun | | exact Hfig].
  intros f [i [p1 p2]] f' _ Hf Hinner.
  apply (for_each_inv _ (colored_by color_map)) in Hinner; [exact Hinner | | exact Hf].
  intros f1 cat f2 _ Hf1 Hadd.
  apply engine_add_ribbon_emits in Hadd. subst f2. unfold engine_ribbon.
  destruct (coords !! p1 ≫= _) as [[? ?]|]; [|now rewrite app_nil_r].
  destruct (coords !! p2 ≫= _) as [[? ?]|]; [|now rewrite app_nil_r].
  destruct (color_map !! cat) eqn:Hcol; [|now rewrite app_nil_r].
  now apply colored_by_snoc.
Qed.

End EngineColors.

Lemma engine_build_colored df x_col category_col value_col gap bar_width colors
  sort_ascending show_legend coords fig :
  ribbon_engine.build df x_col category_col value_col gap bar_width colors
    sort_ascending show_legend = Ok (coords, fig) ->
  exists color_map,
    ribbon_engine.color_setup colors (engine_categories df) = Ok color_map /\
    colored_by color_map fig.
Proof.
  unfold ribbon_engine.build. fold (engine_periods df). fold (engine_categories df).
  destruct (ribbon_engine.validate _ _) as [[]|]; simpl; [|discriminate].
  destruct (ribbon_engine.color_setup _ _) as [color_map|]; simpl; [|discriminate].
  destruct (ribbon_engine.bar_generation _ _ _ _ _ _ _) as [[coords1 fig1]|] eqn:Hbars;
    simpl; [|discriminate].
  destruct (ribbon_engine.ribbon_generation _ _ _ _ _ _) as [fig2|] eqn:Hrib;
    simpl; [|discriminate].
  intros [= <- <-]. exists color_map. split; [reflexivity|].
  eapply engine_ribbons_colored; [exact Hrib|].
  eapply engine_bars_colored; exact Hbars.
Qed.

(** X4.  In a figure of [ribbon_engine.create_ribbon_chart] the colour of
    a trace is a function of its category: all bars and ribbons of one
    category have one colour.  With a dict it is the dict's entry for the
    category; with a list, or the default palette G10, the category at
    position [i] of the sorted categories has the colour at position
    [i mod len] of the palette, so categories that are [len] positions
    apart look the same. *)
Theorem engine_trace_colors df x_col category_col value_col gap bar_width colors
  sort_ascending show_legend fig :
  ribbon_engine.create_ribbon_chart df x_col category_col value_col gap bar_width
    colors sort_ascending show_legend = Ok fig ->
  (forall t1 t2, In t1 fig -> In t2 fig -> trace_category t1 = trace_category t2 ->
                 trace_color t1 = trace_color t2) /\
  (forall t, In t fig ->
     match colors with
     | ribbon_engine.ColorDict d => d !! trace_category t = Some (trace_color t)
     | _ =>
         exists i,
           engine_categories df !! i = Some (trace_category t) /\
           trace_color t =
             nth (i mod length (engine_palette colors)) (engine_palette colors) ""
     end).
Proof.
  unfold ribbon_engine.create_ribbon_chart.
  destruct (ribbon_engine.build _ _ _ _ _ _ _ _ _) as [[coords fig']|] eqn:Hb;
    simpl; [|discriminate].
  intros [= <-]. apply engine_build_colored in Hb as (cm & Hcm & Hcol). split.
  - intros t1 t2 H1 H2 Hcat. apply Hcol in H1, H2. congruence.
  - assert (Hpal : forall palette t,
              cycle_palette palette (engine_categories df) = Ok cm -> In t fig' ->
              exists i,
                engine_categories df !! i = Some (trace_category t) /\
                trace_color t = nth (i mod length palette) palette "").
    { intros palette t Hm Ht. apply Hcol in Ht.
      destruct (In_lookup (engine_categories df) (trace_category t)) as [i Hi].
      { eapply cycle_palette_dom; [exact Hm | rewrite Ht; eauto]. }
      exists i. split; [exact Hi|].
      rewrite (cycle_palette_at _ _ _ _ _ Hm (NoDup_sorted _ _ (NoDup_unique _)) Hi) in Ht.
      congruence. }
    intros t Ht. destruct colors as [d|l|]; cbn [ribbon_engine.color_setup] in Hcm.
    + injection Hcm as <-. now apply Hcol.
    + now apply (Hpal l).
    + now apply (Hpal ribbon_engine.G10).
Qed.

Lemma engine_trace_colors_witness :
  ribbon_engine.create_ribbon_chart
    (ribbon_engine.mkDataFrame ["Week"; "Employee"; "Hours"]
       [mkRow "W1" "B" (Num 3); mkRow "W2" "B" (Num 5); mkRow "W1" "A" (Num 1)])
    "Week" "Employee" "Hours" 2 (2 # 5)
    (ribbon_engine.ColorList ["red"]) true true =
    Ok [Bar "W1" 1%Q 0%Q "A" "red" (2 # 5) true;
        Bar "W1" 3%Q (3 # 1) "B" "red" (2 # 5) true;
        Bar "W2" 5%Q 0%Q "B" "red" (2 # 5) false;
        Scatter (2 # 10) (8 # 10) (6 # 1) 5%Q (3 # 1) 0%Q "red" "B"] /\
  exists i,
    engine_categories
      (ribbon_engine.mkDataFrame ["Week"; "Employee"; "Hours"]
         [mkRow "W1" "B" (Num 3); mkRow "W2" "B" (Num 5); mkRow "W1" "A" (Num 1)])
      !! i = Some "B" /\
    "red" = nth (i mod 1) ["red"] "".
Proof.
  split; [vm_compute; reflexivity|].
  destruct (engine_trace_colors
              (ribbon_engine.mkDataFrame ["Week"; "Employee"; "Hours"]
                 [mkRow "W1" "B" (Num 3); mkRow "W2" "B" (Num 5); mkRow "W1" "A" (Num 1)])
              "Week" "Employee" "Hours" 2 (2 # 5)
              (ribbon_engine.ColorList ["red"]) true true
              [Bar "W1" 1%Q 0%Q "A" "red" (2 # 5) true;
               Bar "W1" 3%Q (3 # 1) "B" "red" (2 # 5) true;
               Bar "W2" 5%Q 0%Q "B" "red" (2 # 5) false;
               Scatter (2 # 10) (8 # 10) (6 # 1) 5%Q (3 # 1) 0%Q "red" "B"])
    as [_ Hpos]; [vm_compute; reflexivity|].
  apply (Hpos (Bar "W2" 5%Q 0%Q "B" "red" (2 # 5) false)). simpl. tauto.
Defined.

Section HoursColors.
Variable gap : Q.
Variable colors : gmap string string.

Lemma hours_bars_colored rows periods coords fig :
  employee_hours_chart.bar_generation gap colors rows periods = Ok (coords, fig) ->
  colored_by colors fig.
Proof.
  unfold employee_hours_chart.bar_generation. intros Hrun.
  apply (for_each_inv _ (fun st => colored_by colors st.2)) in Hrun;
    [exact Hrun | | apply colored_by_nil].
  intros [coords0 fig0] [i p] [coords1 fig1] _ Hfig0 Hstep. simpl in Hfig0 |- *.
  unfold employee_hours_chart.period_bars in Hstep.
  destruct (for_each _ _ _) as [[[y1 here1] f1]|] eqn:Hinner in Hstep; [|discriminate].
  simpl in Hstep. injection Hstep as <- <-.
  apply (for_each_inv _ (fun st => colored_by colors st.2)) in Hinner;
    [exact Hinner | | exact Hfig0].
  intros [[y here] f] r s' _ Hf Hadd. simpl in Hf.
  unfold employee_hours_chart.add_bar in Hadd.
  destruct (colors !! category r) as [color|] eqn:Hcol; [|discriminate].
  injection Hadd as <-. simpl. now apply colored_by_snoc.
Qed.

Lemma hours_ribbons_colored coords periods categories fig fig' :
  employee_hours_chart.ribbon_generation colors coords periods categories fig
    = Ok fig' ->
  colored_by colors fig -> colored_by colors fig'.
Proof.
  unfold employee_hours_chart.ribbon_generation. intros Hrun Hfig.
  apply (for_each_inv _ (colored_by colors)) in Hrun; [exact Hrun | | exact Hfig].
  intros f [i [p1 p2]] f' _ Hf Hinner.
  apply (for_each_inv _ (colored_by colors)) in Hinner; [exact Hinner | | exact Hf].
  intros f1 cat f2 _ Hf1 Hadd.
  apply hours_add_ribbon_emits in Hadd. subst f2. unfold hours_ribbon.
  destruct (coords !! p1 ≫= _) as [[? ?]|]; [|now rewrite app_nil_r].
  destruct (coords !! p2 ≫= _) as [[? ?]|]; [|now rewrite app_nil_r].
  destruct (colors !! cat) eqn:Hcol; [|now rewrite app_nil_r].
  now apply colored_by_snoc.
Qed.

End HoursColors.

(** X5.  [employee_hours_chart.create_ribbon_chart] returns a figure for
    every frame, and in it the colour of a trace is a function of its
    category: the category that is the [i]-th to appear in the frame has
    the colour at position [i mod 11] of the Prism palette, on all its
    bars and ribbons. *)
Theorem hours_trace_colors df gap :
  exists fig,
    employee_hours_chart.create_ribbon_chart df gap = Ok fig /\
    forall t, In t fig ->
      exists i,
        hours_categories df !! i = Some (trace_category t) /\
        trace_color t =
          nth (i mod length employee_hours_chart.Prism) employee_hours_chart.Prism "".
Proof.
  destruct (hours_build_spec df gap) as (colors & coords & fig & Hb & Hcm & _).
  exists fig. unfold employee_hours_chart.create_ribbon_chart. rewrite Hb.
  split; [reflexivity|].
  assert (Hcol : colored_by colors fig).
  { unfold employee_hours_chart.build in Hb.
    fold (hours_periods df) in Hb. fold (hours_categories df) in Hb.
    rewrite Hcm in Hb. cbn [bind] in Hb.
    destruct (employee_hours_chart.bar_generation _ _ _ _) as [[coords1 fig1]|] eqn:Hbars;
      simpl in Hb; [|discriminate].
    destruct (employee_hours_chart.ribbon_generation _ _ _ _ _) as [fig2|] eqn:Hrib;
      simpl in Hb; [|discriminate].
    injection Hb as <- <-.
    eapply hours_ribbons_colored; [exact Hrib|].
    eapply hours_bars_colored; exact Hbars. }
  intros t Ht. apply Hcol in Ht.
  destruct (In_lookup (hours_categories df) (trace_category t)) as [i Hi].
  { eapply cycle_palette_dom; [exact Hcm | rewrite Ht; eauto]. }
  exists i. split; [exact Hi|].
  rewrite (cycle_palette_at _ _ _ _ _ Hcm (NoDup_unique _) Hi) in Ht. congruence.
Qed.

Section GalleryColors.
Variable gap : Q.
Variable colors : gmap string string.
Variable fig0 : ribbon_chart.figure.

Lemma gallery_bars_colored df_norm periods coords st :
  ribbon_chart.bar_generation gap colors df_norm periods fig0 = Ok (coords, st) ->
  exists ext, ribbon_chart.fig st = fig0 ++ ext /\ colored_by colors ext.
Proof.
  unfold ribbon_chart.bar_generation. intros Hrun.
  apply (for_each_inv _
           (fun st => exists ext, ribbon_chart.fig st.2 = fig0 ++ ext /\
                                  colored_by colors ext)) in Hrun; [exact Hrun | |].
  - intros [coords0 st0] p [coords1 st1] _ Hst0 Hstep. simpl in Hst0 |- *.
    unfold ribbon_chart.period_bars in Hstep.
    destruct (for_each _ _ _) as [st2|] eqn:Hinner in Hstep; [|discriminate].
    simpl in Hstep. injection Hstep as <- <-.
    apply (for_each_inv _
             (fun st => exists ext, ribbon_chart.fig st = fig0 ++ ext /\
                                    colored_by colors ext)) in Hinner;
      [exact Hinner | | exact Hst0].
    intros s r s' _ (ext & Hext & Hcol) Hadd. unfold ribbon_chart.add_bar in Hadd.
    destruct (gt0 (value r)).
    + destruct (colors !! category r) as [color|] eqn:Hc; [|discriminate].
      injection Hadd as <-. simpl. eexists (ext ++ [_]).
      rewrite Hext, <- app_assoc. split; [reflexivity|]. now apply colored_by_snoc.
    + injection Hadd as <-. simpl. eauto.
  - exists []. simpl. rewrite app_nil_r. split; [reflexivity | apply colored_by_nil].
Qed.

Lemma gallery_ribbons_colored coords periods categories st st' :
  ribbon_chart.ribbon_generation colors coords periods categories st = Ok st' ->
  (exists ext, st.1 = fig0 ++ ext /\ colored_by colors ext) ->
  exists ext, st'.1 = fig0 ++ ext /\ colored_by colors ext.
Proof.
  unfold ribbon_chart.ribbon_generation. intros Hrun Hst.
  apply (for_each_inv _
           (fun st => exists ext, st.1 = fig0 ++ ext /\ colored_by colors ext)) in Hrun;
    [exact Hrun | | exact Hst].
  intros f [i [p1 p2]] f' _ Hf Hinner.
  apply (for_each_inv _
           (fun st => exists ext, st.1 = fig0 ++ ext /\ colored_by colors ext)) in Hinner;
    [exact Hinner | | exact Hf].
  intros f1 cat f2 _ (ext & Hext & Hcol) Hadd.
  apply gallery_add_ribbon_emits in Hadd as [Hadd _]. rewrite Hadd, Hext.
  unfold gallery_ribbon.
  destruct (coords !! p1 ≫= _) as [[? ?]|]; [|rewrite app_nil_r; eauto].
  destruct (coords !! p2 ≫= _) as [[? ?]|]; [|rewrite app_nil_r; eauto].
  destruct (colors !! cat) eqn:Hc; [|rewrite app_nil_r; eauto].
  destruct (_ && _); [rewrite app_nil_r; eauto|].
  eexists (ext ++ [_]). rewrite <- app_assoc. split; [reflexivity|].
  now apply colored_by_snoc.
Qed.

End GalleryColors.

(** X6.  The traces that [ribbon_chart.add_ribbon_scenario] appends are
    coloured by the rank of their category among the sorted categories of
    the scenario's own frame: rank [i] has the colour at position
    [i mod 10] of the D3 palette.  The colour map is fixed within one
    scenario; a category has the same colour in two scenarios only if it
    has the same rank, modulo 10, in both frames. *)
Theorem gallery_trace_colors fig0 df gap fig n :
  ribbon_chart.add_ribbon_scenario fig0 df gap = Ok (fig, n) ->
  exists new,
    fig = fig0 ++ new /\
    forall t, In t new ->
      exists i,
        gallery_categories df !! i = Some (trace_category t) /\
        trace_color t = nth (i mod length ribbon_chart.D3) ribbon_chart.D3 "".
Proof.
  unfold ribbon_chart.add_ribbon_scenario, ribbon_chart.build.
  fold (gallery_periods df). fold (gallery_categories df).
  destruct (ribbon_chart.reindex _ _ _) as [df_norm|]; simpl; [|discriminate].
  destruct (cycle_palette _ _) as [colors|] eqn:Hcm; simpl; [|discriminate].
  destruct (ribbon_chart.bar_generation _ _ _ _ _) as [[coords st]|] eqn:Hbars;
    simpl; [|discriminate].
  destruct (ribbon_chart.ribbon_generation _ _ _ _ _) as [[fig' n']|] eqn:Hrib;
    simpl; [|discriminate].
  intros [= <- <-].
  apply gallery_bars_colored in Hbars.
  eapply gallery_ribbons_colored in Hrib; [|exact Hbars].
  destruct Hrib as (new & Hnew & Hcol). simpl in Hnew. exists new.
  split; [exact Hnew|]. intros t Ht. apply Hcol in Ht.
  destruct (In_lookup (gallery_categories df) (trace_category t)) as [i Hi].
  { eapply cycle_palette_dom; [exact Hcm | rewrite Ht; eauto]. }
  exists i. split; [exact Hi|].
  rewrite (cycle_palette_at _ _ _ _ _ Hcm (NoDup_sorted _ _ (NoDup_unique _)) Hi) in Ht.
  injection Ht as Ht. symmetry. exact Ht.
Qed.

Lemma gallery_trace_colors_witness :
  exists new,
    [Bar 2020%Z (Num 3) (Num 0) "A" "#1F77B4" (35 # 100) true;
     Bar 2021%Z (Num 5) (Num 0) "A" "#1F77B4" (35 # 100) false;
     Scatter (404035 # 200) (404165 # 200) (Num 3) (Num 5) (Num 0) (Num 0)
       "#1F77B4" "A"] = [] ++ new /\
    forall t, In t new ->
      exists i,
        gallery_categories [mkRow 2020%Z "A" (Num 3); mkRow 2021%Z "A" (Num 5)] !! i
          = Some (trace_category t) /\
        trace_color t = nth (i mod length ribbon_chart.D3) ribbon_chart.D3 "".
Proof.
  apply (gallery_trace_colors [] [mkRow 2020%Z "A" (Num 3); mkRow 2021%Z "A" (Num 5)]
           2 _ 3%nat).
  vm_compute. reflexivity.
Defined.

(** ** The legend *)

Lemma legend_entries_app {X N : Type} (f1 f2 : list (trace X N)) :
  legend_entries (f1 ++ f2) = legend_entries f1 ++ legend_entries f2.
Proof. apply flat_map_app. Qed.

Lemma legend_entries_no_bar {X N : Type} (fig : list (trace X N)) :
  (forall t, In t fig -> ~ is_bar t) -> legend_entries fig = [].
Proof.
  induction fig as [|t fig IH]; intros H; [reflexivity|].
  simpl. rewrite IH by (intros; apply H; now right).
  destruct t; [|reflexivity]. exfalso. apply (H _ (or_introl eq_refl)). exact I.
Qed.

Lemma in_legend_entries {X N : Type} (fig : list (trace X N)) c :
  In c (legend_entries fig) <->
  exists x y base color width, In (Bar x y base c color width true) fig.
Proof.
  unfold legend_entries. rewrite in_flat_map. split.
  - intros (t & Ht & Hc). destruct t as [x y base name color width lg|]; [|destruct Hc].
    destruct lg; [|destruct Hc]. destruct Hc as [<-|[]]. eauto 10.
  - intros (x & y & base & color & width & Ht). eexists. split; [exact Ht|]. now left.
Qed.

Lemma flat_map_nil {A B : Type} (f : A -> list B) l :
  (forall a, In a l -> f a = []) -> flat_map f l = [].
Proof.
  induction l as [|a l IH]; intros H; [reflexivity|].
  simpl. rewrite H by now left. apply IH. intros. apply H. now right.
Qed.

Lemma positives_categories {P : Type} (l : list (Row P)) :
  flat_map (fun r => if gt0 (value r) then [category r] else []) l =
  map fst (positives l).
Proof.
  induction l as [|r l IH]; [reflexivity|]. simpl.
  destruct (value r) as [v|]; simpl; [|exact IH].
  destruct (Qle_bool v 0); simpl; now rewrite IH.
Qed.

Section EngineLegend.
Variable gap bar_width : Q.
Variable color_map : gmap string string.
Variable sort_ascending show_legend : bool.
Variable rows : list (Row string).

(** The legend entries the bars of one period add. *)
Let period_legend (ip : nat * string) : list string :=
  if Nat.eqb ip.1 0 && show_legend
  then map fst (positives (sorted (row_leb sort_ascending) (rows_of ip.2 rows)))
  else [].

Lemma engine_bars_legend (ips : list (nat * string)) st st' :
  for_each
    (ribbon_engine.period_bars gap bar_width color_map sort_ascending show_legend rows)
    ips st = Ok st' ->
  legend_entries st'.2 = legend_entries st.2 ++ flat_map period_legend ips.
Proof.
  apply (for_each_emits _ (fun st => legend_entries st.2)).
  intros [coords fig] [i p] [coords' fig'] _ Hstep.
  unfold ribbon_engine.period_bars in Hstep.
  destruct (for_each _ _ _) as [[[y1 here1] f1]|] eqn:Hinner in Hstep; [|discriminate].
  simpl in Hstep. injection Hstep as <- <-. simpl.
  apply (for_each_emits _ (fun st => legend_entries st.2)
           (fun r => if Nat.eqb i 0 && show_legend
                     then (if gt0 (value r) then [category r] else []) else []))
    in Hinner.
  - simpl in Hinner. rewrite Hinner. f_equal. unfold period_legend. simpl.
    destruct (Nat.eqb i 0 && show_legend).
    + apply positives_categories.
    + apply flat_map_nil. reflexivity.
  - intros [[y here] f] r s' _ Hadd. unfold ribbon_engine.add_bar in Hadd. simpl.
    destruct (value r) as [v|]; simpl.
    + destruct (Qle_bool v 0); simpl.
      * injection Hadd as <-. simpl. destruct (_ && _); now rewrite app_nil_r.
      * destruct (color_map !! category r); [|discriminate]. injection Hadd as <-.
        simpl. rewrite legend_entries_app. simpl.
        destruct (Nat.eqb i 0 && show_legend); reflexivity.
    + injection Hadd as <-. simpl. destruct (_ && _); now rewrite app_nil_r.
Qed.

Lemma engine_periods_legend (periods : list string) :
  flat_map period_legend (enumerate periods) =
  match periods with
  | [] => []
  | p0 :: _ =>
      if show_legend
      then map fst (positives (sorted (row_leb sort_ascending) (rows_of p0 rows)))
      else []
  end.
Proof.
  destruct periods as [|p0 ps]; [reflexivity|].
  unfold enumerate. simpl. rewrite flat_map_nil.
  - rewrite app_nil_r. reflexivity.
  - intros [i p] Hin. apply in_enumerate_from in Hin as (j & -> & _).
    reflexivity.
Qed.

End EngineLegend.

(** X7.  In a figure of [ribbon_engine.create_ribbon_chart] the legend
    lists the rectangles of the first period only, bottom to top: with
    [show_legend] a category has a legend entry exactly when it has a row
    with a positive value in the first of the sorted periods, and without
    [show_legend] the legend is empty.  A category that is first drawn in
    a later period has bars and ribbons but no legend entry. *)
Theorem engine_legend df x_col category_col value_col gap bar_width colors
  sort_ascending show_legend fig :
  ribbon_engine.create_ribbon_chart df x_col category_col value_col gap bar_width
    colors sort_ascending show_legend = Ok fig ->
  legend_entries fig =
    match engine_periods df with
    | [] => []
    | p0 :: _ =>
        if show_legend
        then map (fun s => s.1.1)
               (engine_segments gap sort_ascending (ribbon_engine.rows df) p0)
        else []
    end /\
  forall c,
    In c (legend_entries fig) <->
    show_legend = true /\
    exists p0 r, head (engine_periods df) = Some p0 /\
                 In r (ribbon_engine.rows df) /\ period r = p0 /\ category r = c /\
                 gt0 (value r) = true.
Proof.
  unfold ribbon_engine.create_ribbon_chart, ribbon_engine.build.
  fold (engine_periods df). fold (engine_categories df).
  destruct (ribbon_engine.validate _ _) as [[]|]; simpl; [|discriminate].
  destruct (ribbon_engine.color_setup _ _) as [color_map|]; simpl; [|discriminate].
  destruct (ribbon_engine.bar_generation _ _ _ _ _ _ _) as [[coords1 fig1]|] eqn:Hbars;
    simpl; [|discriminate].
  destruct (ribbon_engine.ribbon_generation _ _ _ _ _ _) as [fig2|] eqn:Hrib;
    simpl; [|discriminate].
  intros [= <-].
  apply engine_bars_legend in Hbars. simpl in Hbars.
  rewrite engine_periods_legend in Hbars.
  apply engine_ribbon_generation_emits in Hrib. subst fig2.
  assert (Hleg : legend_entries
                   (fig1 ++ flat_map
                      (fun '(i, (p1, p2)) =>
                         flat_map (engine_ribbon bar_width color_map coords1 i p1 p2)
                           (engine_categories df))
                      (adjacent (engine_periods df))) =
                 match engine_periods df with
                 | [] => []
                 | p0 :: _ =>
                     if show_legend
                     then map fst (positives (sorted (row_leb sort_ascending)
                                                (rows_of p0 (ribbon_engine.rows df))))
                     else []
                 end).
  { rewrite legend_entries_app, Hbars, legend_entries_no_bar; [apply app_nil_r|].
    intros t Ht. apply in_flat_map in Ht as ([i [p1 p2]] & _ & Ht).
    apply in_flat_map in Ht as (cat & _ & Ht). eapply engine_ribbon_scatter, Ht. }
  rewrite Hleg. split.
  - destruct (engine_periods df) as [|p0 ps]; [reflexivity|].
    destruct show_legend; [|reflexivity]. unfold engine_segments.
    rewrite <- (stack_keys gap 0 (positives _)) at 1. now rewrite map_map.
  - intros c. destruct (engine_periods df) as [|p0 ps]; simpl.
    + split; [tauto | intros (_ & p0 & r & [=] & _)].
    + destruct show_legend.
      * rewrite in_map_iff. split.
        -- intros ([c' v] & <- & Hin).
           apply in_positives_period in Hin as (r & Hr & Hp & Hc & _ & Hpos).
           split; [reflexivity|]. exists p0, r. auto.
        -- intros (_ & p & r & [= <-] & Hr & Hp & Hc & Hpos).
           destruct (value r) as [v|] eqn:Hv; [|discriminate].
           exists (c, v). split; [reflexivity|]. apply in_positives_period.
           exists r. rewrite Hv. auto.
      * split; [intros [] | intros [[=] _]].
Qed.

Lemma engine_legend_witness :
  legend_entries
    [Bar "W1" 1%Q 0%Q "A" "red" (2 # 5) true;
     Bar "W1" 3%Q (3 # 1) "B" "red" (2 # 5) true;
     Bar "W2" 5%Q 0%Q "B" "red" (2 # 5) false;
     Scatter (2 # 10) (8 # 10) (6 # 1) 5%Q (3 # 1) 0%Q "red" "B"] = ["A"; "B"].
Proof.
  destruct (engine_legend
              (ribbon_engine.mkDataFrame ["Week"; "Employee"; "Hours"]
                 [mkRow "W1" "B" (Num 3); mkRow "W2" "B" (Num 5); mkRow "W1" "A" (Num 1)])
              "Week" "Employee" "Hours" 2 (2 # 5)
              (ribbon_engine.ColorList ["red"]) true true
              [Bar "W1" 1%Q 0%Q "A" "red" (2 # 5) true;
               Bar "W1" 3%Q (3 # 1) "B" "red" (2 # 5) true;
               Bar "W2" 5%Q 0%Q "B" "red" (2 # 5) false;
               Scatter (2 # 10) (8 # 10) (6 # 1) 5%Q (3 # 1) 0%Q "red" "B"])
    as [Hleg _]; [vm_compute; reflexivity|].
  rewrite Hleg. vm_compute. reflexivity.
Defined.

Section HoursLegend.
Variable gap : Q.
Variable colors : gmap string string.
Variable rows : list (Row string).

Let period_legend (ip : nat * string) : list string :=
  if Nat.eqb ip.1 0 then map category (sorted value_leb (rows_of ip.2 rows)) else [].

Lemma hours_bars_legend (ips : list (nat * string)) st st' :
  for_each (employee_hours_chart.period_bars gap colors rows) ips st = Ok st' ->
  legend_entries st'.2 = legend_entries st.2 ++ flat_map period_legend ips.
Proof.
  apply (for_each_emits _ (fun st => legend_entries st.2)).
  intros [coords fig] [i p] [coords' fig'] _ Hstep.
  unfold employee_hours_chart.period_bars in Hstep.
  destruct (for_each _ _ _) as [[[y1 here1] f1]|] eqn:Hinner in Hstep; [|discriminate].
  simpl in Hstep. injection Hstep as <- <-. simpl.
  apply (for_each_emits _ (fun st => legend_entries st.2)
           (fun r => if Nat.eqb i 0 then [category r] else [])) in Hinner.
  - simpl in Hinner. rewrite Hinner. f_equal. unfold period_legend. simpl.
    destruct (Nat.eqb i 0).
    + generalize (sorted value_leb (rows_of p rows)). intros l.
      induction l as [|r l IH]; simpl; [reflexivity | now rewrite IH].
    + apply flat_map_nil. reflexivity.
  - intros [[y here] f] r s' _ Hadd. unfold employee_hours_chart.add_bar in Hadd.
    destruct (colors !! category r); [|discriminate]. injection Hadd as <-.
    simpl. rewrite legend_entries_app. simpl. destruct (Nat.eqb i 0); reflexivity.
Qed.

Lemma hours_periods_legend (periods : list string) :
  flat_map period_legend (enumerate periods) =
  match periods with
  | [] => []
  | p0 :: _ => map category (sorted value_leb (rows_of p0 rows))
  end.
Proof.
  destruct periods as [|p0 ps]; [reflexivity|].
  unfold enumerate. simpl. rewrite flat_map_nil.
  - rewrite app_nil_r. reflexivity.
  - intros [i p] Hin. apply in_enumerate_from in Hin as (j & -> & _).
    reflexivity.
Qed.

End HoursLegend.

(** X8.  In a figure of [employee_hours_chart.create_ribbon_chart] the
    legend lists the rows of the first period of the frame, one entry per
    row, and nothing else: a category has a legend entry exactly when it
    has a row whose period is the period of the first row of the frame.
    The entries come in the order of the stack, which the sort leaves
    open for rows with equal values; the statement holds for every such
    order. *)
Theorem hours_legend df gap :
  exists fig,
    employee_hours_chart.create_ribbon_chart df gap = Ok fig /\
    match df with
    | [] => legend_entries fig = []
    | r0 :: _ =>
        Permutation (legend_entries fig) (map category (rows_of (period r0) df))
    end /\
    forall r0 rest c, df = r0 :: rest ->
      (In c (legend_entries fig) <->
       exists r, In r df /\ period r = period r0 /\ category r = c).
Proof.
  destruct (hours_build_spec df gap) as (colors & coords & fig & Hb & Hcm & _).
  exists fig. unfold employee_hours_chart.create_ribbon_chart. rewrite Hb.
  split; [reflexivity|].
  assert (Hleg : legend_entries fig =
                 match df with
                 | [] => []
                 | r0 :: _ => map category (sorted value_leb (rows_of (period r0) df))
                 end).
  { unfold employee_hours_chart.build in Hb.
    fold (hours_periods df) in Hb. fold (hours_categories df) in Hb.
    rewrite Hcm in Hb. cbn [bind] in Hb.
    destruct (employee_hours_chart.bar_generation _ _ _ _) as [[coords1 fig1]|] eqn:Hbars;
      simpl in Hb; [|discriminate].
    destruct (employee_hours_chart.ribbon_generation _ _ _ _ _) as [fig2|] eqn:Hrib;
      simpl in Hb; [|discriminate].
    injection Hb as <- <-.
    apply hours_bars_legend in Hbars. simpl in Hbars.
    rewrite hours_periods_legend in Hbars.
    apply hours_ribbon_generation_emits in Hrib. subst fig2.
    rewrite legend_entries_app, Hbars, legend_entries_no_bar.
    - rewrite app_nil_r. destruct df as [|r0 rest]; reflexivity.
    - intros t Ht. apply in_flat_map in Ht as ([i [p1 p2]] & _ & Ht).
      apply in_flat_map in Ht as (cat & _ & Ht). eapply hours_ribbon_scatter, Ht. }
  split.
  - rewrite Hleg. destruct df as [|r0 rest]; [reflexivity|].
    apply Permutation_map, sorted_perm.
  - intros r0 rest c ->. rewrite Hleg, in_map_iff. split.
    + intros (r & <- & Hr). apply in_sorted, in_rows_of in Hr as [Hr Hp]. eauto.
    + intros (r & Hr & Hp & <-). exists r. split; [reflexivity|].
      apply in_sorted, in_rows_of. auto.
Qed.

Section GalleryLegend.
Variable gap : Q.
Variable colors : gmap string string.
Variable fig0 : ribbon_chart.figure.

Lemma gallery_add_bar_legend p st r st' ext :
  ribbon_chart.add_bar gap colors p st r = Ok st' ->
  ribbon_chart.fig st = fig0 ++ ext ->
  legend_once (ribbon_chart.seen_categories st) ext ->
  exists ext',
    ribbon_chart.fig st' = fig0 ++ ext' /\
    legend_once (ribbon_chart.seen_categories st') ext'.
Proof.
  unfold ribbon_chart.add_bar. intros Hadd Hfig (Hnd & Hseen & Hbars).
  destruct (gt0 (value r)).
  - destruct (colors !! category r) as [color|]; [|discriminate].
    injection Hadd as <-. simpl. eexists (ext ++ [_]).
    rewrite Hfig, <- app_assoc. split; [reflexivity|].
    unfold legend_once. rewrite legend_entries_app. simpl.
    destruct (decide (category r ∈ ribbon_chart.seen_categories st)) as [Hin|Hin].
    + rewrite bool_decide_eq_true_2 by assumption. simpl. rewrite app_nil_r.
      split; [exact Hnd|]. split; [exact Hseen|].
      intros t Ht Hbar. apply in_app_or in Ht as [Ht|[<-|[]]]; [auto|].
      simpl. now apply Hseen.
    + rewrite bool_decide_eq_false_2 by assumption. simpl. split; [|split].
      * apply NoDup_ListNoDup, NoDup_app. split; [now apply NoDup_ListNoDup|].
        split; [|apply NoDup_singleton].
        intros c Hc Hc'. apply list_elem_of_In in Hc. apply Hseen in Hc.
        apply list_elem_of_singleton in Hc'. now subst c.
      * intros c. rewrite in_app_iff, elem_of_union, elem_of_singleton, Hseen.
        simpl. intuition congruence.
      * intros t Ht Hbar. apply in_app_iff.
        apply in_app_or in Ht as [Ht|[<-|[]]]; [left; auto | right; now left].
  - injection Hadd as <-. simpl. exists ext. split; [exact Hfig|].
    split; [exact Hnd | split; [exact Hseen | exact Hbars]].
Qed.

Lemma gallery_bars_legend df_norm periods coords st :
  ribbon_chart.bar_generation gap colors df_norm periods fig0 = Ok (coords, st) ->
  exists ext,
    ribbon_chart.fig st = fig0 ++ ext /\
    legend_once (ribbon_chart.seen_categories st) ext.
Proof.
  unfold ribbon_chart.bar_generation. intros Hrun.
  apply (for_each_inv _
           (fun st => exists ext,
                        ribbon_chart.fig st.2 = fig0 ++ ext /\
                        legend_once (ribbon_chart.seen_categories st.2) ext))
    in Hrun; [exact Hrun | |].
  - intros [coords0 st0] p [coords1 st1] _ Hst0 Hstep. simpl in Hst0 |- *.
    unfold ribbon_chart.period_bars in Hstep.
    destruct (for_each _ _ _) as [st2|] eqn:Hinner in Hstep; [|discriminate].
    simpl in Hstep. injection Hstep as <- <-.
    apply (for_each_inv _
             (fun st => exists ext,
                          ribbon_chart.fig st = fig0 ++ ext /\
                          legend_once (ribbon_chart.seen_categories st) ext))
      in Hinner; [exact Hinner | | exact Hst0].
    intros s r s' _ (ext & Hext & Hleg) Hadd.
    eapply gallery_add_bar_legend; eassumption.
  - exists []. simpl. rewrite app_nil_r. split; [reflexivity|].
    split; [constructor|]. split; [|intros t []].
    intros c. simpl. split; [intros H; now apply elem_of_empty in H | tauto].
Qed.

Lemma gallery_ribbons_legend coords periods categories st st' ext :
  ribbon_chart.ribbon_generation colors coords periods categories st = Ok st' ->
  st.1 = fig0 ++ ext ->
  exists ribbons,
    st'.1 = fig0 ++ ext ++ ribbons /\ forall t, In t ribbons -> ~ is_bar t.
Proof.
  intros Hrun Hst. apply gallery_ribbon_generation_emits in Hrun.
  eexists. rewrite Hrun, Hst, <- app_assoc. split; [reflexivity|].
  intros t Ht. apply in_flat_map in Ht as ([i [p1 p2]] & _ & Ht).
  apply in_flat_map in Ht as (cat & _ & Ht). eapply gallery_ribbon_scatter, Ht.
Qed.

End GalleryLegend.

(** X9.  Among the traces that one call of
    [ribbon_chart.add_ribbon_scenario] appends, every category that has a
    bar has exactly one legend entry, whatever the period its first bar
    is in: the legend lists no category twice, and it lists a category
    exactly when the call has drawn a bar for it. *)
Theorem gallery_legend fig0 df gap fig n :
  ribbon_chart.add_ribbon_scenario fig0 df gap = Ok (fig, n) ->
  exists new,
    fig = fig0 ++ new /\
    List.NoDup (legend_entries new) /\
    forall c, In c (legend_entries new) <->
              exists t, In t new /\ is_bar t /\ trace_category t = c.
Proof.
  unfold ribbon_chart.add_ribbon_scenario, ribbon_chart.build.
  fold (gallery_periods df). fold (gallery_categories df).
  destruct (ribbon_chart.reindex _ _ _) as [df_norm|]; simpl; [|discriminate].
  destruct (cycle_palette _ _) as [colors|] eqn:Hcm; simpl; [|discriminate].
  destruct (ribbon_chart.bar_generation _ _ _ _ _) as [[coords st]|] eqn:Hbars;
    simpl; [|discriminate].
  destruct (ribbon_chart.ribbon_generation _ _ _ _ _) as [[fig' n']|] eqn:Hrib;
    simpl; [|discriminate].
  intros [= <- <-].
  apply gallery_bars_legend in Hbars as (ext & Hext & Hnd & _ & Hbar).
  eapply gallery_ribbons_legend in Hrib as (ribbons & Hfig & Hscatter); [|exact Hext].
  simpl in Hfig. exists (ext ++ ribbons). split; [exact Hfig|].
  rewrite legend_entries_app, (legend_entries_no_bar ribbons Hscatter), app_nil_r.
  split; [exact Hnd|]. intros c. split.
  - intros Hc. apply in_legend_entries in Hc as (x & y & base & color & width & Ht).
    eexists. split; [apply in_app_iff; left; exact Ht|]. split; [exact I | reflexivity].
  - intros (t & Ht & Hb & <-). apply in_app_or in Ht as [Ht|Ht]; [auto|].
    now apply Hscatter in Ht.
Qed.

Lemma gallery_legend_witness :
  exists new,
    [Bar 2020%Z (Num 3) (Num 0) "A" "#1F77B4" (35 # 100) true;
     Bar 2021%Z (Num 5) (Num 0) "A" "#1F77B4" (35 # 100) false;
     Scatter (404035 # 200) (404165 # 200) (Num 3) (Num 5) (Num 0) (Num 0)
       "#1F77B4" "A"] = [] ++ new /\
    List.NoDup (legend_entries new) /\
    forall c, In c (legend_entries new) <->
              exists t, In t new /\ is_bar t /\ trace_category t = c.
Proof.
  apply (gallery_legend [] [mkRow 2020%Z "A" (Num 3); mkRow 2021%Z "A" (Num 5)]
           2 _ 3%nat).
  vm_compute. reflexivity.
Defined.

(** ** The shape of a sampled curve *)

Lemma sigmoid_range t : (0 < sigmoid t < 1)%R.
Proof.
  unfold sigmoid. pose proof (exp_pos (-10 * (t - 1 / 2))) as He.
  set (e := exp (-10 * (t - 1 / 2))) in *.
  assert (Hq : (0 < e / (1 + e))%R) by (apply Rdiv_lt_0_compat; lra).
  replace (1 / (1 + e))%R with (1 - e / (1 + e))%R by (field; lra).
  assert (He1 : (e / (1 + e) < 1)%R).
  { apply Rmult_lt_reg_r with (1 + e)%R; [lra|].
    unfold Rdiv. rewrite Rmult_assoc, Rinv_l by lra. lra. }
  lra.
Qed.

Lemma sigmoid_increasing t t' : (t < t')%R -> (sigmoid t < sigmoid t')%R.
Proof.
  intros Ht. unfold sigmoid.
  pose proof (exp_pos (-10 * (t - 1 / 2))) as He.
  pose proof (exp_pos (-10 * (t' - 1 / 2))) as He'.
  assert (Hlt : (exp (-10 * (t' - 1 / 2)) < exp (-10 * (t - 1 / 2)))%R)
    by (apply exp_increasing; lra).
  set (e := exp (-10 * (t - 1 / 2))) in *. set (e' := exp (-10 * (t' - 1 / 2))) in *.
  unfold Rdiv. rewrite !Rmult_1_l. apply Rinv_lt_contravar; [|lra].
  apply Rmult_lt_0_compat; lra.
Qed.

Lemma sigmoid_mirror t : sigmoid (1 - t) = (1 - sigmoid t)%R.
Proof.
  unfold sigmoid.
  replace (-10 * (1 - t - 1 / 2))%R with (- (-10 * (t - 1 / 2)))%R by lra.
  rewrite exp_Ropp. pose proof (exp_pos (-10 * (t - 1 / 2))) as He.
  set (e := exp (-10 * (t - 1 / 2))) in *. field. split; lra.
Qed.

Lemma curve_x_nth x1 y1 x2 y2 n k :
  (k < n)%nat ->
  nth k (get_sigmoid_curve x1 y1 x2 y2 n).1 0%R =
    (x1 + INR k / INR (n - 1) * (x2 - x1))%R.
Proof.
  intros Hk. unfold get_sigmoid_curve, linspace01. simpl fst. rewrite !map_map.
  rewrite (nth_indep _ 0%R ((fun x => (x1 + INR x / INR (n - 1) * (x2 - x1))%R) 0%nat))
    by (now rewrite length_map, length_seq).
  rewrite (map_nth (fun x => (x1 + INR x / INR (n - 1) * (x2 - x1))%R)).
  now rewrite seq_nth.
Qed.

Lemma curve_y_nth x1 y1 x2 y2 n k :
  (k < n)%nat ->
  nth k (get_sigmoid_curve x1 y1 x2 y2 n).2 0%R =
    (y1 + sigmoid (INR k / INR (n - 1)) * (y2 - y1))%R.
Proof.
  intros Hk. unfold get_sigmoid_curve, linspace01. simpl snd. rewrite !map_map.
  rewrite (nth_indep _ 0%R
             ((fun x => (y1 + sigmoid (INR x / INR (n - 1)) * (y2 - y1))%R) 0%nat))
    by (now rewrite length_map, length_seq).
  rewrite (map_nth (fun x => (y1 + sigmoid (INR x / INR (n - 1)) * (y2 - y1))%R)).
  now rewrite seq_nth.
Qed.

(** The parameter of sample [k] of [n] lies in [0, 1]. *)
Lemma linspace_range n k : (k < n)%nat -> (0 <= INR k / INR (n - 1) <= 1)%R.
Proof.
  intros Hk. destruct (Nat.eq_dec n 1) as [->|Hn].
  - replace k with 0%nat by lia. simpl. unfold Rdiv. rewrite Rmult_0_l. lra.
  - assert (Hpos : (0 < INR (n - 1))%R) by (apply lt_0_INR; lia).
    assert (Hle : (INR k <= INR (n - 1))%R) by (apply le_INR; lia).
    pose proof (pos_INR k) as Hk0. split.
    + apply Rmult_le_pos; [exact Hk0 | left; now apply Rinv_0_lt_compat].
    + apply Rmult_le_reg_r with (INR (n - 1)); [exact Hpos|].
      unfold Rdiv. rewrite Rmult_assoc, Rinv_l by lra. lra.
Qed.

Lemma linspace_increasing n k k' :
  (k < k' < n)%nat -> (INR k / INR (n - 1) < INR k' / INR (n - 1))%R.
Proof.
  intros [Hk Hk']. assert (Hpos : (0 < INR (n - 1))%R) by (apply lt_0_INR; lia).
  apply Rmult_lt_compat_r; [now apply Rinv_0_lt_compat | now apply lt_INR].
Qed.

Lemma between_band (a b s : R) :
  (0 <= s <= 1)%R -> (Rmin a b <= a + s * (b - a) <= Rmax a b)%R.
Proof.
  intros [H0 H1]. unfold Rmin, Rmax. destruct (Rle_dec a b) as [Hab|Hab].
  - split; nra.
  - split; nra.
Qed.

(** X10.  Every point sampled by [get_sigmoid_curve] lies in the rectangle
    spanned by the two end points: the abscissas lie between [x1] and
    [x2], the ordinates between [y1] and [y2].  When the two ordinates
    differ, no sampled ordinate is [y1] or [y2]: the curve stays strictly
    inside the band. *)
Theorem curve_within_band (x1 y1 x2 y2 : R) (n : nat) :
  (forall x, In x (get_sigmoid_curve x1 y1 x2 y2 n).1 ->
             (Rmin x1 x2 <= x <= Rmax x1 x2)%R) /\
  (forall y, In y (get_sigmoid_curve x1 y1 x2 y2 n).2 ->
             (Rmin y1 y2 <= y <= Rmax y1 y2)%R /\
             (y1 <> y2 -> y <> y1 /\ y <> y2)).
Proof.
  unfold get_sigmoid_curve, linspace01. simpl fst. simpl snd. rewrite !map_map. split.
  - intros x Hx. apply in_map_iff in Hx as (k & <- & Hk). apply in_seq in Hk.
    apply between_band, linspace_range. lia.
  - intros y Hy. apply in_map_iff in Hy as (k & <- & Hk).
    pose proof (sigmoid_range (INR k / INR (n - 1))) as Hs. split.
    + apply between_band. lra.
    + intros Hne. split; intros Heq; apply Hne; nra.
Qed.

(** X11.  The samples of [get_sigmoid_curve] run monotonically from the
    first end point to the second: a later sample lies strictly to the
    right when [x1 < x2], strictly higher when [y1 < y2], strictly lower
    when [y2 < y1], and at the same height when [y1 = y2]. *)
Theorem curve_monotone (x1 y1 x2 y2 : R) (n k k' : nat) :
  (k < k' < n)%nat ->
  ((x1 < x2)%R ->
   (nth k (get_sigmoid_curve x1 y1 x2 y2 n).1 0 <
    nth k' (get_sigmoid_curve x1 y1 x2 y2 n).1 0)%R) /\
  ((y1 < y2)%R ->
   (nth k (get_sigmoid_curve x1 y1 x2 y2 n).2 0 <
    nth k' (get_sigmoid_curve x1 y1 x2 y2 n).2 0)%R) /\
  ((y2 < y1)%R ->
   (nth k' (get_sigmoid_curve x1 y1 x2 y2 n).2 0 <
    nth k (get_sigmoid_curve x1 y1 x2 y2 n).2 0)%R) /\
  (y1 = y2 ->
   nth k (get_sigmoid_curve x1 y1 x2 y2 n).2 0%R =
   nth k' (get_sigmoid_curve x1 y1 x2 y2 n).2 0%R).
Proof.
  intros Hk. rewrite !curve_x_nth, !curve_y_nth by lia.
  pose proof (linspace_increasing n k k' Hk) as Ht.
  pose proof (sigmoid_increasing _ _ Ht) as Hs.
  repeat split; intros H; nra.
Qed.

Lemma curve_monotone_witness :
  (nth 0 (get_sigmoid_curve 0 0 1 1 30).2 0 <
   nth 29 (get_sigmoid_curve 0 0 1 1 30).2 0)%R.
Proof.
  assert (H : (0 < 29 < 30)%nat) by lia.
  destruct (curve_monotone 0 0 1 1 30 0 29 H) as (_ & Hy & _).
  apply Hy. lra.
Defined.

(** X12.  The sampled curve is symmetric about its middle: for at least
    two samples, the samples of index [k] and [n_points - 1 - k] are
    mirror images of each other in the point halfway between the two end
    points, [x_k + x_(n-1-k) = x1 + x2] and [y_k + y_(n-1-k) = y1 + y2]. *)
Theorem curve_symmetric (x1 y1 x2 y2 : R) (n k : nat) :
  (2 <= n)%nat -> (k < n)%nat ->
  (nth k (get_sigmoid_curve x1 y1 x2 y2 n).1 0 +
   nth (n - 1 - k) (get_sigmoid_curve x1 y1 x2 y2 n).1 0 = x1 + x2)%R /\
  (nth k (get_sigmoid_curve x1 y1 x2 y2 n).2 0 +
   nth (n - 1 - k) (get_sigmoid_curve x1 y1 x2 y2 n).2 0 = y1 + y2)%R.
Proof.
  intros Hn Hk. rewrite !curve_x_nth, !curve_y_nth by lia.
  assert (Hpos : (INR (n - 1) <> 0)%R) by (apply not_0_INR; lia).
  assert (Ht : (INR (n - 1 - k) / INR (n - 1) = 1 - INR k / INR (n - 1))%R).
  { rewrite minus_INR by lia. field. exact Hpos. }
  rewrite Ht, sigmoid_mirror. split; ring.
Qed.

Lemma curve_symmetric_witness :
  (nth 3 (get_sigmoid_curve 0 10 1 20 30).2 0 +
   nth 26 (get_sigmoid_curve 0 10 1 20 30).2 0 = 10 + 20)%R.
Proof.
  assert (Hn : (2 <= 30)%nat) by lia.
  assert (Hk : (3 < 30)%nat) by lia.
  exact (proj2 (curve_symmetric 0 10 1 20 30 3 Hn Hk)).
Defined.

(** ** Ribbons and their bars in the engine *)

Lemma engine_create_build df x_col category_col value_col gap bar_width colors
  sort_ascending show_legend fig :
  ribbon_engine.create_ribbon_chart df x_col category_col value_col gap bar_width
    colors sort_ascending show_legend = Ok fig ->
  exists coords,
    ribbon_engine.build df x_col category_col value_col gap bar_width colors
      sort_ascending show_legend = Ok (coords, fig).
Proof.
  unfold ribbon_engine.create_ribbon_chart.
  destruct (ribbon_engine.build _ _ _ _ _ _ _ _ _) as [[coords fig']|]; simpl;
    [|discriminate].
  intros [= <-]. eauto.
Qed.

(** Each end of a ribbon of the engine is the extent of a rectangle of its
    category, of positive height, drawn at one of two adjacent periods. *)
Lemma engine_ribbon_ends df x_col category_col value_col gap bar_width colors
  sort_ascending show_legend coords fig x1 x2 y1_t y2_t y1_b y2_b col cat :
  ribbon_engine.build df x_col category_col value_col gap bar_width colors
    sort_ascending show_legend = Ok (coords, fig) ->
  In (Scatter x1 x2 y1_t y2_t y1_b y2_b col cat) fig ->
  exists i p1 p2 v1 v2,
    engine_periods df !! i = Some p1 /\ engine_periods df !! S i = Some p2 /\
    In (cat, v1, y1_b) (bars_at p1 fig) /\ In (cat, v2, y2_b) (bars_at p2 fig) /\
    (0 < v1)%Q /\ (0 < v2)%Q /\
    y1_t = (y1_b + v1)%Q /\ y2_t = (y2_b + v2)%Q.
Proof.
  intros Hb Hs.
  apply engine_build_spec in Hb as (color_map & _ & Hbars & Hin & _ & Hrib).
  apply Hrib in Hs; [|auto].
  apply in_engine_ribbons in Hs
    as (i & p1 & p2 & c1 & c2 & H1 & H2 & _ & Hc1 & He1 & Hc2 & He2 & _).
  assert (Hend : forall p c e,
            In p (engine_periods df) -> coords !! p = Some c -> c !! cat = Some e ->
            exists v, In (cat, v, e.1) (bars_at p fig) /\ (0 < v)%Q /\
                      e.2 = (e.1 + v)%Q).
  { intros p c e Hp Hc He. rewrite (Hin p Hp) in Hc. injection Hc as <-.
    apply segments_map_lookup in He as [(v & Hseg & Hv)|He];
      [|rewrite lookup_empty in He; discriminate].
    exists v. rewrite Hbars. split; [exact Hseg|]. split; [|exact Hv].
    unfold engine_segments in Hseg.
    eapply positives_positive, in_stack. eauto. }
  destruct (Hend p1 c1 _ (proj1 (list_elem_of_In _ _) (list_elem_of_lookup_2 _ _ _ H1))
              Hc1 He1) as (v1 & Hb1 & Hv1 & Ht1).
  destruct (Hend p2 c2 _ (proj1 (list_elem_of_In _ _) (list_elem_of_lookup_2 _ _ _ H2))
              Hc2 He2) as (v2 & Hb2 & Hv2 & Ht2).
  exists i, p1, p2, v1, v2. simpl in *. auto 10.
Qed.

(** X13.  In a figure of [ribbon_engine.create_ribbon_chart] every ribbon
    is attached to two bars of the figure: a bar of the ribbon's category
    and colour at some period whose lower and upper edge are the ribbon's
    left end, and a bar of the same category and colour at the next
    period whose edges are its right end.  Both bars have a positive
    height. *)
Theorem engine_ribbon_attached df x_col category_col value_col gap bar_width colors
  sort_ascending show_legend fig x1 x2 y1_t y2_t y1_b y2_b col cat :
  ribbon_engine.create_ribbon_chart df x_col category_col value_col gap bar_width
    colors sort_ascending show_legend = Ok fig ->
  In (Scatter x1 x2 y1_t y2_t y1_b y2_b col cat) fig ->
  exists i p1 p2 v1 v2 w1 w2 lg1 lg2,
    engine_periods df !! i = Some p1 /\ engine_periods df !! S i = Some p2 /\
    In (Bar p1 v1 y1_b cat col w1 lg1) fig /\
    In (Bar p2 v2 y2_b cat col w2 lg2) fig /\
    (0 < v1)%Q /\ (0 < v2)%Q /\
    y1_t = (y1_b + v1)%Q /\ y2_t = (y2_b + v2)%Q.
Proof.
  intros Hrun Hs. apply engine_create_build in Hrun as (coords & Hb).
  destruct (engine_build_colored _ _ _ _ _ _ _ _ _ _ _ Hb) as (cm & _ & Hcol).
  destruct (engine_ribbon_ends _ _ _ _ _ _ _ _ _ _ _ _ _ _ _ _ _ _ _ Hb Hs)
    as (i & p1 & p2 & v1 & v2 & H1 & H2 & Hb1 & Hb2 & Hv1 & Hv2 & Ht1 & Ht2).
  apply in_bars_at in Hb1 as (col1 & w1 & lg1 & Hb1).
  apply in_bars_at in Hb2 as (col2 & w2 & lg2 & Hb2).
  assert (col1 = col /\ col2 = col) as [-> ->].
  { pose proof (Hcol _ Hs) as Hc. pose proof (Hcol _ Hb1) as Hc1.
    pose proof (Hcol _ Hb2) as Hc2. simpl in Hc, Hc1, Hc2. split; congruence. }
  exists i, p1, p2, v1, v2, w1, w2, lg1, lg2. auto 10.
Qed.

Lemma engine_ribbon_attached_witness :
  exists i p1 p2 v1 v2 w1 w2 lg1 lg2,
    engine_periods
      (ribbon_engine.mkDataFrame ["Week"; "Employee"; "Hours"]
         [mkRow "W1" "B" (Num 3); mkRow "W2" "B" (Num 5); mkRow "W1" "A" (Num 1)])
      !! i = Some p1 /\
    engine_periods
      (ribbon_engine.mkDataFrame ["Week"; "Employee"; "Hours"]
         [mkRow "W1" "B" (Num 3); mkRow "W2" "B" (Num 5); mkRow "W1" "A" (Num 1)])
      !! S i = Some p2 /\
    In (Bar p1 v1 (3 # 1) "B" "red" w1 lg1)
      [Bar "W1" 1%Q 0%Q "A" "red" (2 # 5) true;
       Bar "W1" 3%Q (3 # 1) "B" "red" (2 # 5) true;
       Bar "W2" 5%Q 0%Q "B" "red" (2 # 5) false;
       Scatter (2 # 10) (8 # 10) (6 # 1) 5%Q (3 # 1) 0%Q "red" "B"] /\
    In (Bar p2 v2 0%Q "B" "red" w2 lg2)
      [Bar "W1" 1%Q 0%Q "A" "red" (2 # 5) true;
       Bar "W1" 3%Q (3 # 1) "B" "red" (2 # 5) true;
       Bar "W2" 5%Q 0%Q "B" "red" (2 # 5) false;
       Scatter (2 # 10) (8 # 10) (6 # 1) 5%Q (3 # 1) 0%Q "red" "B"] /\
    (0 < v1)%Q /\ (0 < v2)%Q /\
    (6 # 1) = ((3 # 1) + v1)%Q /\ 5%Q = (0 + v2)%Q.
Proof.
  apply (engine_ribbon_attached
           (ribbon_engine.mkDataFrame ["Week"; "Employee"; "Hours"]
              [mkRow "W1" "B" (Num 3); mkRow "W2" "B" (Num 5); mkRow "W1" "A" (Num 1)])
           "Week" "Employee" "Hours" 2 (2 # 5)
           (ribbon_engine.ColorList ["red"]) true true _ (2 # 10) (8 # 10)).
  - vm_compute. reflexivity.
  - simpl. tauto.
Defined.

(** X14.  A ribbon of the engine never folds over.  At each end the
    stored top is not below the stored bottom (the top is the bottom plus
    a positive value).  Then, over the reals, at each of the 30 sample
    positions the point of the top curve and the point of the bottom
    curve have the same abscissa, the thickness there is a weighted mean
    of the heights at the two ends, the top point is not below the bottom
    point, and it is strictly above it as soon as the top is above the
    bottom at one of the two ends. *)
Theorem engine_ribbon_thickness df x_col category_col value_col gap bar_width colors
  sort_ascending show_legend fig x1 x2 y1_t y2_t y1_b y2_b col cat k :
  ribbon_engine.create_ribbon_chart df x_col category_col value_col gap bar_width
    colors sort_ascending show_legend = Ok fig ->
  In (Scatter x1 x2 y1_t y2_t y1_b y2_b col cat) fig ->
  (k < n_points_default)%nat ->
  (y1_b <= y1_t)%Q /\ (y2_b <= y2_t)%Q /\
  exists x y_top y_bottom s,
    nth k (top_curve (Q2R x1) (Q2R x2) (Q2R y1_t) (Q2R y2_t)) (0, 0)%R = (x, y_top) /\
    nth k (bottom_curve (Q2R x1) (Q2R x2) (Q2R y1_b) (Q2R y2_b)) (0, 0)%R
      = (x, y_bottom) /\
    (0 < s < 1)%R /\
    (y_top - y_bottom =
     (1 - s) * (Q2R y1_t - Q2R y1_b) + s * (Q2R y2_t - Q2R y2_b))%R /\
    (y_bottom <= y_top)%R /\
    ((y1_b < y1_t)%Q \/ (y2_b < y2_t)%Q -> (y_bottom < y_top)%R).
Proof.
  intros Hrun Hs Hk. apply engine_create_build in Hrun as (coords & Hb).
  destruct (engine_ribbon_ends _ _ _ _ _ _ _ _ _ _ _ _ _ _ _ _ _ _ _ Hb Hs)
    as (i & p1 & p2 & v1 & v2 & _ & _ & _ & _ & Hv1 & Hv2 & Ht1 & Ht2).
  assert (H1 : (y1_b <= y1_t)%Q) by (subst y1_t; Lqa.lra).
  assert (H2 : (y2_b <= y2_t)%Q) by (subst y2_t; Lqa.lra).
  clear Hv1 Hv2 Ht1 Ht2 v1 v2.
  split; [exact H1|]. split; [exact H2|].
  rewrite top_curve_points, bottom_curve_points.
  assert (Hnth : forall y1 y2,
            nth k (map (curve_point (Q2R x1) y1 (Q2R x2) y2 n_points_default)
                     (seq 0 n_points_default)) (0, 0)%R =
            curve_point (Q2R x1) y1 (Q2R x2) y2 n_points_default k).
  { intros y1 y2.
    rewrite (nth_indep _ (0, 0)%R
               (curve_point (Q2R x1) y1 (Q2R x2) y2 n_points_default 0))
      by (now rewrite length_map, length_seq).
    rewrite map_nth, seq_nth by exact Hk. reflexivity. }
  rewrite !Hnth. unfold curve_point.
  pose proof (sigmoid_range (INR k / INR (n_points_default - 1))) as Hsr.
  set (s := sigmoid (INR k / INR (n_points_default - 1))) in *.
  apply Qreals.Qle_Rle in H1, H2.
  eexists _, _, _, s. split; [reflexivity|]. split; [reflexivity|].
  split; [exact Hsr|]. split; [ring|]. split; [nra|].
  intros [H|H]; apply Qreals.Qlt_Rlt in H; nra.
Qed.

Lemma engine_ribbon_thickness_witness :
  ((3 # 1) <= (6 # 1))%Q /\ (0 <= 5)%Q /\
  exists x y_top y_bottom s,
    nth 5 (top_curve (Q2R (2 # 10)) (Q2R (8 # 10)) (Q2R (6 # 1)) (Q2R 5)) (0, 0)%R
      = (x, y_top) /\
    nth 5 (bottom_curve (Q2R (2 # 10)) (Q2R (8 # 10)) (Q2R (3 # 1)) (Q2R 0)) (0, 0)%R
      = (x, y_bottom) /\
    (0 < s < 1)%R /\
    (y_top - y_bottom =
     (1 - s) * (Q2R (6 # 1) - Q2R (3 # 1)) + s * (Q2R 5 - Q2R 0))%R /\
    (y_bottom <= y_top)%R /\
    (((3 # 1) < (6 # 1))%Q \/ (0 < 5)%Q -> (y_bottom < y_top)%R).
Proof.
  apply (engine_ribbon_thickness
           (ribbon_engine.mkDataFrame ["Week"; "Employee"; "Hours"]
              [mkRow "W1" "B" (Num 3); mkRow "W2" "B" (Num 5); mkRow "W1" "A" (Num 1)])
           "Week" "Employee" "Hours" 2 (2 # 5)
           (ribbon_engine.ColorList ["red"]) true true
           [Bar "W1" 1%Q 0%Q "A" "red" (2 # 5) true;
            Bar "W1" 3%Q (3 # 1) "B" "red" (2 # 5) true;
            Bar "W2" 5%Q 0%Q "B" "red" (2 # 5) false;
            Scatter (2 # 10) (8 # 10) (6 # 1) 5%Q (3 # 1) 0%Q "red" "B"]
           (2 # 10) (8 # 10) (6 # 1) 5%Q (3 # 1) 0%Q "red" "B" 5%nat).
  - vm_compute. reflexivity.
  - simpl. tauto.
  - unfold n_points_default. lia.
Defined.

(** ** A frame without a positive value *)

(** X15.  When [ribbon_engine.create_ribbon_chart] returns, the figure has
    no trace at all exactly when no row of the frame has a positive
    value: a frame of zeros, negative values and NaN gives an empty chart,
    not an error, and a single positive row is enough for a bar. *)
Theorem engine_empty_figure df x_col category_col value_col gap bar_width colors
  sort_ascending show_legend fig :
  ribbon_engine.create_ribbon_chart df x_col category_col value_col gap bar_width
    colors sort_ascending show_legend = Ok fig ->
  (fig = [] <-> forall r, In r (ribbon_engine.rows df) -> gt0 (value r) = false).
Proof.
  intros Hrun. apply engine_create_build in Hrun as (coords & Hb).
  pose proof (engine_build_spec _ _ _ _ _ _ _ _ _ _ _ Hb) as (cm & _ & Hbars & _).
  split.
  - intros -> r Hr. destruct (gt0 (value r)) eqn:Hpos; [|reflexivity]. exfalso.
    destruct (value r) as [v|] eqn:Hv; [|discriminate].
    assert (Hcv : In (category r, v)
                    (positives (sorted (row_leb sort_ascending)
                                  (rows_of (period r) (ribbon_engine.rows df))))).
    { apply in_positives_period. exists r. rewrite Hv. auto. }
    apply (in_stack gap 0) in Hcv as (y & Hy).
    fold (engine_segments gap sort_ascending (ribbon_engine.rows df) (period r)) in Hy.
    rewrite <- Hbars in Hy. destruct Hy.
  - intros Hnone.
    assert (Hnobar : forall p, bars_at p fig = []).
    { intros p. rewrite Hbars. unfold engine_segments.
      destruct (positives _) as [|[c v] l] eqn:Hpos; [reflexivity|]. exfalso.
      assert (Hcv : In (c, v) (positives (sorted (row_leb sort_ascending)
                                            (rows_of p (ribbon_engine.rows df)))))
        by (rewrite Hpos; now left).
      apply in_positives_period in Hcv as (r & Hr & _ & _ & _ & Hgt).
      rewrite (Hnone r Hr) in Hgt. discriminate. }
    destruct fig as [|t fig]; [reflexivity|]. exfalso.
    destruct t as [x y base name color width lg|x1 x2 y1_t y2_t y1_b y2_b color cat].
    + assert (Hin : In (name, y, base) (bars_at x (Bar x y base name color width lg :: fig)))
        by (apply in_bars_at; exists color, width, lg; now left).
      rewrite Hnobar in Hin. destruct Hin.
    + destruct (engine_ribbon_ends _ _ _ _ _ _ _ _ _ _ _ x1 x2 y1_t y2_t y1_b y2_b
                  color cat Hb (or_introl eq_refl))
        as (i & p1 & p2 & v1 & v2 & _ & _ & Hb1 & _).
      rewrite Hnobar in Hb1. destruct Hb1.
Qed.

Lemma engine_empty_figure_witness :
  ribbon_engine.create_ribbon_chart
    (ribbon_engine.mkDataFrame ["Week"; "Employee"; "Hours"]
       [mkRow "W1" "A" (Num 0); mkRow "W2" "A" NaN; mkRow "W2" "B" (Num (-3))])
    "Week" "Employee" "Hours" 2 (2 # 5) ribbon_engine.ColorNone true true = Ok [] /\
  ((@nil (trace string Q)) = [] <->
   forall r,
     In r [mkRow "W1" "A" (Num 0); mkRow "W2" "A" NaN; mkRow "W2" "B" (Num (-3))] ->
     gt0 (value r) = false).
Proof.
  split; [vm_compute; reflexivity|].
  apply (engine_empty_figure
           (ribbon_engine.mkDataFrame ["Week"; "Employee"; "Hours"]
              [mkRow "W1" "A" (Num 0); mkRow "W2" "A" NaN; mkRow "W2" "B" (Num (-3))])
           "Week" "Employee" "Hours" 2 (2 # 5) ribbon_engine.ColorNone true true []).
  vm_compute. reflexivity.
Defined.

(** ** NaN in [employee_hours_chart] *)

Lemma nstack_numeric_bases gap (l : list (string * number)) :
  (0 <= gap)%Q ->
  (forall c q, In (c, Num q) l -> (0 <= q)%Q) ->
  StronglySorted (fun a b => match value_cmp true a.2 b.2 with Gt => False | _ => True end) l ->
  forall y c v b, (0 <= y)%Q -> In (c, Num v, b) (nstack gap (Num y) l) ->
    exists q, b = Num q /\ (0 <= q)%Q.
Proof.
  intros Hgap.
  induction l as [|[c0 v0] l IH]; intros Hpos Hs y c v b Hy Hin; [destruct Hin|].
  apply StronglySorted_inv in Hs as [Hs Hhd]. simpl in Hin.
  destruct Hin as [[= _ _ <-]|Hin]; [eauto|].
  destruct v0 as [q0|].
  - simpl in Hin. eapply (IH (fun c' q' H => Hpos c' q' (or_intror H)) Hs); [|exact Hin].
    assert (H0 : (0 <= q0)%Q) by (apply (Hpos c0); now left).
    Lqa.lra.
  - exfalso. clear IH Hs. simpl in Hin.
    assert (Hv : In (c, Num v) l) by (eapply in_nstack; eauto).
    rewrite List.Forall_forall in Hhd. apply Hhd in Hv. simpl in Hv. exact Hv.
Qed.

(** X16.  In a figure of [employee_hours_chart.create_ribbon_chart], for
    a gap that is not negative and a value column whose numbers are not
    negative, a NaN in the value column never reaches the position of a
    row that has a number: the sort puts the NaN rows of a period on top
    of its stack, so every bar whose height is a number has a lower edge
    that is a number, and not a negative one.  (With these signs every
    offset is a sum of terms that are not negative.  A frame that mixes
    signs can reach NaN in floating point without any NaN in the column,
    from an overflow to [-inf] followed by one to [inf].) *)
Theorem hours_numeric_bases df gap :
  (0 <= gap)%Q ->
  (forall r q, In r df -> value r = Num q -> (0 <= q)%Q) ->
  exists fig,
    employee_hours_chart.create_ribbon_chart df gap = Ok fig /\
    forall p c v base,
      In (c, Num v, base) (bars_at p fig) -> exists q, base = Num q /\ (0 <= q)%Q.
Proof.
  intros Hgap Hpos.
  destruct (hours_build_spec df gap) as (colors & coords & fig & Hb & _ & _ & Hbars & _).
  exists fig. unfold employee_hours_chart.create_ribbon_chart. rewrite Hb.
  split; [reflexivity|]. intros p c v base Hin. rewrite Hbars in Hin.
  unfold hours_segments in Hin.
  eapply (nstack_numeric_bases gap _ Hgap); [| |apply Qle_refl|exact Hin].
  - intros c' q' Hq. apply in_map_iff in Hq as (r & [= <- Hv] & Hr).
    apply in_sorted, in_rows_of in Hr as [Hr _]. eapply Hpos; eassumption.
  - apply (StronglySorted_map row_key
             (fun a b => match value_cmp true a.2 b.2 with Gt => False | _ => True end)).
    eapply StronglySorted_weaken; [|apply (sorted_strongly value_leb)].
    + intros a b Hab. unfold value_leb in Hab. unfold row_key. simpl.
      destruct (value_cmp true (value a) (value b)); [exact I | exact I | discriminate].
    + apply value_leb_total.
    + apply value_leb_trans.
Qed.

Lemma hours_numeric_bases_witness :
  exists fig,
    employee_hours_chart.create_ribbon_chart
      [mkRow "W1" "A" NaN; mkRow "W1" "B" (Num 5); mkRow "W1" "C" (Num 0)] 2 = Ok fig /\
    forall p c v base,
      In (c, Num v, base) (bars_at p fig) -> exists q, base = Num q /\ (0 <= q)%Q.
Proof.
  apply (hours_numeric_bases
           [mkRow "W1" "A" NaN; mkRow "W1" "B" (Num 5); mkRow "W1" "C" (Num 0)] 2).
  - discriminate.
  - intros r q [<-|[<-|[<-|[]]]]; simpl; intros [= <-]; discriminate.
Defined.

(** ** The order of the rows *)

Lemma for_each_ext {S A : Type} (body1 body2 : S -> A -> result S) l :
  (forall s a, In a l -> body1 s a = body2 s a) ->
  forall s, for_each body1 l s = for_each body2 l s.
Proof.
  induction l as [|a l IH]; intros Hext s; [reflexivity|]. simpl.
  rewrite Hext by now left. destruct (body2 s a) as [s'|e]; [|reflexivity].
  simpl. apply IH. intros. apply Hext. now right.
Qed.

Lemma Permutation_filter_bool {A : Type} (f : A -> bool) (l l' : list A) :
  Permutation l l' -> Permutation (List.filter f l) (List.filter f l').
Proof.
  induction 1 as [|a l l' _ IH|a b l|l1 l2 l3 _ IH1 _ IH2]; simpl.
  - constructor.
  - destruct (f a); [now constructor | assumption].
  - destruct (f a), (f b); try reflexivity. constructor.
  - etransitivity; eassumption.
Qed.

(** A list has at most one sorted arrangement under an order that is
    antisymmetric on its elements. *)
Lemma sorted_arrangement_unique {A : Type} (leb : A -> A -> bool) (l1 : list A) :
  forall l2,
    (forall a b, In a l1 -> In b l1 -> leb a b = true -> leb b a = true -> a = b) ->
    StronglySorted (fun a b => leb a b = true) l1 ->
    StronglySorted (fun a b => leb a b = true) l2 ->
    Permutation l1 l2 -> l1 = l2.
Proof.
  induction l1 as [|a l1 IH]; intros l2 Hanti Hs1 Hs2 Hperm.
  - apply Permutation_nil in Hperm. now subst.
  - destruct l2 as [|b l2]; [apply Permutation_sym, Permutation_nil in Hperm; discriminate|].
    apply StronglySorted_inv in Hs1 as [Hs1 Ha], Hs2 as [Hs2 Hb].
    rewrite List.Forall_forall in Ha, Hb.
    assert (Hab : a = b).
    { assert (Hin2 : In a (b :: l2)) by (eapply Permutation_in; [exact Hperm | now left]).
      assert (Hin1 : In b (a :: l1))
        by (eapply Permutation_in; [apply Permutation_sym; exact Hperm | now left]).
      destruct Hin2 as [Heq|Hin2]; [now symmetry|].
      destruct Hin1 as [Heq|Hin1]; [assumption|].
      apply Hanti; [now left | now right | now apply Ha | now apply Hb]. }
    subst b. f_equal. apply Permutation_cons_inv in Hperm.
    apply IH; try assumption. intros x y Hx Hy. apply Hanti; now right.
Qed.

Lemma sorted_perm_eq {A : Type} (leb : A -> A -> bool) (l l' : list A) :
  (forall a b, leb a b = true \/ leb b a = true) ->
  (forall a b c, leb a b = true -> leb b c = true -> leb a c = true) ->
  (forall a b, In a l -> In b l -> leb a b = true -> leb b a = true -> a = b) ->
  Permutation l l' -> sorted leb l = sorted leb l'.
Proof.
  intros Htot Htrans Hanti Hperm. apply (sorted_arrangement_unique leb).
  - intros a b Ha Hb. apply Hanti; now apply in_sorted in Ha, Hb.
  - now apply sorted_strongly.
  - now apply sorted_strongly.
  - rewrite (sorted_perm leb l), (sorted_perm leb l'). exact Hperm.
Qed.

Lemma sorted_unique_perm (l l' : list string) :
  Permutation l l' ->
  sorted String.leb (unique l) = sorted String.leb (unique l').
Proof.
  intros Hperm. apply sorted_perm_eq.
  - apply string_leb_total.
  - apply string_leb_trans.
  - intros a b _ _. apply string_leb_antisym.
  - apply Permutation.NoDup_Permutation; [apply NoDup_unique | apply NoDup_unique |].
    intros x. rewrite !in_unique. split; apply Permutation_in;
      [exact Hperm | apply Permutation_sym, Hperm].
Qed.

Lemma row_leb_antisym {P : Type} asc (rows : list (Row P)) (a b : Row P) :
  List.NoDup (map (fun r => (period r, category r)) rows) ->
  In a rows -> In b rows -> period a = period b ->
  row_leb asc a b = true -> row_leb asc b a = true -> a = b.
Proof.
  intros Hnd Ha Hb Hp Hab Hba. apply (NoDup_key_inj rows); try assumption.
  unfold row_leb in Hab, Hba. rewrite (value_cmp_antisym asc (value a) (value b)) in Hba.
  destruct (value_cmp asc (value a) (value b)); simpl in Hba; try discriminate.
  now apply string_leb_antisym.
Qed.

(** X17.  On a frame with at most one row per (period, category) the
    result of [ribbon_engine.create_ribbon_chart] does not depend on the
    order of the rows: two frames with the same columns whose rows are a
    permutation of each other give the same figure, trace by trace, or
    the same exception. *)
Theorem engine_row_order cols rows rows' x_col category_col value_col gap bar_width
  colors sort_ascending show_legend :
  Permutation rows rows' ->
  List.NoDup (map (fun r => (period r, category r)) rows) ->
  ribbon_engine.create_ribbon_chart (ribbon_engine.mkDataFrame cols rows)
    x_col category_col value_col gap bar_width colors sort_ascending show_legend =
  ribbon_engine.create_ribbon_chart (ribbon_engine.mkDataFrame cols rows')
    x_col category_col value_col gap bar_width colors sort_ascending show_legend.
Proof.
  intros Hperm Hnd.
  assert (Hbars : forall color_map periods,
            ribbon_engine.bar_generation gap bar_width color_map sort_ascending
              show_legend rows periods =
            ribbon_engine.bar_generation gap bar_width color_map sort_ascending
              show_legend rows' periods).
  { intros color_map periods. unfold ribbon_engine.bar_generation.
    apply for_each_ext. intros [coords fig] [i p] _.
    unfold ribbon_engine.period_bars.
    rewrite (sorted_perm_eq (row_leb sort_ascending) (rows_of p rows) (rows_of p rows'));
      [reflexivity | apply row_leb_total | apply row_leb_trans | |].
    - intros a b Ha Hb. apply in_rows_of in Ha as [Ha Hpa], Hb as [Hb Hpb].
      apply (row_leb_antisym sort_ascending rows); congruence.
    - now apply Permutation_filter_bool. }
  unfold ribbon_engine.create_ribbon_chart, ribbon_engine.build.
  change (ribbon_engine.validate (ribbon_engine.mkDataFrame cols rows'))
    with (ribbon_engine.validate (ribbon_engine.mkDataFrame cols rows)).
  simpl ribbon_engine.rows.
  rewrite (sorted_unique_perm (map period rows) (map period rows'))
    by now apply Permutation_map.
  rewrite (sorted_unique_perm (map category rows) (map category rows'))
    by now apply Permutation_map.
  destruct (ribbon_engine.validate _ _) as [[]|e]; [|reflexivity]. cbn [bind].
  destruct (ribbon_engine.color_setup _ _) as [color_map|e]; [|reflexivity]. cbn [bind].
  rewrite Hbars. reflexivity.
Qed.

Lemma engine_row_order_witness :
  ribbon_engine.create_ribbon_chart
    (ribbon_engine.mkDataFrame ["Week"; "Employee"; "Hours"]
       [mkRow "W2" "B" (Num 5); mkRow "W1" "B" (Num 3)])
    "Week" "Employee" "Hours" 2 (2 # 5) ribbon_engine.ColorNone true true =
  ribbon_engine.create_ribbon_chart
    (ribbon_engine.mkDataFrame ["Week"; "Employee"; "Hours"]
       [mkRow "W1" "B" (Num 3); mkRow "W2" "B" (Num 5)])
    "Week" "Employee" "Hours" 2 (2 # 5) ribbon_engine.ColorNone true true.
Proof.
  apply engine_row_order.
  - apply perm_swap.
  - apply NoDup_ListNoDup, (bool_decide_unpack _). vm_compute. exact I.
Defined.

(** ** employee_app: the top N filter and the chart *)

Lemma StronglySorted_app_cross {A : Type} (R : A -> A -> Prop) (l1 l2 : list A) :
  StronglySorted R (l1 ++ l2) -> forall a b, In a l1 -> In b l2 -> R a b.
Proof.
  induction l1 as [|x l1 IH]; intros Hs a b Ha Hb; [destruct Ha|].
  simpl in Hs. apply StronglySorted_inv in Hs as [Hs Hx].
  destruct Ha as [<-|Ha]; [|now apply IH].
  rewrite List.Forall_forall in Hx. apply Hx, in_app_iff. now right.
Qed.

Lemma NoDup_take_list {A : Type} (k : nat) (l : list A) :
  List.NoDup l -> List.NoDup (take k l).
Proof.
  intros Hnd. rewrite <- (take_drop k l) in Hnd. now apply NoDup_app_remove_r in Hnd.
Qed.

Lemma in_groupby_sum rows e q :
  In (e, q) (employee_app.groupby_sum rows) <->
  In e (map category rows) /\ q = employee_app.total rows e.
Proof.
  unfold employee_app.groupby_sum. rewrite in_map_iff. split.
  - intros (e' & [= <- <-] & He). rewrite in_sorted, in_unique in He.
    split; [exact He | reflexivity].
  - intros [He ->]. exists e. split; [reflexivity|]. now rewrite in_sorted, in_unique.
Qed.

Lemma head_prefix {A : Type} (n : Z) (l : list A) :
  exists k, employee_app.head n l = take k l /\
            k = (if (0 <=? n)%Z then Z.to_nat n else length l - Z.to_nat (- n))%nat.
Proof. unfold employee_app.head. destruct (0 <=? n)%Z; eauto. Qed.

(** X18.  The [--top N] filter of [employee_app.main], for any sort that
    puts the totals in descending order, whatever it does with equal
    totals.  The employees that are kept are distinct employees of the
    frame: [min(N, number of employees)] of them for a positive [N], all
    but the last [-N] of the ranking for a negative one.  The filter
    keeps a row exactly when its employee is kept, so an employee is kept
    or dropped with all their rows.  No employee that is dropped has a
    larger total than one that is kept, a missing value counting as 0. *)
Theorem app_top_filter (sort_values : list (string * Q) -> list (string * Q))
  (rows : list (Row string)) (n : Z) :
  (forall l, Permutation (sort_values l) l) ->
  (forall l, StronglySorted (fun a b => (b.2 <= a.2)%Q) (sort_values l)) ->
  n <> 0%Z ->
  List.NoDup (employee_app.top_emps sort_values rows n) /\
  length (employee_app.top_emps sort_values rows n) =
    (if (0 <=? n)%Z
     then Nat.min (Z.to_nat n) (length (unique (map category rows)))
     else length (unique (map category rows)) - Z.to_nat (- n))%nat /\
  (forall e, In e (employee_app.top_emps sort_values rows n) ->
             In e (map category rows)) /\
  (forall r, In r (employee_app.top_filter sort_values rows (Some n)) <->
             In r rows /\ In (category r) (employee_app.top_emps sort_values rows n)) /\
  (forall e e',
     In e (employee_app.top_emps sort_values rows n) ->
     In e' (map category rows) ->
     ~ In e' (employee_app.top_emps sort_values rows n) ->
     (employee_app.total rows e' <= employee_app.total rows e)%Q).
Proof.
  intros Hperm Hsorted Hn. unfold employee_app.top_emps.
  set (ranking := sort_values (employee_app.groupby_sum rows)).
  destruct (head_prefix n ranking) as (k & -> & Hk).
  assert (Hlen : length ranking = length (unique (map category rows))).
  { unfold ranking. rewrite (Permutation_length (Hperm _)).
    unfold employee_app.groupby_sum. rewrite length_map.
    apply Permutation_length, sorted_perm. }
  assert (Hkeys : List.NoDup (map fst ranking)).
  { eapply Permutation_NoDup.
    - apply Permutation_map, Permutation_sym, Hperm.
    - unfold employee_app.groupby_sum. rewrite map_map. simpl. rewrite map_id.
      apply NoDup_sorted, NoDup_unique. }
  assert (Hin : forall e q, In (e, q) ranking <->
                            In e (map category rows) /\ q = employee_app.total rows e).
  { intros e q. rewrite <- in_groupby_sum. split; apply Permutation_in;
      [apply Hperm | apply Permutation_sym, Hperm]. }
  split; [|split; [|split; [|split]]].
  - rewrite <- firstn_map. now apply NoDup_take_list.
  - rewrite length_map, length_take, Hlen, Hk.
    destruct (0 <=? n)%Z eqn:Hsign; lia.
  - intros e He. apply in_map_iff in He as ([e' q] & <- & He).
    apply (Hin e' q). rewrite <- (take_drop k ranking). apply in_app_iff. now left.
  - intros r. unfold employee_app.top_filter, employee_app.top_emps.
    rewrite (proj2 (Z.eqb_neq n 0) Hn). fold ranking.
    destruct (head_prefix n ranking) as (k' & -> & Hk'). subst k'. rewrite <- Hk.
    rewrite filter_In, bool_decide_eq_true, list_elem_of_In. reflexivity.
  - intros e e' He He' Hout.
    apply in_map_iff in He as ([e0 q] & <- & He). simpl.
    assert (Hq : q = employee_app.total rows e0).
    { apply (Hin e0 q). rewrite <- (take_drop k ranking). apply in_app_iff. now left. }
    assert (He'r : In (e', employee_app.total rows e') ranking) by (apply Hin; auto).
    rewrite <- (take_drop k ranking) in He'r. apply in_app_or in He'r as [Hin'|Hin'].
    + exfalso. apply Hout. apply in_map_iff. eexists. split; [|exact Hin']. reflexivity.
    + pose proof (Hsorted (employee_app.groupby_sum rows)) as Hs. fold ranking in Hs.
      rewrite <- (take_drop k ranking) in Hs.
      pose proof (StronglySorted_app_cross _ _ _ Hs _ _ He Hin') as Hle.
      simpl in Hle. now rewrite <- Hq.
Qed.

Lemma app_top_filter_witness :
  employee_app.top_emps (sorted (fun a b => Qle_bool b.2 a.2))
    [mkRow "W1" "A" (Num 3); mkRow "W1" "B" (Num 5); mkRow "W2" "A" NaN;
     mkRow "W2" "C" (Num 4)] 2 = ["B"; "C"] /\
  forall e e',
    In e (employee_app.top_emps (sorted (fun a b => Qle_bool b.2 a.2))
            [mkRow "W1" "A" (Num 3); mkRow "W1" "B" (Num 5); mkRow "W2" "A" NaN;
             mkRow "W2" "C" (Num 4)] 2) ->
    In e' (map category
             [mkRow "W1" "A" (Num 3); mkRow "W1" "B" (Num 5); mkRow "W2" "A" NaN;
              mkRow "W2" "C" (Num 4)]) ->
    ~ In e' (employee_app.top_emps (sorted (fun a b => Qle_bool b.2 a.2))
               [mkRow "W1" "A" (Num 3); mkRow "W1" "B" (Num 5); mkRow "W2" "A" NaN;
                mkRow "W2" "C" (Num 4)] 2) ->
    (employee_app.total
       [mkRow "W1" "A" (Num 3); mkRow "W1" "B" (Num 5); mkRow "W2" "A" NaN;
        mkRow "W2" "C" (Num 4)] e' <=
     employee_app.total
       [mkRow "W1" "A" (Num 3); mkRow "W1" "B" (Num 5); mkRow "W2" "A" NaN;
        mkRow "W2" "C" (Num 4)] e)%Q.
Proof.
  split; [vm_compute; reflexivity|].
  apply (app_top_filter (sorted (fun a b => Qle_bool b.2 a.2))
           [mkRow "W1" "A" (Num 3); mkRow "W1" "B" (Num 5); mkRow "W2" "A" NaN;
            mkRow "W2" "C" (Num 4)] 2).
  - intros l. apply sorted_perm.
  - intros l. eapply StronglySorted_weaken;
      [|apply (sorted_strongly (fun a b : string * Q => Qle_bool b.2 a.2))].
    + intros a b Hab. apply Qle_bool_iff. exact Hab.
    + intros a b. rewrite !Qle_bool_iff. destruct (Qlt_le_dec a.2 b.2) as [H|H];
        [right; now apply Qlt_le_weak | now left].
    + intros a b c. rewrite !Qle_bool_iff. intros H1 H2. now apply Qle_trans with b.2.
  - discriminate.
Defined.

(** X19.  In [employee_app.main], on a frame with the three columns
    [Week], [Employee] and [Hours], the call of
    [ribbon_engine.create_ribbon_chart] with the Prism list returns a
    figure, whatever [--top] and [--gap] are and however the sort breaks
    ties: the chart step raises nothing for the [except] branch to
    report.  Every trace of the figure belongs to an employee that has a
    row with a value left after the top N filter. *)
Theorem app_main_chart (sort_values : list (string * Q) -> list (string * Q))
  (df : ribbon_engine.DataFrame) (top : option Z) (gap : Q) :
  In "Week" (ribbon_engine.columns df) ->
  In "Employee" (ribbon_engine.columns df) ->
  In "Hours" (ribbon_engine.columns df) ->
  exists fig,
    employee_app.main sort_values df top gap = Ok fig /\
    forall t, In t fig ->
      exists r,
        In r (employee_app.top_filter sort_values (ribbon_engine.rows df) top) /\
        isna (value r) = false /\ category r = trace_category t.
Proof.
  intros H1 H2 H3. unfold employee_app.main.
  set (df' := ribbon_engine.mkDataFrame _ _).
  destruct (engine_build_ok df' "Week" "Employee" "Hours" gap (2 # 5)
              (ribbon_engine.ColorList employee_hours_chart.Prism) true true)
    as (coords & fig & Hb); [repeat split; try assumption; discriminate|].
  exists fig. unfold ribbon_engine.create_ribbon_chart. rewrite Hb.
  split; [reflexivity|]. intros t Ht.
  apply engine_build_colored in Hb as (cm & Hcm & Hcol). apply Hcol in Ht.
  cbn [ribbon_engine.color_setup] in Hcm.
  assert (Hcat : In (trace_category t) (engine_categories df')).
  { eapply cycle_palette_dom; [exact Hcm | rewrite Ht; eauto]. }
  apply in_engine_categories, in_map_iff in Hcat as (r & Hr & Hin).
  unfold df', employee_app.clean in Hin. simpl in Hin.
  apply filter_In in Hin as [Hin Hna]. exists r.
  split; [exact Hin|]. split; [now apply negb_true_iff | exact Hr].
Qed.

Lemma app_main_chart_witness :
  exists fig,
    employee_app.main (sorted (fun a b => Qle_bool b.2 a.2))
      (ribbon_engine.mkDataFrame ["Week"; "Employee"; "Hours"]
         [mkRow "W1" "A" (Num 3); mkRow "W1" "B" (Num 5); mkRow "W2" "A" NaN;
          mkRow "W2" "C" (Num 4)])
      (Some 2%Z) 2 = Ok fig /\
    forall t, In t fig ->
      exists r,
        In r (employee_app.top_filter (sorted (fun a b => Qle_bool b.2 a.2))
                [mkRow "W1" "A" (Num 3); mkRow "W1" "B" (Num 5); mkRow "W2" "A" NaN;
                 mkRow "W2" "C" (Num 4)] (Some 2%Z)) /\
        isna (value r) = false /\ category r = trace_category t.
Proof.
  apply (app_main_chart (sorted (fun a b => Qle_bool b.2 a.2))
           (ribbon_engine.mkDataFrame ["Week"; "Employee"; "Hours"]
              [mkRow "W1" "A" (Num 3); mkRow "W1" "B" (Num 5); mkRow "W2" "A" NaN;
               mkRow "W2" "C" (Num 4)])
           (Some 2%Z) 2); simpl; tauto.
Defined.
